(** * GroceryPricingStudy: the cleaning and ZIP-merge pipeline

    A shallow embedding of the data-processing scripts of the repository
    (census_cleaning.py, product_cleaning.py, zip_merge.py, as documented in
    the processing notebook) and the properties established about them.

    Conventions of the embedding.
    - A pandas float64 cell is a [pyfloat]: an exact rational, one of the two
      infinities, or NaN.  Arithmetic is exact on the finite part (binary
      rounding and overflow are abstracted away); division by zero, NaN
      propagation and [fillna] follow numpy.  The one place where the binary
      representation decides a result, [Series.round], rounds through the
      doubles ([to_double]).
    - A Python [str] is a list of characters with code points below 256.
    - A cell of an object column is a [cell]: a string, or the NaN that
      pandas stores for a missing value.
    - Code that can raise returns a [result]. *)

From Stdlib Require Import List Ascii String ZArith QArith Qpower Qround Lia Lqa Bool Arith PeanoNat.
From Stdlib Require DecimalString DecimalFacts DecimalZ.
Import ListNotations.

Set Implicit Arguments.

(* ================================================================== *)
(** * Python values *)
(* ================================================================== *)

Module Py.

Definition str := list ascii.

Definition txt (s : string) : str := list_ascii_of_string s.

(** An object-column cell as [pd.read_csv] delivers it. *)
Inductive cell :=
| Str (s : str)
| Missing.

Inductive exn := AttributeError | ValueError.

Inductive result (A : Type) :=
| Ok (a : A)
| Raise (e : exn).
Arguments Ok {A} a.
Arguments Raise {A} e.

Definition bind {A B} (r : result A) (k : A -> result B) : result B :=
  match r with
  | Ok a => k a
  | Raise e => Raise e
  end.

Fixpoint mapM {A B} (f : A -> result B) (l : list A) : result (list B) :=
  match l with
  | [] => Ok []
  | a :: t => bind (f a) (fun b => bind (mapM f t) (fun bs => Ok (b :: bs)))
  end.

(** ** Characters *)

Definition code (c : ascii) : nat := nat_of_ascii c.

Definition between (lo hi : nat) (c : ascii) : bool :=
  (lo <=? code c)%nat && (code c <=? hi)%nat.

Definition is_digit (c : ascii) : bool := between 48 57 c.
Definition is_dot (c : ascii) : bool := (code c =? 46)%nat.
Definition is_upper (c : ascii) : bool := between 65 90 c.
Definition is_lower (c : ascii) : bool := between 97 122 c.
(** the class [[a-zA-Z]] *)
Definition is_alpha (c : ascii) : bool := is_upper c || is_lower c.
Definition is_newline (c : ascii) : bool := (code c =? 10)%nat.
Definition is_sign (c : ascii) : bool := (code c =? 43)%nat || (code c =? 45)%nat.

(** [str.isspace] on code points below 256. *)
Definition is_space (c : ascii) : bool :=
  between 9 13 c || between 28 32 c || (code c =? 133)%nat || (code c =? 160)%nat.

(** [str.lower] on one code point below 256: A-Z, and the Latin-1 capitals
    U+00C0..U+00DE except the multiplication sign U+00D7. *)
Definition lower_char (c : ascii) : ascii :=
  if is_upper c || (between 192 222 c && negb (code c =? 215)%nat)
  then ascii_of_nat (code c + 32)
  else c.

Definition lower (s : str) : str := map lower_char s.

Definition str_eqb (a b : str) : bool :=
  if list_eq_dec ascii_dec a b then true else false.

(** ** Scanning *)

Section Scan.
Variable A : Type.
Variable p : A -> bool.

Fixpoint take_while (l : list A) : list A :=
  match l with
  | [] => []
  | a :: t => if p a then a :: take_while t else []
  end.

Fixpoint drop_while (l : list A) : list A :=
  match l with
  | [] => []
  | a :: t => if p a then drop_while t else l
  end.
End Scan.

Fixpoint starts_with (pat s : str) : bool :=
  match pat, s with
  | [], _ => true
  | _ :: _, [] => false
  | a :: pat', b :: s' => if ascii_dec a b then starts_with pat' s' else false
  end.

(** [pat in s] *)
Fixpoint contains (pat s : str) : bool :=
  starts_with pat s ||
  match s with
  | [] => false
  | _ :: t => contains pat t
  end.

(** [str.strip()] *)
Definition strip (s : str) : str :=
  rev (drop_while is_space (rev (drop_while is_space s))).

(** [str.split()] with no argument: maximal runs of non-space characters. *)
Fixpoint split_acc (cur : str) (s : str) : list str :=
  match s with
  | [] => match cur with [] => [] | _ => [rev cur] end
  | c :: t =>
      if is_space c
      then match cur with
           | [] => split_acc [] t
           | _ => rev cur :: split_acc [] t
           end
      else split_acc (c :: cur) t
  end.

Definition split (s : str) : list str := split_acc [] s.

(** [str.zfill(width)]: a string at least [width] long is returned as it
    is; otherwise zeros are added on the left, after a leading sign when
    the string starts with one. *)
Definition zfill (width : nat) (s : str) : str :=
  let fill := (width - List.length s)%nat in
  match fill with
  | O => s
  | _ =>
      match s with
      | c :: rest =>
          if is_sign c
          then c :: repeat "0"%char fill ++ rest
          else repeat "0"%char fill ++ s
      | [] => repeat "0"%char fill
      end
  end.

(** ** float64, idealised *)

Inductive pyfloat :=
| Fin (q : Q)
| PInf
| NInf
| NaN.

Definition isnull (x : pyfloat) : bool :=
  match x with NaN => true | _ => false end.

(** [fillna(0)] on one cell *)
Definition fillna0 (x : pyfloat) : pyfloat :=
  match x with NaN => Fin 0 | _ => x end.

Definition Qneg_bool (q : Q) : bool := negb (Qle_bool 0 q).

(** numpy true division *)
Definition fdiv (x y : pyfloat) : pyfloat :=
  match x, y with
  | NaN, _ | _, NaN => NaN
  | Fin a, Fin b =>
      if Qeq_bool b 0
      then (if Qeq_bool a 0 then NaN else if Qneg_bool a then NInf else PInf)
      else Fin (Qred (a / b))
  | Fin _, _ => Fin 0
  | PInf, Fin b => if Qneg_bool b then NInf else PInf
  | NInf, Fin b => if Qneg_bool b then PInf else NInf
  | _, _ => NaN
  end.

Definition fadd (x y : pyfloat) : pyfloat :=
  match x, y with
  | NaN, _ | _, NaN => NaN
  | Fin a, Fin b => Fin (Qred (a + b))
  | PInf, NInf | NInf, PInf => NaN
  | PInf, _ | _, PInf => PInf
  | NInf, _ | _, NInf => NInf
  end.

(** [x > 0], false on NaN *)
Definition gt0 (x : pyfloat) : bool :=
  match x with
  | Fin q => negb (Qle_bool q 0)
  | PInf => true
  | _ => false
  end.

(** [x == 0] *)
Definition eq0 (x : pyfloat) : bool :=
  match x with
  | Fin q => Qeq_bool q 0
  | _ => false
  end.

(** [0 <= x <= 1] *)
Definition in_unit (x : pyfloat) : Prop :=
  match x with
  | Fin q => 0 <= q /\ q <= 1
  | _ => False
  end.

(** Round half to even, to an integer. *)
Definition round_half_even (q : Q) : Z :=
  let n := Qnum q in
  let d := Zpos (Qden q) in
  let f := (n / d)%Z in
  let r := (n mod d)%Z in
  if (2 * r <? d)%Z then f
  else if (d <? 2 * r)%Z then (f + 1)%Z
  else if Z.even f then f else (f + 1)%Z.

(** The exponent [e] of the double nearest to a positive rational:
    [2^52 <= q / 2^e < 2^53]. *)
Definition binade (q : Q) : Z :=
  let e0 := (Z.log2 (Qnum q) - Z.log2 (Zpos (Qden q)) - 52)%Z in
  if Qle_bool (2 ^ 52) (q / 2 ^ e0) then e0 else (e0 - 1)%Z.

(** The binary64 value nearest to a rational, ties to the even
    significand: 53 significant bits; the exponent range is not
    modelled. *)
Definition to_double (q : Q) : Q :=
  match Qnum q with
  | Z0 => 0
  | Zpos _ =>
      let e := binade q in
      Qred (inject_Z (round_half_even (q / 2 ^ e)) * 2 ^ e)
  | Zneg _ =>
      let e := binade (- q) in
      Qred (- (inject_Z (round_half_even (- q / 2 ^ e)) * 2 ^ e))
  end.

(** [Series.round(2)], as numpy computes it on a double:
    [rint(x * 100) / 100].  The product is a double again, so a decimal
    tie such as 0.575 is decided by the binary value ([rint] sees
    57.49999999999999); the final quotient is kept as the exact
    hundredth. *)
Definition round2 (x : pyfloat) : pyfloat :=
  match x with
  | Fin q =>
      Fin (Qred (inject_Z (round_half_even (to_double (to_double q * 100))) / 100))
  | _ => x
  end.

(** [Series.mean()]: NaN cells are skipped; no cell left gives NaN. *)
Definition fmean (xs : list pyfloat) : pyfloat :=
  let ys := filter (fun x => negb (isnull x)) xs in
  fdiv (fold_left fadd ys (Fin 0)) (Fin (inject_Z (Z.of_nat (List.length ys)))).

End Py.

Import Py.

(* ================================================================== *)
(** * census_cleaning.py *)
(* ================================================================== *)

Module Census.

(** One row of cleaned_census_data.csv.  Every count column was produced
    by [pd.to_numeric(..., errors="coerce")], so a cell may be NaN. *)
Record census_raw := {
  ZIP_Code : cell;
  Total_Population : pyfloat;
  Poverty_Count : pyfloat;
  Median_Household_Income : pyfloat;
  SNAP_Households : pyfloat;
  White_Population : pyfloat;
  Black_Population : pyfloat;
  American_Indian_Population : pyfloat;
  Asian_Population : pyfloat;
  Pacific_Islander_Population : pyfloat;
  Other_Race_Population : pyfloat;
  Two_or_More_Races_Population : pyfloat;
  High_School_Graduate : pyfloat;
  Bachelors_Degree : pyfloat;
  Masters_Degree : pyfloat;
  Doctorate_Degree : pyfloat
}.

(** One row of processed_census_data.csv. *)
Record census_pct := {
  pct_ZIP_Code : str;
  pct_Total_Population : pyfloat;
  pct_Median_Household_Income : pyfloat;
  Poverty_Rate : pyfloat;
  SNAP_Participation : pyfloat;
  White_Population_pct : pyfloat;
  Black_Population_pct : pyfloat;
  American_Indian_Population_pct : pyfloat;
  Asian_Population_pct : pyfloat;
  Other_Race_Population_pct : pyfloat;
  Two_or_More_Races_pct : pyfloat;
  High_School_Graduate_pct : pyfloat;
  Bachelors_Degree_pct : pyfloat;
  Masters_Degree_pct : pyfloat;
  Doctorate_Degree_pct : pyfloat
}.

(** The column assignments, the [drop], [fillna(0)] and the string cast of
    the ZIP code, on one row.  [fillna(0)] also reaches a missing ZIP
    code, which the cast then prints as "0". *)
Definition process_census_row (r : census_raw) : census_pct :=
  let total := Total_Population r in
  {| pct_ZIP_Code := match ZIP_Code r with Str s => s | Missing => txt "0" end;
     pct_Total_Population := fillna0 total;
     pct_Median_Household_Income := fillna0 (Median_Household_Income r);
     Poverty_Rate := fillna0 (fdiv (Poverty_Count r) total);
     SNAP_Participation := fillna0 (fdiv (SNAP_Households r) total);
     White_Population_pct := fillna0 (fdiv (White_Population r) total);
     Black_Population_pct := fillna0 (fdiv (Black_Population r) total);
     American_Indian_Population_pct :=
       fillna0 (fdiv (American_Indian_Population r) total);
     Asian_Population_pct := fillna0 (fdiv (Asian_Population r) total);
     Other_Race_Population_pct :=
       fillna0 (fdiv (fadd (Other_Race_Population r)
                           (Pacific_Islander_Population r)) total);
     Two_or_More_Races_pct :=
       fillna0 (fdiv (Two_or_More_Races_Population r) total);
     High_School_Graduate_pct := fillna0 (fdiv (High_School_Graduate r) total);
     Bachelors_Degree_pct := fillna0 (fdiv (Bachelors_Degree r) total);
     Masters_Degree_pct := fillna0 (fdiv (Masters_Degree r) total);
     Doctorate_Degree_pct := fillna0 (fdiv (Doctorate_Degree r) total) |}.

(** [None] as argument: the input file does not exist; the function then
    returns [None]. *)
Definition process_census_data (file : option (list census_raw))
  : option (list census_pct) :=
  match file with
  | None => None
  | Some census_df => Some (map process_census_row census_df)
  end.

(** Each percentage column of the output with the numerator it is computed
    from. *)
Definition percentage_columns
  : list ((census_raw -> pyfloat) * (census_pct -> pyfloat)) :=
  [ (Poverty_Count, Poverty_Rate);
    (SNAP_Households, SNAP_Participation);
    (White_Population, White_Population_pct);
    (Black_Population, Black_Population_pct);
    (American_Indian_Population, American_Indian_Population_pct);
    (Asian_Population, Asian_Population_pct);
    ((fun r => fadd (Other_Race_Population r) (Pacific_Islander_Population r)),
     Other_Race_Population_pct);
    (Two_or_More_Races_Population, Two_or_More_Races_pct);
    (High_School_Graduate, High_School_Graduate_pct);
    (Bachelors_Degree, Bachelors_Degree_pct);
    (Masters_Degree, Masters_Degree_pct);
    (Doctorate_Degree, Doctorate_Degree_pct) ].

(** A count [c] of people inside a population [t]: both finite and
    [0 <= c <= t]. *)
Definition count_within (c t : pyfloat) : Prop :=
  match c, t with
  | Fin a, Fin b => 0 <= a /\ a <= b
  | _, _ => False
  end.

(** [x] is the quotient of [c] by [t]. *)
Definition quotient_of (x c t : pyfloat) : Prop :=
  match x, c, t with
  | Fin q, Fin a, Fin b => q * b == a
  | _, _, _ => False
  end.

(** ** A sample row *)

Definition sample_row (total poverty : Q) : census_raw :=
  {| ZIP_Code := Str (txt "00601");
     Total_Population := Fin total;
     Poverty_Count := Fin poverty;
     Median_Household_Income := Fin 17526;
     SNAP_Households := Fin 0;
     White_Population := Fin 0;
     Black_Population := Fin 0;
     American_Indian_Population := Fin 0;
     Asian_Population := Fin 0;
     Pacific_Islander_Population := Fin 0;
     Other_Race_Population := Fin 0;
     Two_or_More_Races_Population := Fin 0;
     High_School_Graduate := Fin 0;
     Bachelors_Degree := Fin 0;
     Masters_Degree := Fin 0;
     Doctorate_Degree := Fin 0 |}.

End Census.

(* ================================================================== *)
(** * product_cleaning.py *)
(* ================================================================== *)

Module ProductCleaner.

Inductive category := Egg | Bread | Other.

(** A price cell of the raw file: already numeric (NaN when empty), or
    text when the column holds something that is not a number. *)
Inductive price_cell :=
| PNum (v : pyfloat)
| PText (s : str).

Record raw_product := {
  raw_Product_ID : cell;
  raw_Location_ID : cell;
  raw_Description : cell;
  raw_Brand : cell;
  raw_Size : cell;
  raw_Regular_Price : price_cell;
  raw_Promo_Price : price_cell;
  raw_Stock_Level : cell;
  raw_Date_Retrieved : cell
}.

Record product := {
  Product_ID : cell;
  Location_ID : str;
  Description : cell;
  Brand : cell;
  Size : cell;
  Stock_Level : cell;
  Date_Retrieved : cell;
  Product_Category : category;
  Quantity : pyfloat;
  UOM : str;
  Regular_Price : pyfloat;
  Promo_Price : pyfloat;
  Price_per_Unit : pyfloat;
  Promo_Price_per_Unit : pyfloat
}.

(** [location_id.zfill(8)]; NaN has no [zfill]. *)
Definition pad_location_id (location_id : cell) : result str :=
  match location_id with
  | Str s => Ok (zfill 8 s)
  | Missing => Raise AttributeError
  end.

(** [description.lower()] then the two substring tests; NaN has no
    [lower]. *)
Definition classify_product (description : cell) : result category :=
  match description with
  | Missing => Raise AttributeError
  | Str d =>
      let desc := lower d in
      if contains (txt "egg") desc then Ok Egg
      else if contains (txt "bread") desc then Ok Bread
      else Ok Other
  end.

(** [str(size)] *)
Definition str_of_cell (c : cell) : str :=
  match c with
  | Str s => s
  | Missing => txt "nan"
  end.

(** [re.search(r'([\d\.]+)', s)]: the first maximal run of digits and
    dots. *)
Definition numeric_char (c : ascii) : bool := is_digit c || is_dot c.

Fixpoint search_numeric (s : str) : option str :=
  match s with
  | [] => None
  | c :: t =>
      if numeric_char c then Some (c :: take_while numeric_char t)
      else search_numeric t
  end.

Definition digit_value (c : ascii) : Z := (Z.of_nat (code c) - 48)%Z.

Definition digits_value (ds : str) : Z :=
  fold_left (fun acc c => (10 * acc + digit_value c)%Z) ds 0%Z.

(** [float(tok)] for a token over digits and dots: digits with at most
    one dot and at least one digit; anything else is a ValueError.  The
    value is kept exact: its rounding to a double, and the overflow to inf
    of a number beyond the range of the doubles, are not modelled. *)
Definition float_of_token (tok : str) : result pyfloat :=
  let ip := take_while is_digit tok in
  match drop_while is_digit tok with
  | [] =>
      match ip with
      | [] => Raise ValueError
      | _ => Ok (Fin (inject_Z (digits_value ip)))
      end
  | c :: fp =>
      if is_dot c && forallb is_digit fp
         && negb (Nat.eqb (List.length ip + List.length fp) 0)
      then Ok (Fin (Qred (inject_Z (digits_value ip)
                          + inject_Z (digits_value fp)
                            / inject_Z (10 ^ Z.of_nat (List.length fp)))))
      else Raise ValueError
  end.

Definition extract_quantity (size : cell) : result pyfloat :=
  match search_numeric (str_of_cell size) with
  | Some tok => float_of_token tok
  | None => Ok (Fin (-1))
  end.

(** [$] without MULTILINE: the end of the string, or just before a
    newline that ends it. *)
Definition at_end (rest : str) : bool :=
  match rest with
  | [] => true
  | [c] => is_newline c
  | _ => false
  end.

Definition not_newline (c : ascii) : bool := negb (is_newline c).

(** [re.search(r'[a-zA-Z]+.*$', s)]: from the first letter after which the
    line runs to the end of the string. *)
Fixpoint search_uom (s : str) : option str :=
  match s with
  | [] => None
  | c :: t =>
      if is_alpha c && at_end (drop_while not_newline s)
      then Some (take_while not_newline s)
      else search_uom t
  end.

Definition extract_uom (size : cell) : str :=
  match search_uom (str_of_cell size) with
  | Some m => strip m
  | None => txt "unit"
  end.

Section Cleaning.

(** pandas' parser of a numeric text cell, as [pd.to_numeric] uses it;
    [None] when the text is not a number. *)
Variable parse_number : str -> option pyfloat.

(** [pd.to_numeric(col, errors="coerce").fillna(0)] on one cell *)
Definition normalize_price (p : price_cell) : pyfloat :=
  fillna0 match p with
          | PNum v => v
          | PText s => match parse_number s with
                       | Some v => v
                       | None => NaN
                       end
          end.

Fixpoint assemble (df : list raw_product) (ids : list str)
         (cats : list category) (qtys : list pyfloat) : list product :=
  match df, ids, cats, qtys with
  | r :: df', i :: ids', c :: cats', q :: qtys' =>
      let regular := normalize_price (raw_Regular_Price r) in
      let promo := normalize_price (raw_Promo_Price r) in
      {| Product_ID := raw_Product_ID r;
         Location_ID := i;
         Description := raw_Description r;
         Brand := raw_Brand r;
         Size := raw_Size r;
         Stock_Level := raw_Stock_Level r;
         Date_Retrieved := raw_Date_Retrieved r;
         Product_Category := c;
         Quantity := q;
         UOM := extract_uom (raw_Size r);
         Regular_Price := regular;
         Promo_Price := promo;
         Price_per_Unit := fdiv regular q;
         Promo_Price_per_Unit := fdiv promo q |}
      :: assemble df' ids' cats' qtys'
  | _, _, _, _ => []
  end.

(** [df["Stock Level"].str.lower() == "unknown"]; a missing stock level
    compares unequal. *)
Definition stock_unknown (c : cell) : bool :=
  match c with
  | Str s => str_eqb (lower s) (txt "unknown")
  | Missing => false
  end.

Definition inactive_items_mask (r : product) : bool :=
  stock_unknown (Stock_Level r) && eq0 (Regular_Price r) && eq0 (Promo_Price r).

Definition cell_eqb (a b : cell) : bool :=
  match a, b with
  | Str x, Str y => str_eqb x y
  | Missing, Missing => true
  | _, _ => false
  end.

Definition same_observation (a b : product) : bool :=
  cell_eqb (Product_ID a) (Product_ID b)
  && str_eqb (Location_ID a) (Location_ID b)
  && cell_eqb (Date_Retrieved a) (Date_Retrieved b).

(** [drop_duplicates(subset=[...])], keeping the first row of each key *)
Fixpoint drop_duplicates_from (seen : list product) (rows : list product)
  : list product :=
  match rows with
  | [] => []
  | r :: t =>
      if existsb (same_observation r) seen
      then drop_duplicates_from seen t
      else r :: drop_duplicates_from (r :: seen) t
  end.

Definition drop_duplicates := drop_duplicates_from [].

(** The columns computed for every row, in the order of the script: all
    location IDs, then all categories, then all quantities. *)
Definition computed_rows (df : list raw_product) : result (list product) :=
  bind (mapM pad_location_id (map raw_Location_ID df)) (fun ids =>
  bind (mapM classify_product (map raw_Description df)) (fun cats =>
  bind (mapM extract_quantity (map raw_Size df)) (fun qtys =>
  Ok (assemble df ids cats qtys)))).

(** [None] as argument: the product file does not exist.  The function
    returns [None] for a missing or empty file. *)
Definition clean_product_data (file : option (list raw_product))
  : result (option (list product)) :=
  match file with
  | None => Ok None
  | Some [] => Ok None
  | Some df =>
      bind (computed_rows df) (fun rows =>
      Ok (Some (drop_duplicates
                  (filter (fun r => negb (inactive_items_mask r)) rows))))
  end.

End Cleaning.

(** The unit of measure as the specification words it: the trailing
    alphabetic run of the size string, "unit" when there is none. *)
Definition trailing_alphabetic_run (s : str) : str :=
  rev (take_while is_alpha (rev s)).

Definition uom_trailing_run (size : str) : str :=
  match trailing_alphabetic_run size with
  | [] => txt "unit"
  | u => u
  end.

(** ** Predicates of the statements, and sample rows *)

Definition unsigned (s : str) : Prop :=
  match s with
  | c :: _ => is_sign c = false
  | [] => True
  end.

Definition no_char (p : ascii -> bool) (s : str) : Prop :=
  forallb (fun c => negb (p c)) s = true.

Definition all_chars (p : ascii -> bool) (s : str) : Prop :=
  forallb p s = true.

(** the next character, if any, is outside the class *)
Definition stops (p : ascii -> bool) (rest : str) : Prop :=
  match rest with
  | [] => True
  | c :: _ => p c = false
  end.

Definition is_zero (x : pyfloat) : Prop := exists q, x = Fin q /\ q == 0.

Definition equals_ignoring_case (c : cell) (word : str) : Prop :=
  exists s, c = Str s /\ lower s = lower word.

(** the rule of the specification *)
Definition inactive (r : product) : Prop :=
  equals_ignoring_case (Stock_Level r) (txt "unknown")
  /\ is_zero (Regular_Price r) /\ is_zero (Promo_Price r).

(** The cleaned row of a raw row: the columns it takes over, the padded
    location ID, and the columns computed from its description, size and
    prices. *)
Definition cleaned_from (parse_number : str -> option pyfloat)
           (raw : raw_product) (r : product) : Prop :=
  Product_ID r = raw_Product_ID raw
  /\ pad_location_id (raw_Location_ID raw) = Ok (Location_ID r)
  /\ Description r = raw_Description raw
  /\ Brand r = raw_Brand raw
  /\ Size r = raw_Size raw
  /\ Stock_Level r = raw_Stock_Level raw
  /\ Date_Retrieved r = raw_Date_Retrieved raw
  /\ classify_product (raw_Description raw) = Ok (Product_Category r)
  /\ extract_quantity (raw_Size raw) = Ok (Quantity r)
  /\ UOM r = extract_uom (raw_Size raw)
  /\ Regular_Price r = normalize_price parse_number (raw_Regular_Price raw)
  /\ Promo_Price r = normalize_price parse_number (raw_Promo_Price raw)
  /\ Price_per_Unit r = fdiv (Regular_Price r) (Quantity r)
  /\ Promo_Price_per_Unit r = fdiv (Promo_Price r) (Quantity r).

Definition sample_raw (description size : cell) : raw_product :=
  {| raw_Product_ID := Str (txt "0001111060903");
     raw_Location_ID := Str (txt "9700336");
     raw_Description := description;
     raw_Brand := Str (txt "Kroger");
     raw_Size := size;
     raw_Regular_Price := PNum (Fin (399 # 100));
     raw_Promo_Price := PText (txt "n/a");
     raw_Stock_Level := Str (txt "HIGH");
     raw_Date_Retrieved := Str (txt "2025-02-01") |}.

Definition sample_observation (stock : str) (regular promo : price_cell)
  : raw_product :=
  {| raw_Product_ID := Str (txt "0001111060903");
     raw_Location_ID := Str (txt "9700336");
     raw_Description := Str (txt "Kroger Grade A Large Eggs");
     raw_Brand := Str (txt "Kroger");
     raw_Size := Str (txt "12 ct");
     raw_Regular_Price := regular;
     raw_Promo_Price := promo;
     raw_Stock_Level := Str stock;
     raw_Date_Retrieved := Str (txt "2025-02-01") |}.

Definition sample_df : list raw_product :=
  [ sample_observation (txt "UNKNOWN") (PNum (Fin 0)) (PText (txt "n/a"));
    sample_observation (txt "Unknown") (PNum (Fin 5)) (PNum (Fin 0)) ].

(** A shelf reading of the product with the given ID. *)
Definition reading_of (product_id : string) (stock : string) (regular : Q)
  : raw_product :=
  {| raw_Product_ID := Str (txt product_id);
     raw_Location_ID := Str (txt "9700336");
     raw_Description := Str (txt "Kroger Grade A Large Eggs");
     raw_Brand := Str (txt "Kroger");
     raw_Size := Str (txt "12 ct");
     raw_Regular_Price := PNum (Fin regular);
     raw_Promo_Price := PNum (Fin 0);
     raw_Stock_Level := Str (txt stock);
     raw_Date_Retrieved := Str (txt "2025-02-01") |}.

(** Three products read on one day at one store, one of them twice and
    one of them inactive. *)
Definition one_day : list raw_product :=
  [ reading_of "0001" "HIGH" 3; reading_of "0002" "unknown" 0;
    reading_of "0003" "Unknown" 5; reading_of "0001" "LOW" 4;
    reading_of "0004" "LOW" 2 ].

End ProductCleaner.

(* ================================================================== *)
(** * pandas operations used by zip_merge.py *)
(* ================================================================== *)

Module Frame.

(** Lexicographic order of strings by code point. *)
Fixpoint str_leb (a b : str) : bool :=
  match a, b with
  | [], _ => true
  | _ :: _, [] => false
  | x :: a', y :: b' =>
      if (code x <? code y)%nat then true
      else if (code y <? code x)%nat then false
      else str_leb a' b'
  end.

Definition float_eqb (x y : pyfloat) : bool :=
  match x, y with
  | Fin a, Fin b => Qeq_bool a b
  | PInf, PInf | NInf, NInf => true
  | _, _ => false
  end.

Definition float_leb (x y : pyfloat) : bool :=
  match x, y with
  | NInf, _ | _, PInf => true
  | Fin a, Fin b => Qle_bool a b
  | _, _ => false
  end.

Section GroupBy.
Variables A K : Type.
(** the key of a row; [None] when a key column is null *)
Variable key : A -> option K.
Variable eqb leb : K -> K -> bool.

Definition dedup (ks : list K) : list K :=
  fold_right (fun k acc => if existsb (eqb k) acc then acc else k :: acc) [] ks.

Fixpoint insert_sorted (k : K) (ks : list K) : list K :=
  match ks with
  | [] => [k]
  | k' :: t => if leb k k' then k :: ks else k' :: insert_sorted k t
  end.

Definition sort_keys (ks : list K) : list K :=
  fold_right insert_sorted [] ks.

Definition has_key (k : K) (r : A) : bool :=
  match key r with
  | Some k' => eqb k' k
  | None => false
  end.

Definition keys_of (rows : list A) : list K :=
  flat_map (fun r => match key r with Some k => [k] | None => [] end) rows.

(** [df.groupby(keys)]: one group per distinct key, groups in key order
    ([sort=True]), rows with a null key left out ([dropna=True]), the rows
    of a group in the order of the frame. *)
Definition groupby (rows : list A) : list (K * list A) :=
  map (fun k => (k, filter (has_key k) rows))
      (sort_keys (dedup (keys_of rows))).
End GroupBy.

Section Merge.
Variables L R : Type.
Variable left_on : L -> str.
Variable right_on : R -> str.

(** [left.merge(right, on=..., how="left")]: every left row, in order,
    once per matching right row, or once with the right columns null. *)
Definition merge_left (left : list L) (right : list R) : list (L * option R) :=
  flat_map
    (fun l =>
       match filter (fun r => str_eqb (right_on r) (left_on l)) right with
       | [] => [(l, None)]
       | ms => map (fun r => (l, Some r)) ms
       end)
    left.
End Merge.

(** [dict(Counter(words))], entries in order of first occurrence *)
Fixpoint counter_add (w : str) (d : list (str * nat)) : list (str * nat) :=
  match d with
  | [] => [(w, 1%nat)]
  | (k, n) :: t =>
      if str_eqb k w then (k, S n) :: t else (k, n) :: counter_add w t
  end.

Definition Counter (words : list str) : list (str * nat) :=
  fold_left (fun d w => counter_add w d) words [].

(** [d.get(w, 0)] *)
Fixpoint get (w : str) (d : list (str * nat)) : nat :=
  match d with
  | [] => 0%nat
  | (k, n) :: t => if str_eqb k w then n else get w t
  end.

End Frame.

(* ================================================================== *)
(** * zip_merge.py *)
(* ================================================================== *)

Module ZipMerge.
Import Frame.

(** ** Temporal aggregation *)

(** A row of cleaned_product_data.csv as the merge script reads it.  A
    text column holds a string or the NaN of an empty cell; the quantity
    and the prices are floats and may be NaN; the date has been through
    [pd.to_datetime] and is a point on the time line, or NaT ([None]) for
    an empty cell. *)
Record observation := {
  Product_ID : cell;
  Location_ID : cell;
  Quantity : pyfloat;
  UOM : cell;
  Brand : cell;
  Product_Category : cell;
  Description : cell;
  Date_Retrieved : option Z;
  Price_per_Unit : pyfloat;
  Promo_Price_per_Unit : pyfloat;
  Promo_Price : pyfloat
}.

Definition product_key : Type := str * str * pyfloat * str * str * str * str.

(** The seven key columns of a row; no key when one of them is null. *)
Definition product_key_of (r : observation) : option product_key :=
  match Product_ID r, Location_ID r, UOM r, Brand r, Product_Category r,
        Description r with
  | Str p, Str l, Str u, Str b, Str c, Str d =>
      if isnull (Quantity r) then None
      else Some (p, l, Quantity r, u, b, c, d)
  | _, _, _, _, _, _ => None
  end.

Definition product_key_eqb (a b : product_key) : bool :=
  let '(p, l, q, u, b', c, d) := a in
  let '(p2, l2, q2, u2, b2, c2, d2) := b in
  str_eqb p p2 && str_eqb l l2 && float_eqb q q2 && str_eqb u u2
  && str_eqb b' b2 && str_eqb c c2 && str_eqb d d2.

Definition lex (A : Type) (eqb leb : A -> A -> bool) (x y : A) (rest : bool) : bool :=
  if eqb x y then rest else leb x y.

Definition product_key_leb (a b : product_key) : bool :=
  let '(p, l, q, u, b', c, d) := a in
  let '(p2, l2, q2, u2, b2, c2, d2) := b in
  lex str_eqb str_leb p p2
    (lex str_eqb str_leb l l2
      (lex float_eqb float_leb q q2
        (lex str_eqb str_leb u u2
          (lex str_eqb str_leb b' b2
            (lex str_eqb str_leb c c2 (str_leb d d2)))))).

(** A row of [product_grouped_df].  [Price_Volatility] (a standard
    deviation) is left out. *)
Record product_aggregate := {
  agg_key : product_key;
  Most_Recent_Date : option Z;
  Most_Recent_Price : pyfloat;
  Avg_Price : pyfloat;
  Promo_Price_Avg : pyfloat;
  Promo_Observations : nat;
  Total_Observations : nat;
  Promo_Frequency : pyfloat;
  Description_List : list str
}.

(** The cells of the date column of a group that are not NaT. *)
Definition dates (g : list observation) : list Z :=
  flat_map (fun r => match Date_Retrieved r with
                     | Some d => [d]
                     | None => []
                     end) g.

(** ["max"] over the dates of a group: NaT is skipped, and a group
    without a date has NaT. *)
Definition max_date (g : list observation) : option Z :=
  match dates g with
  | [] => None
  | d :: ds => Some (fold_left Z.max ds d)
  end.

(** [lambda x: x.iloc[-1] if not x.empty else None]: the last cell of the
    group in frame order. *)
Definition last_price (g : list observation) : pyfloat :=
  last (map Price_per_Unit g) NaN.

(** [(Promo_Observations / Total_Observations).fillna(0).round(2)], the
    two columns being integer counts *)
Definition promo_frequency (promo_obs total_obs : nat) : pyfloat :=
  round2 (fillna0 (fdiv (Fin (inject_Z (Z.of_nat promo_obs)))
                        (Fin (inject_Z (Z.of_nat total_obs))))).

(** The named aggregations on one group.  ["count"] counts the cells of
    the date column that are not NaT. *)
Definition aggregate (kg : product_key * list observation) : product_aggregate :=
  let '(k, g) := kg in
  let promo_obs := List.length (filter (fun r => gt0 (Promo_Price r)) g) in
  let total_obs := List.length (dates g) in
  {| agg_key := k;
     Most_Recent_Date := max_date g;
     Most_Recent_Price := fillna0 (last_price g);
     Avg_Price := fmean (map Price_per_Unit g);
     Promo_Price_Avg :=
       fillna0 (fmean (filter gt0 (map Promo_Price_per_Unit g)));
     Promo_Observations := promo_obs;
     Total_Observations := total_obs;
     Promo_Frequency := promo_frequency promo_obs total_obs;
     Description_List :=
       let '(_, _, _, _, _, _, d) := k in split (lower d) |}.

Definition product_grouped_df (product_df : list observation)
  : list product_aggregate :=
  map aggregate
      (groupby product_key_of product_key_eqb product_key_leb product_df).

(** The price the specification asks for: that of an observation of the
    group whose date is the latest one. *)
Definition price_at_latest_date (g : list observation) (p : pyfloat) : Prop :=
  exists r, In r g /\ Date_Retrieved r = max_date g /\ Price_per_Unit r = p.

(** ** Keywords *)

(** [re.sub(r"[^a-zA-Z]", "", word).lower()], [None] for the three
    excluded words. *)
Definition excluded : list str := [txt "egg"; txt "eggs"; txt "bread"].

Definition clean_keyword (word : str) : option str :=
  let word' := lower (filter is_alpha word) in
  if existsb (str_eqb word') excluded then None else Some word'.

(** truth value of [clean_keyword(word)]: neither [None] nor empty *)
Definition truthy (w : option str) : bool :=
  match w with
  | Some (_ :: _) => true
  | _ => false
  end.

Definition cleaned_words (word_list : list str) : list str :=
  flat_map (fun word =>
              if truthy (clean_keyword word)
              then match clean_keyword word with
                   | Some w => [w]
                   | None => []
                   end
              else [])
           word_list.

Definition keyword_list (description_lists : list (list str)) : list str :=
  match fold_left (fun category_list word_list =>
                     category_list ++ cleaned_words word_list)
                  description_lists [] with
  | [] => [txt "other"]
  | category_list => category_list
  end.

Definition agg_description (a : product_aggregate) : str :=
  let '(_, _, _, _, _, _, d) := agg_key a in d.

Definition location_category_key (a : product_aggregate) : option (str * str) :=
  let '(_, l, _, _, _, c, _) := agg_key a in Some (l, c).

Definition pair_eqb (a b : str * str) : bool :=
  str_eqb (fst a) (fst b) && str_eqb (snd a) (snd b).

Definition pair_leb (a b : str * str) : bool :=
  lex str_eqb str_leb (fst a) (fst b) (str_leb (snd a) (snd b)).

(** [keyword_summary]: per (Location ID, Product Category), the column
    ["Keyword_Lists"]. *)
Definition keyword_summary (grouped : list product_aggregate)
  : list ((str * str) * list str) :=
  map (fun kg => (fst kg, keyword_list (map Description_List (snd kg))))
      (groupby location_category_key pair_eqb pair_leb grouped).

(** The loop body that builds ["ZIP_Keyword_Frequency"] from the keyword
    lists of the matching rows. *)
Definition keyword_frequency (matching_keyword_lists : list (list str))
  : list (str * nat) :=
  Counter (fold_left (fun all_keywords l => all_keywords ++ l)
                     matching_keyword_lists []).

(** What one (location, category) group emits, as a Python value. *)
Inductive keywords_value :=
| PyList (l : list str)
| PyDict (d : list (str * nat)).

Definition emitted_keywords (descriptions : list str) : keywords_value :=
  PyList (keyword_list (map (fun d => split (lower d)) descriptions)).

Definition lowercase (s : str) : Prop := forall c, In c s -> is_upper c = false.

(** neither empty nor one of the three words *)
Definition informative (w : str) : bool :=
  negb (existsb (str_eqb w) ([] :: excluded)).

(** The tokens of a group as the specification words them: lowercase,
    split on whitespace, strip what is not a letter, discard the empty
    token and the three words. *)
Definition surviving_tokens (descriptions : list str) : list str :=
  filter informative
         (map (fun tok => filter is_alpha tok)
              (flat_map (fun d => split (lower d)) descriptions)).

(** The value the specification describes: the frequency mapping over the
    surviving tokens, the sentinel list when there is none. *)
Definition keywords_as_specified (descriptions : list str) : keywords_value :=
  match surviving_tokens descriptions with
  | [] => PyList [txt "other"]
  | toks => PyDict (Counter toks)
  end.

(** ** Sample observations *)

Definition observed_on (date : option Z) (price promo : Q) : observation :=
  {| Product_ID := Str (txt "0001111060903");
     Location_ID := Str (txt "09700336");
     Quantity := Fin 12;
     UOM := Str (txt "ct");
     Brand := Str (txt "Kroger");
     Product_Category := Str (txt "Egg");
     Description := Str (txt "Kroger Grade A Large Eggs");
     Date_Retrieved := date;
     Price_per_Unit := Fin price;
     Promo_Price_per_Unit := Fin promo;
     Promo_Price := Fin promo |}.

Definition observed (date : Z) (price promo : Q) : observation :=
  observed_on (Some date) price promo.

(** The same product and store, read from a row whose date cell is
    empty. *)
Definition undated (price promo : Q) : observation :=
  observed_on None price promo.

(** An observation of a product with the given description. *)
Definition described (id description : string) : observation :=
  {| Product_ID := Str (txt id);
     Location_ID := Str (txt "09700336");
     Quantity := Fin 1;
     UOM := Str (txt "ct");
     Brand := Str (txt "Kroger");
     Product_Category := Str (txt "Bakery");
     Description := Str (txt description);
     Date_Retrieved := Some 20250301%Z;
     Price_per_Unit := Fin 3;
     Promo_Price_per_Unit := Fin 0;
     Promo_Price := Fin 0 |}.

(** One product at one store, the later observation first in the file. *)
Definition out_of_order : list observation :=
  [ observed 20250302 (499 # 100) 0; observed 20250301 (399 # 100) 0 ].

(** One product at one store on promotion on two runs; the second row has
    no date. *)
Definition undated_promo : list observation :=
  [ observed 20250301 (499 # 100) (399 # 100); undated (499 # 100) (399 # 100) ].

End ZipMerge.

Module ZipJoin.
Import Frame.

(** A row of cleaned_location_data.csv.  The ZIP code is the geocoded one
    and is null when geocoding failed. *)
Record location := {
  Location_ID : str;
  Chain_Name : str;
  ZIP_Code : cell;
  Latitude : pyfloat;
  Longitude : pyfloat
}.

(** A row of the ZCTA shapefile: the ZIP code and its boundary. *)
Record boundary := {
  ZCTA5CE20 : str;
  geometry : option str
}.

(** [census_df] after the optional merge with the shapefile: without a
    shapefile there are no boundary columns at all. *)
Inductive boundary_columns :=
| NoShapefile
| Joined (b : option boundary).

Record census_row := {
  census : Census.census_pct;
  zip_boundary : boundary_columns
}.

Definition census_zip (c : census_row) : str := Census.pct_ZIP_Code (census c).

(** Step (a): [census_df.merge(zip_boundaries, on="ZIP Code", how="left")]
    when the shapefile exists. *)
Definition census_with_boundaries (census_df : list Census.census_pct)
           (shapefile : option (list boundary)) : list census_row :=
  match shapefile with
  | None => map (fun c => {| census := c; zip_boundary := NoShapefile |}) census_df
  | Some zip_boundaries =>
      map (fun cb => {| census := fst cb; zip_boundary := Joined (snd cb) |})
          (merge_left Census.pct_ZIP_Code ZCTA5CE20 census_df zip_boundaries)
  end.

Record zip_location := {
  zl_ZIP_Code : str;
  Store_Count : nat;
  Store_Chain_Distribution : list (str * nat);
  Avg_Latitude : pyfloat;
  Avg_Longitude : pyfloat
}.

Definition location_zip (l : location) : option str :=
  match ZIP_Code l with
  | Str z => Some z
  | Missing => None
  end.

Definition count_store_chains (chain_list : list str) : list (str * nat) :=
  Counter chain_list.

Definition summarize_zip (kg : str * list location) : zip_location :=
  {| zl_ZIP_Code := fst kg;
     Store_Count := List.length (snd kg);
     Store_Chain_Distribution := count_store_chains (map Chain_Name (snd kg));
     Avg_Latitude := fmean (map Latitude (snd kg));
     Avg_Longitude := fmean (map Longitude (snd kg)) |}.

(** [location_df.groupby("ZIP Code").agg(...)] *)
Definition location_groups (location_df : list location) : list zip_location :=
  map summarize_zip (groupby location_zip str_eqb str_leb location_df).

(** Step (b): [zip_location_summary.merge(census_df, on="ZIP Code",
    how="left")], the location summary on the left. *)
Definition zip_location_summary (location_df : list location)
           (census_df : list census_row)
  : list (zip_location * option census_row) :=
  merge_left zl_ZIP_Code census_zip (location_groups location_df) census_df.

(** A row of [zip_product_complete]. *)
Record zip_product := {
  zp_ZIP_Code : str;
  zp_Product_Category : str;
  zp_Avg_Price : pyfloat;
  zp_Min_Price : pyfloat;
  zp_Max_Price : pyfloat;
  zp_Median_Price : pyfloat;
  zp_Price_Volatility : pyfloat;
  zp_Promo_Frequency : pyfloat;
  zp_Avg_Product_Count : pyfloat;
  ZIP_Keyword_Frequency : list (str * nat)
}.

Definition final_row : Type := (zip_location * option census_row) * option zip_product.

(** Step (d): [zip_location_summary.merge(zip_product_complete,
    on="ZIP Code", how="left")] *)
Definition zip_product_location_complete
           (summary : list (zip_location * option census_row))
           (zip_product_complete : list zip_product) : list final_row :=
  merge_left (fun s => zl_ZIP_Code (fst s)) zp_ZIP_Code summary zip_product_complete.

(** ** The cells of a final row, column by column *)

Definition census_width : nat := 15.
Definition product_width : nat := 9.

Definition zip_location_nulls (z : zip_location) : list bool :=
  [false; false; false; isnull (Avg_Latitude z); isnull (Avg_Longitude z)].

Definition census_pct_nulls (c : Census.census_pct) : list bool :=
  false ::
  map isnull
      [ Census.pct_Total_Population c; Census.pct_Median_Household_Income c;
        Census.Poverty_Rate c; Census.SNAP_Participation c;
        Census.White_Population_pct c; Census.Black_Population_pct c;
        Census.American_Indian_Population_pct c; Census.Asian_Population_pct c;
        Census.Other_Race_Population_pct c; Census.Two_or_More_Races_pct c;
        Census.High_School_Graduate_pct c; Census.Bachelors_Degree_pct c;
        Census.Masters_Degree_pct c; Census.Doctorate_Degree_pct c ].

Definition is_none (A : Type) (o : option A) : bool :=
  match o with None => true | Some _ => false end.

Definition boundary_nulls (b : boundary_columns) : list bool :=
  match b with
  | NoShapefile => []
  | Joined None => [true; true]
  | Joined (Some b) => [false; is_none (geometry b)]
  end.

(** The census columns of a row of the location summary; the merge key is
    the ZIP column of the left side and is not repeated. *)
Definition census_nulls (shapefile : bool) (c : option census_row) : list bool :=
  match c with
  | None => repeat true (census_width - 1 + if shapefile then 2 else 0)
  | Some c => tl (census_pct_nulls (census c)) ++ boundary_nulls (zip_boundary c)
  end.

Definition product_nulls (p : option zip_product) : list bool :=
  match p with
  | None => repeat true product_width
  | Some p =>
      false ::
      map isnull
          [ zp_Avg_Price p; zp_Min_Price p; zp_Max_Price p; zp_Median_Price p;
            zp_Price_Volatility p; zp_Promo_Frequency p; zp_Avg_Product_Count p ]
      ++ [false]
  end.

Definition row_nulls (shapefile : bool) (r : final_row) : list bool :=
  zip_location_nulls (fst (fst r))
  ++ census_nulls shapefile (snd (fst r))
  ++ product_nulls (snd r).

(** [DataFrame.dropna()]: keep the rows without a null cell. *)
Definition dropna (shapefile : bool) (rows : list final_row) : list final_row :=
  filter (fun r => negb (existsb (fun b => b) (row_nulls shapefile r))) rows.

(** The script from the loaded frames to [zip_product_location_filtered]. *)
Definition zip_product_location_filtered
           (census_df : list Census.census_pct)
           (shapefile : option (list boundary))
           (location_df : list location)
           (zip_product_complete : list zip_product) : list final_row :=
  dropna (negb (is_none shapefile))
         (zip_product_location_complete
            (zip_location_summary location_df
               (census_with_boundaries census_df shapefile))
            zip_product_complete).

(** ** Sample frames *)

Definition summary_zip (s : zip_location * option census_row) : str :=
  zl_ZIP_Code (fst s).

Definition census_of (zip : string) (poverty : Q) : Census.census_pct :=
  {| Census.pct_ZIP_Code := txt zip;
     Census.pct_Total_Population := Fin 16721;
     Census.pct_Median_Household_Income := Fin 17526;
     Census.Poverty_Rate := Fin poverty;
     Census.SNAP_Participation := Fin (1 # 10);
     Census.White_Population_pct := Fin (1 # 2);
     Census.Black_Population_pct := Fin (1 # 4);
     Census.American_Indian_Population_pct := Fin 0;
     Census.Asian_Population_pct := Fin (1 # 8);
     Census.Other_Race_Population_pct := Fin (1 # 16);
     Census.Two_or_More_Races_pct := Fin (1 # 16);
     Census.High_School_Graduate_pct := Fin (1 # 5);
     Census.Bachelors_Degree_pct := Fin (1 # 10);
     Census.Masters_Degree_pct := Fin (1 # 20);
     Census.Doctorate_Degree_pct := Fin (1 # 100) |}.

Definition store (id zip : string) : location :=
  {| Location_ID := txt id;
     Chain_Name := txt "KROGER";
     ZIP_Code := Str (txt zip);
     Latitude := Fin (391 # 10);
     Longitude := Fin (-845 # 10) |}.

Definition eggs_in (zip : string) : zip_product :=
  {| zp_ZIP_Code := txt zip;
     zp_Product_Category := txt "Egg";
     zp_Avg_Price := Fin (1 # 3);
     zp_Min_Price := Fin (1 # 4);
     zp_Max_Price := Fin (1 # 2);
     zp_Median_Price := Fin (1 # 3);
     zp_Price_Volatility := Fin 0;
     zp_Promo_Frequency := Fin (1 # 4);
     zp_Avg_Product_Count := Fin 6;
     ZIP_Keyword_Frequency := [(txt "large", 3%nat)] |}.

Definition sample_census : list Census.census_pct :=
  [census_of "00601" (61 # 100); census_of "45202" (1 # 5)].

Definition sample_locations : list location :=
  [store "01400943" "45203"; store "01400376" "45202"].

End ZipJoin.

(* ================================================================== *)
(** * location_cleaning.py *)
(* ================================================================== *)

Module LocationResolver.

(** One entry of [address_components] of a geocoding result. *)
Record component := {
  long_name : str;
  types : list str
}.

(** One geocoding result: the coordinates of [geometry.location] and the
    address components. *)
Record geocode_result := {
  lat : pyfloat;
  lng : pyfloat;
  address_components : list component
}.

(** A call of [gmaps.geocode] raises or returns a list of results. *)
Inductive response :=
| Raises
| Returns (results : list geocode_result).

(** The geocoding service: its answer to the n-th call of a run, for an
    address. *)
Definition service : Type := nat -> str -> response.

(** What a run has done so far: calls of the service, seconds slept. *)
Record effects := {
  calls : nat;
  slept : nat
}.

(** The loop over the address components: the [long_name] of the first
    component that lists 'postal_code' among its types. *)
Fixpoint postal_code (cs : list component) : option str :=
  match cs with
  | [] => None
  | c :: t =>
      if existsb (str_eqb (txt "postal_code")) (types c)
      then Some (long_name c)
      else postal_code t
  end.

(** The retry loop of [fetch_geocode].  A call that raises is followed by
    a sleep of one second; an empty result is not.  [None] stands for the
    triple [(None, None, None)]. *)
Fixpoint attempt (gmaps : service) (address : str) (attempts : nat) (e : effects)
  : option (pyfloat * pyfloat * option str) * effects :=
  match attempts with
  | O => (None, e)
  | S n =>
      match gmaps (calls e) address with
      | Returns (r :: _) =>
          (Some (lat r, lng r, postal_code (address_components r)),
           {| calls := S (calls e); slept := slept e |})
      | Returns [] =>
          attempt gmaps address n {| calls := S (calls e); slept := slept e |}
      | Raises =>
          attempt gmaps address n {| calls := S (calls e); slept := S (slept e) |}
      end
  end.

Definition fetch_geocode (gmaps : service) (address : str) (e : effects)
  : option (pyfloat * pyfloat * option str) * effects :=
  attempt gmaps address 3 e.

(** A row of kroger_locations.csv. *)
Record raw_store := {
  raw_Location_ID : cell;
  raw_Store_Name : cell;
  raw_Store_Number : cell;
  raw_Chain_Name : cell;
  raw_Division_Number : cell;
  raw_Address : cell;
  raw_City : cell;
  raw_State : cell;
  raw_ZIP_Code : cell
}.

(** A row of cleaned_location_data.csv. *)
Record store := {
  Location_ID : cell;
  Store_Name : cell;
  Store_Number : cell;
  Chain_Name : cell;
  Division_Number : cell;
  Address : cell;
  City : cell;
  State : cell;
  ZIP_Code : cell;
  Full_Address : str;
  Latitude : pyfloat;
  Longitude : pyfloat
}.

(** The column ["Full Address"], an f-string over three cells; the
    coordinates are not columns of the raw file. *)
Definition with_full_address (r : raw_store) : store :=
  {| Location_ID := raw_Location_ID r;
     Store_Name := raw_Store_Name r;
     Store_Number := raw_Store_Number r;
     Chain_Name := raw_Chain_Name r;
     Division_Number := raw_Division_Number r;
     Address := raw_Address r;
     City := raw_City r;
     State := raw_State r;
     ZIP_Code := raw_ZIP_Code r;
     Full_Address :=
       ProductCleaner.str_of_cell (raw_Address r) ++ txt ", "
       ++ ProductCleaner.str_of_cell (raw_City r) ++ txt ", "
       ++ ProductCleaner.str_of_cell (raw_State r) ++ txt ", USA";
     Latitude := NaN;
     Longitude := NaN |}.

(** ["Location ID"].astype(str) *)
Definition id_text (s : store) : str := ProductCleaner.str_of_cell (Location_ID s).

Definition processed (processed_ids : list str) (s : store) : bool :=
  existsb (str_eqb (id_text s)) processed_ids.

(** The three assignments through [.at]: the answer of the geocoder
    replaces the coordinates and the ZIP code, a [None] as a null. *)
Definition located (row : store) (g : option (pyfloat * pyfloat * option str))
  : store :=
  let '(la, lo, zip) :=
    match g with
    | Some (la, lo, Some z) => (la, lo, Str z)
    | Some (la, lo, None) => (la, lo, Missing)
    | None => (NaN, NaN, Missing)
    end in
  {| Location_ID := Location_ID row;
     Store_Name := Store_Name row;
     Store_Number := Store_Number row;
     Chain_Name := Chain_Name row;
     Division_Number := Division_Number row;
     Address := Address row;
     City := City row;
     State := State row;
     ZIP_Code := zip;
     Full_Address := Full_Address row;
     Latitude := la;
     Longitude := lo |}.

(** The loop over [new_locations]: geocode, assign, sleep one second. *)
Fixpoint geocode_rows (gmaps : service) (new_locations : list store) (e : effects)
  : list store * effects :=
  match new_locations with
  | [] => ([], e)
  | row :: t =>
      let '(g, e1) := fetch_geocode gmaps (Full_Address row) e in
      let e2 := {| calls := calls e1; slept := S (slept e1) |} in
      let '(t', e3) := geocode_rows gmaps t e2 in
      (located row g :: t', e3)
  end.

Inductive outcome :=
| Returned (table : option (list store))
| UnboundLocalError.

Record run := {
  result : outcome;
  cleaned_file_after : option (list store);
  done : effects
}.

(** [geocode_store_locations].  The two arguments are the two files, [None]
    for a file that does not exist.  Without a cleaned file the variable
    [new_locations] is never assigned, and its use raises. *)
Definition geocode_store_locations (gmaps : service)
           (locations_file : option (list raw_store))
           (cleaned_file : option (list store)) (e : effects) : run :=
  match locations_file with
  | None => {| result := Returned None; cleaned_file_after := cleaned_file; done := e |}
  | Some rows =>
      let locations_df := map with_full_address rows in
      match cleaned_file with
      | None =>
          {| result := UnboundLocalError; cleaned_file_after := None; done := e |}
      | Some cleaned_df =>
          let processed_ids := map id_text cleaned_df in
          let new_locations :=
            filter (fun s => negb (processed processed_ids s)) locations_df in
          match new_locations with
          | [] =>
              {| result := Returned (Some cleaned_df);
                 cleaned_file_after := cleaned_file;
                 done := e |}
          | _ =>
              let '(geocoded, e') := geocode_rows gmaps new_locations e in
              let updated_df := cleaned_df ++ geocoded in
              {| result := Returned (Some updated_df);
                 cleaned_file_after := Some updated_df;
                 done := e' |}
          end
      end
  end.

(** A call that gives no coordinates: it raised, or returned no result. *)
Definition unanswered (r : response) : bool :=
  match r with
  | Returns (_ :: _) => false
  | _ => true
  end.

Definition raised (r : response) : bool :=
  match r with
  | Raises => true
  | Returns _ => false
  end.

(** A service that is down, then answers from the third call on. *)
Definition flaky (n : nat) (address : str) : response :=
  if (n <? 2)%nat then Raises
  else Returns [ {| lat := Fin (391 # 10); lng := Fin (-845 # 10);
                    address_components :=
                      [ {| long_name := txt "Cincinnati"; types := [txt "locality"] |};
                        {| long_name := txt "45202";
                           types := [txt "postal_code"] |} ] |} ].

Definition kroger (id : string) : raw_store :=
  {| raw_Location_ID := Str (txt id);
     raw_Store_Name := Str (txt "Kroger");
     raw_Store_Number := Str (txt "00376");
     raw_Chain_Name := Str (txt "KROGER");
     raw_Division_Number := Str (txt "014");
     raw_Address := Str (txt "100 E Court St");
     raw_City := Str (txt "Cincinnati");
     raw_State := Str (txt "OH");
     raw_ZIP_Code := Str (txt "45201") |}.

(** The number of calls that raised among the [n] calls from the [start]-th
    on. *)
Definition raised_calls (gmaps : service) (address : str) (start n : nat) : nat :=
  List.length (filter (fun i => raised (gmaps i address)) (seq start n)).

Definition postal (c : component) : Prop := In (txt "postal_code") (types c).

(** The rows of the raw file whose location ID is not in the cleaned
    file. *)
Definition new_rows (rows : list raw_store) (cleaned_df : list store) : list store :=
  filter (fun s => negb (processed (map id_text cleaned_df) s))
         (map with_full_address rows).

(** [o] is [row] with the answer of some geocoding in its coordinates and
    ZIP code. *)
Definition geocoded_from (row o : store) : Prop := exists g, o = located row g.

(** What [fetch_geocode] answers for an address, and the number of calls
    it makes, when the service has been called [start] times before. *)
Definition answer (gmaps : service) (address : str) (start : nat)
  : option (pyfloat * pyfloat * option str) :=
  fst (fetch_geocode gmaps address {| calls := start; slept := 0 |}).

Definition calls_made (gmaps : service) (address : str) (start : nat) : nat :=
  (calls (snd (fetch_geocode gmaps address {| calls := start; slept := 0 |}))
   - start)%nat.

(** Each row of [outs] is the row of [rows] at its place with the answer
    of [fetch_geocode] for its full address in its coordinates and ZIP
    code, the service having been called [start] times before the first
    row, and the calls for a row following those for the row before it. *)
Fixpoint geocoded_at (gmaps : service) (start : nat) (rows outs : list store)
  : Prop :=
  match rows, outs with
  | [], [] => True
  | row :: rows', o :: outs' =>
      o = located row (answer gmaps (Full_Address row) start)
      /\ geocoded_at gmaps
           (start + calls_made gmaps (Full_Address row) start) rows' outs'
  | _, _ => False
  end.

End LocationResolver.

(* ================================================================== *)
(** * The location and census acquisition notebook *)
(* ================================================================== *)

Module Acquisition.

(** ** Census tables *)

(** A match of [\d{5}] at the head of the string. *)
Definition five_digits (s : str) : option str :=
  match s with
  | a :: b :: c :: d :: e :: _ =>
      if forallb is_digit [a; b; c; d; e] then Some [a; b; c; d; e] else None
  | _ => None
  end.

(** [re.search(r'(\d{5})', s)]: the first five digits in a row. *)
Fixpoint search_zip (s : str) : option str :=
  match five_digits s with
  | Some z => Some z
  | None =>
      match s with
      | [] => None
      | _ :: t => search_zip t
      end
  end.

(** [.str.extract(r'(\d{5})')] on one cell; [None] is the NaN of no match. *)
Definition extract_zip (name : cell) : option str :=
  match name with
  | Str s => search_zip s
  | Missing => None
  end.

(** A row of a census export: the NAME column and one value column. *)
Record census_export_row := {
  NAME : cell;
  value : ProductCleaner.price_cell
}.

Section Census.

(** the parser of [pd.to_numeric] *)
Variable parse_number : str -> option pyfloat.

Definition to_numeric (c : ProductCleaner.price_cell) : pyfloat :=
  match c with
  | ProductCleaner.PNum v => v
  | ProductCleaner.PText s =>
      match parse_number s with
      | Some v => v
      | None => NaN
      end
  end.

(** [clean_census_data]: drop the first row (the second header line of the
    export), extract the ZIP code, coerce the value. *)
Definition clean_census_data (df : list census_export_row)
  : list (option str * pyfloat) :=
  map (fun r => (extract_zip (NAME r), to_numeric (value r))) (tl df).

End Census.

(** ** Store search *)

(** [population > c], false on NaN *)
Definition exceeds (population : pyfloat) (c : Q) : bool :=
  match population with
  | Fin q => negb (Qle_bool q c)
  | PInf => true
  | _ => false
  end.

Definition get_dynamic_radius (population : pyfloat) : nat :=
  if exceeds population 100000 then 15
  else if exceeds population 50000 then 25
  else if exceeds population 20000 then 50
  else 100.

(** [l[::3]] *)
Fixpoint every_third (A : Type) (l : list A) : list A :=
  match l with
  | [] => []
  | a :: t =>
      a :: match t with
           | _ :: _ :: t' => every_third t'
           | _ => []
           end
  end.

Definition mem (x : str) (l : list str) : bool := existsb (str_eqb x) l.

(** The ZIP codes searched in one run: every third ZIP code of the census
    table, those already processed left out, the first 2000 of the rest. *)
Definition condensed_zip_list (zip_codes processed_zip_codes : list str) : list str :=
  firstn 2000 (filter (fun z => negb (mem z processed_zip_codes))
                      (every_third zip_codes)).

(** A store of the API answer; [None] is a key that the JSON lacks. *)
Record api_address := {
  addressLine1 : option str;
  city : option str;
  state : option str
}.

Record api_store := {
  locationId : str;
  name : option str;
  storeNumber : option str;
  chain : option str;
  divisionNumber : option str;
  address : option api_address
}.

(** What a search does: [search_kroger_locations] returns [None] after a
    request error, or the JSON body, with or without the key "data"; or
    something else raises inside the [try] of the loop. *)
Inductive api_response :=
| RequestFailed
| Body (data : option (list api_store))
| Crashed.

Definition api : Type := nat -> str -> nat -> api_response.

(** A cell of the column "Location ID": the text that the API gives, or
    the integer that [pd.read_csv] makes of it.  The notebook passes no
    dtype for this column, so a column whose cells are all runs of digits
    comes back as integers, and any other column without an empty cell as
    the texts of the file.  (A numeric column with an empty cell would come
    back as floats; such a file is not modelled.) *)
Inductive location_id :=
| IdText (s : str)
| IdInt (n : Z).

(** [str(n)] *)
Definition str_of_int (n : Z) : str :=
  list_ascii_of_string (DecimalString.NilZero.string_of_int (Z.to_int n)).

(** [astype(str)] on one cell *)
Definition id_text (i : location_id) : str :=
  match i with
  | IdText s => s
  | IdInt n => str_of_int n
  end.

(** A row of kroger_locations.csv, or of the list [stores]. *)
Record store_row := {
  Location_ID : location_id;
  Store_Name : cell;
  Store_Number : cell;
  Chain_Name : cell;
  Division_Number : cell;
  Address : cell;
  City : cell;
  State : cell;
  ZIP_Code : cell
}.

Definition get_or (default : string) (o : option str) : cell :=
  match o with
  | Some s => Str s
  | None => Str (txt default)
  end.

Definition address_field (f : api_address -> option str) (s : api_store) : cell :=
  match address s with
  | Some a => get_or "Unknown" (f a)
  | None => Str (txt "Unknown")
  end.

(** The dictionary appended for a store found by the search of
    [zip_code]; its ZIP code is the one searched for. *)
Definition row_of (zip_code : str) (s : api_store) : store_row :=
  {| Location_ID := IdText (locationId s);
     Store_Name := get_or "unknown" (name s);
     Store_Number := get_or "unknown" (storeNumber s);
     Chain_Name := get_or "unknown" (chain s);
     Division_Number := get_or "unknown" (divisionNumber s);
     Address := address_field addressLine1 s;
     City := address_field city s;
     State := address_field state s;
     ZIP_Code := Str zip_code |}.

(** ["Location ID"].astype(str) of a row *)
Definition loc_id_text (r : store_row) : str := id_text (Location_ID r).

Record progress := {
  stores : list store_row;
  existing_loc_ids : list str;
  processed_zip_codes : list str;
  processed_file_lines : list str;
  request_count : nat;
  searches : nat;
  slept : nat
}.

(** The inner loop over the stores of one answer. *)
Fixpoint add_stores (zip_code : str) (data : list api_store)
         (stores : list store_row) (ids : list str)
  : list store_row * list str :=
  match data with
  | [] => (stores, ids)
  | s :: t =>
      if mem (locationId s) ids
      then add_stores zip_code t stores ids
      else add_stores zip_code t (stores ++ [row_of zip_code s])
                      (locationId s :: ids)
  end.

(** [set.add] on a set kept as a list without repetition *)
Definition set_add (x : str) (l : list str) : list str :=
  if mem x l then l else l ++ [x].

Section Loop.

Variable kroger : api.
(** [zip_pop_map.get(zip_code, 0)] *)
Variable population : str -> pyfloat.
(** [len(zip_codes)] *)
Variable zip_count : nat.

(** The body of the [try] and the [except] of one iteration. *)
Definition search_one (zip_code : str) (s : progress) : progress :=
  let radius := get_dynamic_radius (population zip_code) in
  match kroger (searches s) zip_code radius with
  | Crashed =>
      {| stores := stores s;
         existing_loc_ids := existing_loc_ids s;
         processed_zip_codes := processed_zip_codes s;
         processed_file_lines := processed_file_lines s;
         request_count := request_count s;
         searches := S (searches s);
         slept := slept s |}
  | answer =>
      let data := match answer with Body (Some data) => data | _ => [] end in
      let '(stores', ids') :=
        add_stores zip_code data (stores s) (existing_loc_ids s) in
      {| stores := stores';
         existing_loc_ids := ids';
         processed_zip_codes := set_add zip_code (processed_zip_codes s);
         processed_file_lines := processed_file_lines s ++ [zip_code];
         request_count := S (request_count s);
         searches := S (searches s);
         slept := slept s |}
  end.

Definition sleep (s : progress) : progress :=
  {| stores := stores s;
     existing_loc_ids := existing_loc_ids s;
     processed_zip_codes := processed_zip_codes s;
     processed_file_lines := processed_file_lines s;
     request_count := request_count s;
     searches := searches s;
     slept := S (slept s) |}.

(** The main loop, with its [continue] and its [break]. *)
Fixpoint search_loop (zips : list str) (s : progress) : progress :=
  match zips with
  | [] => s
  | zip_code :: rest =>
      if mem zip_code (processed_zip_codes s) then search_loop rest s
      else if (zip_count <=? List.length (processed_zip_codes s))%nat then s
      else search_loop rest (sleep (search_one zip_code s))
  end.

End Loop.

(** kroger_locations.csv before the run: absent, present with no byte, or
    a table, given by the rows as [pd.read_csv] delivers them. *)
Inductive stores_file :=
| Absent
| Empty
| Table (rows : list store_row).

Definition rows_read (f : stores_file) : list store_row :=
  match f with
  | Table rows => rows
  | _ => []
  end.

Record collected := {
  final : progress;
  (** the rows that [to_csv(mode="a")] appends to the file, if it is called *)
  appended : option (list store_row);
  header_written : bool;
  (** [print(stores_df.head())] with [stores_df] never assigned *)
  raises_NameError : bool
}.

(** The cell from the loading of the files to the last [print]. *)
Definition collect_stores (kroger : api) (zip_pop_map : list (str * pyfloat))
           (processed_file : list str) (file : stores_file) : collected :=
  let zip_codes := map fst zip_pop_map in
  let population z :=
    match find (fun kv => str_eqb (fst kv) z) zip_pop_map with
    | Some kv => snd kv
    | None => Fin 0
    end in
  let processed := Frame.dedup str_eqb processed_file in
  let start :=
    {| stores := rows_read file;
       existing_loc_ids := map loc_id_text (rows_read file);
       processed_zip_codes := processed;
       processed_file_lines := [];
       request_count := 0;
       searches := 0;
       slept := 0 |} in
  let s := search_loop kroger population (List.length zip_codes)
                       (condensed_zip_list zip_codes processed) start in
  match stores s with
  | [] => {| final := s; appended := None; header_written := false;
             raises_NameError := true |}
  | rows => {| final := s; appended := Some rows;
               header_written := match file with Absent => true | _ => false end;
               raises_NameError := false |}
  end.

(** The file after the run, as the rows it holds. *)
Definition rows_after (file : stores_file) (c : collected) : list store_row :=
  rows_read file ++ match appended c with Some rows => rows | None => [] end.

(** A search that finds the same two stores near every ZIP code. *)
Definition two_stores (n : nat) (zip_code : str) (radius : nat) : api_response :=
  Body (Some [ {| locationId := txt "01400376"; name := Some (txt "Kroger");
                  storeNumber := None; chain := Some (txt "KROGER");
                  divisionNumber := None; address := None |};
               {| locationId := txt "01400943"; name := None;
                  storeNumber := None; chain := None;
                  divisionNumber := None; address := None |} ]).

(** A row as [pd.read_csv] delivers it from a file whose location IDs are
    all runs of digits. *)
Definition row_read (id : Z) (zip : string) : store_row :=
  {| Location_ID := IdInt id;
     Store_Name := Str (txt "Kroger");
     Store_Number := Str (txt "376");
     Chain_Name := Str (txt "KROGER");
     Division_Number := Str (txt "14");
     Address := Str (txt "Unknown");
     City := Str (txt "Unknown");
     State := Str (txt "Unknown");
     ZIP_Code := Str (txt zip) |}.

(** A text of two characters or more that begins with the digit 0. *)
Definition leading_zero (s : str) : Prop :=
  exists c rest, s = "0"%char :: c :: rest.

(** Five digits in a row. *)
Definition zip_text (z : str) : Prop :=
  List.length z = 5%nat /\ forallb is_digit z = true.

End Acquisition.

(* ================================================================== *)
(** * Predicates of the further properties *)
(* ================================================================== *)

Module Statements.

(** A word occurs in a description in some casing. *)
Definition mentions (word d : str) : Prop :=
  exists pre w post, d = pre ++ w ++ post /\ lower w = word.

(** No two rows of a table are observations of the same product at the
    same store on the same date. *)
Definition distinct_observations (rows : list ProductCleaner.product) : Prop :=
  ForallOrdPairs (fun a b => ProductCleaner.same_observation a b = false) rows.

(** A parsed quantity: the sentinel -1, or a number that is not negative. *)
Definition quantity_value (v : pyfloat) : Prop :=
  exists q, v = Fin q /\ (q == -1 \/ 0 <= q).

(** A unit of measure: it begins with a letter and does not end with
    whitespace. *)
Definition unit_text (u : str) : Prop :=
  exists c rest,
    u = c :: rest /\ is_alpha c = true /\ is_space (last u c) = false.

(** Two readings of one product at one store on one day. *)
Definition repeated_reading : list ProductCleaner.raw_product :=
  [ ProductCleaner.sample_observation (txt "HIGH")
      (ProductCleaner.PNum (Fin 5)) (ProductCleaner.PNum (Fin 0));
    ProductCleaner.sample_observation (txt "LOW")
      (ProductCleaner.PNum (Fin 6)) (ProductCleaner.PNum (Fin 0)) ].

(** The row belongs to some group: none of its key columns is null. *)
Definition keyed (A K : Type) (key : A -> option K) (r : A) : bool :=
  match key r with Some _ => true | None => false end.

Definition promo_observed (r : ZipMerge.observation) : bool :=
  gt0 (ZipMerge.Promo_Price r).

(** A price above zero, finite or not. *)
Definition positive_price (x : pyfloat) : Prop := gt0 x = true.

Definition group_of (a : ZipMerge.product_aggregate)
           (product_df : list ZipMerge.observation) : list ZipMerge.observation :=
  filter (Frame.has_key ZipMerge.product_key_of ZipMerge.product_key_eqb
                        (ZipMerge.agg_key a))
         product_df.

(** [d] is not later than [latest]; NaT is later than no date, and no
    date is as early as NaT. *)
Definition not_later (d latest : option Z) : Prop :=
  match d, latest with
  | Some x, Some m => (x <= m)%Z
  | Some _, None => False
  | None, _ => True
  end.

(** [m] hundredths are within half a hundredth of [q], up to the rounding
    of the two doubles that [Series.round] goes through. *)
Definition near_hundredths (m : Z) (q : Q) : Prop :=
  inject_Z m - (1 # 2) - (1 # 35184372088832) <= 100 * q
  /\ 100 * q <= inject_Z m + (1 # 2) + (1 # 35184372088832).

(** [notna()] of a text cell *)
Definition notna (c : cell) : bool :=
  match c with Str _ => true | Missing => false end.

(** No key column of the row is null. *)
Definition has_all_keys (r : ZipMerge.observation) : bool :=
  notna (ZipMerge.Product_ID r) && notna (ZipMerge.Location_ID r)
  && negb (isnull (ZipMerge.Quantity r)) && notna (ZipMerge.UOM r)
  && notna (ZipMerge.Brand r) && notna (ZipMerge.Product_Category r)
  && notna (ZipMerge.Description r).

(** The row has a retrieval date. *)
Definition dated (r : ZipMerge.observation) : bool :=
  match ZipMerge.Date_Retrieved r with Some _ => true | None => false end.

Definition not_negative (x : pyfloat) : Prop :=
  match x with
  | Fin a => 0 <= a
  | PInf => True
  | _ => False
  end.

(** A keyword: a word of lower-case letters that is none of the three
    excluded words. *)
Definition keyword (w : str) : Prop :=
  w <> [] /\ forallb is_lower w = true /\ ~ In w ZipMerge.excluded.

Definition zip_present (l : ZipJoin.location) : bool :=
  match ZipJoin.ZIP_Code l with Str _ => true | Missing => false end.

Definition in_zip (zip : str) (l : ZipJoin.location) : bool :=
  match ZipJoin.ZIP_Code l with Str z => str_eqb z zip | Missing => false end.

(** What a run of the search loop over [zips] may change between the
    state [s] it starts in and the state [f] it ends in. *)
Definition trace (zips : list str) (s f : Acquisition.progress) : Prop :=
  exists new,
    Acquisition.stores f = Acquisition.stores s ++ new
    /\ Acquisition.existing_loc_ids f
       = rev (map Acquisition.loc_id_text new) ++ Acquisition.existing_loc_ids s
    /\ NoDup (map Acquisition.loc_id_text new)
    /\ (forall n, In n new ->
          Acquisition.Location_ID n = Acquisition.IdText (Acquisition.loc_id_text n)
          /\ ~ In (Acquisition.loc_id_text n) (Acquisition.existing_loc_ids s)
          /\ exists z, In z zips /\ Acquisition.ZIP_Code n = Str z)
    /\ (Acquisition.searches s <= Acquisition.searches f
        <= Acquisition.searches s + List.length zips)%nat
    /\ (Acquisition.request_count s <= Acquisition.request_count f)%nat
    /\ (Acquisition.request_count f + Acquisition.searches s
        <= Acquisition.request_count s + Acquisition.searches f)%nat
    /\ (Acquisition.slept f + Acquisition.searches s
        = Acquisition.slept s + Acquisition.searches f)%nat
    /\ (forall z, In z (Acquisition.processed_zip_codes f) ->
                  In z (Acquisition.processed_zip_codes s) \/ In z zips)
    /\ (forall z, In z (Acquisition.processed_zip_codes s) ->
                  In z (Acquisition.processed_zip_codes f)).

End Statements.

(* ================================================================== *)
(** * Facts about the Python values *)
(* ================================================================== *)

Module PyFacts.

Lemma str_eqb_eq (a b : str) : str_eqb a b = true <-> a = b.
Proof.
  unfold str_eqb. destruct (list_eq_dec ascii_dec a b); split; congruence.
Qed.

Lemma str_eqb_refl (a : str) : str_eqb a a = true.
Proof. now apply str_eqb_eq. Qed.

Lemma str_eqb_neq (a b : str) : str_eqb a b = false <-> a <> b.
Proof.
  unfold str_eqb. destruct (list_eq_dec ascii_dec a b); split; congruence.
Qed.

Section ScanFacts.
Variable A : Type.
Variable p : A -> bool.

Lemma take_drop_while (l : list A) : take_while p l ++ drop_while p l = l.
Proof.
  induction l as [|a t IH]; simpl; [reflexivity|].
  destruct (p a); simpl; [now rewrite IH | reflexivity].
Qed.

Lemma take_while_all (l : list A) :
  forallb p l = true -> take_while p l = l.
Proof.
  induction l as [|a t IH]; simpl; [reflexivity|].
  intros H. apply andb_prop in H as [Ha Ht]. rewrite Ha. now rewrite IH.
Qed.

Lemma drop_while_all (l : list A) :
  forallb p l = true -> drop_while p l = [].
Proof.
  induction l as [|a t IH]; simpl; [reflexivity|].
  intros H. apply andb_prop in H as [Ha Ht]. rewrite Ha. now apply IH.
Qed.

(** A run followed by an element outside the class stops there. *)
Lemma take_while_stop (run rest : list A) :
  forallb p run = true ->
  match rest with [] => True | a :: _ => p a = false end ->
  take_while p (run ++ rest) = run.
Proof.
  induction run as [|a t IH]; simpl; intros Hrun Hrest.
  - destruct rest as [|b r]; simpl; [reflexivity | now rewrite Hrest].
  - apply andb_prop in Hrun as [Ha Ht]. rewrite Ha. now rewrite IH.
Qed.

Lemma drop_while_stop (run rest : list A) :
  forallb p run = true ->
  match rest with [] => True | a :: _ => p a = false end ->
  drop_while p (run ++ rest) = rest.
Proof.
  induction run as [|a t IH]; simpl; intros Hrun Hrest.
  - destruct rest as [|b r]; simpl; [reflexivity | now rewrite Hrest].
  - apply andb_prop in Hrun as [Ha Ht]. rewrite Ha. now apply IH.
Qed.
End ScanFacts.

Lemma mapM_length A B (f : A -> result B) (l : list A) (bs : list B) :
  mapM f l = Ok bs -> List.length bs = List.length l.
Proof.
  revert bs. induction l as [|a t IH]; simpl; intros bs H.
  - now inversion H.
  - destruct (f a) as [b|e]; simpl in H; [|discriminate].
    destruct (mapM f t) as [bs'|e]; simpl in H; [|discriminate].
    inversion H; subst. simpl. f_equal. now apply IH.
Qed.

(** every character class is decided by the code point *)
Ltac by_code c := destruct c as [[] [] [] [] [] [] [] []]; try reflexivity; try discriminate.

Lemma lower_char_not_upper (c : ascii) : is_upper (lower_char c) = false.
Proof. by_code c. Qed.

Lemma lower_char_fixes_lowercase (c : ascii) :
  is_alpha c = true -> is_upper c = false -> lower_char c = c.
Proof. by_code c. Qed.

Lemma alpha_not_newline (c : ascii) : is_alpha c = true -> is_newline c = false.
Proof. by_code c. Qed.

Lemma alpha_not_space (c : ascii) : is_alpha c = true -> is_space c = false.
Proof. by_code c. Qed.

Lemma repeat_length_zfill (n : nat) (s : str) :
  List.length (repeat "0"%char n ++ s) = (n + List.length s)%nat.
Proof. now rewrite length_app, repeat_length. Qed.

(** ** Division and rounding *)

Lemma Qeq_bool_false (a b : Q) : Qeq_bool a b = false -> ~ a == b.
Proof.
  intros H E. apply Qeq_bool_iff in E. congruence.
Qed.

(** The quotient of a count by a population that contains it. *)
Lemma fdiv_within (a b : Q) :
  0 <= a -> a <= b ->
  (b == 0 -> fillna0 (fdiv (Fin a) (Fin b)) = Fin 0)
  /\ (~ b == 0 ->
      exists q, fillna0 (fdiv (Fin a) (Fin b)) = Fin q
                /\ q * b == a /\ 0 <= q /\ q <= 1).
Proof.
  intros Ha Hab. split.
  - intros Hb. simpl.
    assert (Ea : a == 0) by (rewrite Hb in Hab; now apply Qle_antisym).
    apply Qeq_bool_iff in Hb, Ea. now rewrite Hb, Ea.
  - intros Hb. simpl.
    destruct (Qeq_bool b 0) eqn:E; [apply Qeq_bool_iff in E; contradiction|].
    simpl. exists (Qred (a / b)). split; [reflexivity|].
    assert (Hpos : 0 < b).
    { apply Qle_lt_or_eq in Hab as [H|H].
      - eapply Qle_lt_trans; eauto.
      - apply Qle_lt_or_eq in Ha as [H'|H'].
        + now rewrite <- H.
        + exfalso. apply Hb. now rewrite <- H, <- H'. }
    rewrite Qred_correct. repeat split.
    + unfold Qdiv. rewrite <- Qmult_assoc, (Qmult_comm (/ b)), Qmult_inv_r by assumption.
      apply Qmult_1_r.
    + apply Qle_shift_div_l; [assumption|]. now rewrite Qmult_0_l.
    + apply Qle_shift_div_r; [assumption|]. now rewrite Qmult_1_l.
Qed.

(** [round_half_even] returns a nearest integer, the even one on a tie. *)
Lemma round_half_even_nearest (n : Z) (d : positive) :
  let m := round_half_even (n # d) in
  (2 * Z.abs (n - m * Zpos d) <= Zpos d)%Z
  /\ (2 * Z.abs (n - m * Zpos d) = Zpos d -> Z.even m = true)%Z.
Proof.
  cbv [round_half_even Qnum Qden].
  pose proof (Z.div_mod n (Zpos d) ltac:(lia)) as Hdm.
  pose proof (Z.mod_pos_bound n (Zpos d) ltac:(lia)) as Hr.
  set (f := (n / Zpos d)%Z) in *. set (r := (n mod Zpos d)%Z) in *.
  assert (Hlo : (n - f * Zpos d = r)%Z) by lia.
  assert (Hhi : (n - (f + 1) * Zpos d = r - Zpos d)%Z) by lia.
  destruct (2 * r <? Zpos d)%Z eqn:E1.
  - apply Z.ltb_lt in E1. rewrite Hlo. split; lia.
  - apply Z.ltb_ge in E1.
    destruct (Zpos d <? 2 * r)%Z eqn:E2.
    + apply Z.ltb_lt in E2. rewrite Hhi. split; lia.
    + apply Z.ltb_ge in E2.
      destruct (Z.even f) eqn:E3.
      * rewrite Hlo. split; [lia | auto].
      * rewrite Hhi. split; [lia|]. intros _.
        rewrite Z.even_add, E3. reflexivity.
Qed.

(** Rounding keeps a value of [[0, 1]] between 0 and 100 hundredths. *)
Lemma round_half_even_bounds (n : Z) (d : positive) (hi : Z) :
  (0 <= n)%Z -> (n <= hi * Zpos d)%Z ->
  (0 <= round_half_even (n # d) <= hi)%Z.
Proof.
  intros H0 H1. cbv [round_half_even Qnum Qden].
  pose proof (Z.div_mod n (Zpos d) ltac:(lia)) as Hdm.
  pose proof (Z.mod_pos_bound n (Zpos d) ltac:(lia)) as Hr.
  set (f := (n / Zpos d)%Z) in *. set (r := (n mod Zpos d)%Z) in *.
  assert (0 <= f)%Z by nia.
  assert (f <= hi)%Z by nia.
  destruct (2 * r <? Zpos d)%Z eqn:E1; [lia|].
  apply Z.ltb_ge in E1.
  assert (f < hi)%Z by nia.
  destruct (Zpos d <? 2 * r)%Z; [lia|].
  destruct (Z.even f); lia.
Qed.

(** ** Doubles *)

(** [round_half_even] is within one half of its argument. *)
Lemma round_half_even_within (q : Q) :
  inject_Z (round_half_even q) - (1 # 2) <= q
  /\ q <= inject_Z (round_half_even q) + (1 # 2).
Proof.
  destruct q as [n d].
  destruct (round_half_even_nearest n d) as [H _]. cbv zeta in H.
  set (m := round_half_even (n # d)) in *.
  unfold Qle, Qminus, Qplus, Qopp, inject_Z. cbn [Qnum Qden].
  split; lia.
Qed.

Lemma pow2_pos (e : Z) : 0 < 2 ^ e.
Proof. apply Qpower_0_lt. reflexivity. Qed.

Lemma pow2_succ (e : Z) : 2 ^ (e + 1) == 2 * 2 ^ e.
Proof.
  rewrite Qpower_plus by discriminate. change (2 ^ 1) with 2. apply Qmult_comm.
Qed.

Lemma pow2_of_Z (a : Z) : (0 <= a)%Z -> inject_Z (2 ^ a) == 2 ^ a.
Proof. intros H. now rewrite Zpower_Qpower. Qed.

(** The scaled significand of a positive rational is at least [2^52]. *)
Lemma binade_scaled (q : Q) :
  0 < q -> 2 ^ 52 * 2 ^ binade q <= q.
Proof.
  intros Hq. unfold binade.
  set (e0 := (Z.log2 (Qnum q) - Z.log2 (Zpos (Qden q)) - 52)%Z).
  pose proof (pow2_pos e0) as He0.
  destruct (Qle_bool (2 ^ 52) (q / 2 ^ e0)) eqn:E.
  - apply Qle_bool_iff in E.
    apply (Qmult_le_compat_r _ _ (2 ^ e0)) in E; [|now apply Qlt_le_weak].
    unfold Qdiv in E.
    rewrite <- Qmult_assoc, (Qmult_comm (/ _)), Qmult_inv_r, Qmult_1_r in E;
      [assumption|].
    intros H. rewrite H in He0. discriminate.
  - clear E.
    destruct q as [n d]. unfold Qlt in Hq. cbn [Qnum Qden] in *.
    assert (Hn : (0 < n)%Z) by lia.
    pose proof (Z.log2_spec n Hn) as [Hlo _].
    pose proof (Z.log2_spec (Zpos d) ltac:(lia)) as [_ Hhi].
    pose proof (Z.log2_nonneg n) as Ha. pose proof (Z.log2_nonneg (Zpos d)) as Hb.
    set (a := Z.log2 n) in *. set (b := Z.log2 (Zpos d)) in *.
    assert (Hq2 : 2 ^ 52 * 2 ^ (e0 - 1) == 2 ^ a / 2 ^ (b + 1)).
    { rewrite <- Qpower_plus by discriminate.
      replace (52 + (e0 - 1))%Z with (a - (b + 1))%Z by (unfold e0; lia).
      apply Qpower_minus. discriminate. }
    rewrite Hq2.
    apply Qle_shift_div_r; [apply pow2_pos|].
    rewrite <- !pow2_of_Z by lia.
    replace (Z.succ b) with (b + 1)%Z in Hhi by lia.
    unfold Qle, Qmult, inject_Z. cbn [Qnum Qden].
    rewrite !Z.mul_1_r.
    assert (0 < 2 ^ a)%Z by (apply Z.pow_pos_nonneg; lia).
    nia.
Qed.

(** A double is within a relative [2^-53] of the rational it rounds. *)
Lemma to_double_near (q : Q) :
  0 < q ->
  q * (1 - 1 / 2 ^ 53) <= to_double q /\ to_double q <= q * (1 + 1 / 2 ^ 53).
Proof.
  intros Hq. unfold to_double.
  destruct q as [n d]. unfold Qlt in Hq. cbn [Qnum Qden] in Hq.
  destruct n as [|p|p]; try lia. cbn [Qnum].
  set (q := Zpos p # d) in *.
  assert (Hq' : 0 < q) by (unfold Qlt; cbn; lia).
  pose proof (binade_scaled Hq') as Hs.
  set (e := binade q) in *. cbv zeta.
  pose proof (pow2_pos e) as He.
  destruct (round_half_even_within (q / 2 ^ e)) as [Hlo Hhi].
  set (m := inject_Z (round_half_even (q / 2 ^ e))) in *.
  rewrite Qred_correct.
  set (E := 2 ^ e) in *.
  assert (HE : ~ E == 0) by (intros H; rewrite H in He; discriminate).
  assert (Hm1 : (m - (1 # 2)) * E <= q).
  { apply (Qmult_le_compat_r _ _ E) in Hlo; [|now apply Qlt_le_weak].
    unfold Qdiv in Hlo.
    now rewrite <- Qmult_assoc, (Qmult_comm (/ E)), Qmult_inv_r, Qmult_1_r in Hlo. }
  assert (Hm2 : q <= (m + (1 # 2)) * E).
  { apply (Qmult_le_compat_r _ _ E) in Hhi; [|now apply Qlt_le_weak].
    unfold Qdiv in Hhi.
    now rewrite <- Qmult_assoc, (Qmult_comm (/ E)), Qmult_inv_r, Qmult_1_r in Hhi. }
  change (2 ^ 52) with (4503599627370496 # 1) in Hs.
  change (1 / 2 ^ 53) with (1 # 9007199254740992).
  split; lra.
Qed.

Lemma to_double_zero (q : Q) : q == 0 -> to_double q = 0.
Proof.
  intros H. unfold to_double. destruct q as [n d].
  unfold Qeq in H. cbn in H. assert (n = 0%Z) by lia. now subst n.
Qed.

(** Rounding a value of [[0, 1]] to two decimals gives [m] hundredths,
    [m] between 0 and 100 and within one half of [100 q], up to the
    rounding of the two doubles on the way. *)
Lemma round2_hundredths (q : Q) :
  0 <= q -> q <= 1 ->
  exists m : Z,
    round2 (Fin q) = Fin (Qred (inject_Z m / 100))
    /\ (0 <= m <= 100)%Z
    /\ inject_Z m - (1 # 2) - (1 # 35184372088832) <= 100 * q
    /\ 100 * q <= inject_Z m + (1 # 2) + (1 # 35184372088832).
Proof.
  intros H0 H1. unfold round2.
  exists (round_half_even (to_double (to_double q * 100))).
  split; [reflexivity|].
  apply Qle_lt_or_eq in H0 as [Hpos|Hzero].
  - destruct (to_double_near Hpos) as [Hx1 Hx2].
    change (1 / 2 ^ 53) with (1 # 9007199254740992) in Hx1, Hx2.
    set (x := to_double q) in *.
    assert (Hx : 0 < x * 100) by lra.
    destruct (to_double_near Hx) as [Hy1 Hy2].
    change (1 / 2 ^ 53) with (1 # 9007199254740992) in Hy1, Hy2.
    set (y := to_double (x * 100)) in *.
    destruct (round_half_even_within y) as [Hm1 Hm2].
    set (m := round_half_even y) in *.
    assert (Hlo : inject_Z (-1) < inject_Z m) by (change (inject_Z (-1)) with (-1 # 1); lra).
    assert (Hhi : inject_Z m < inject_Z 101) by (change (inject_Z 101) with (101 # 1); lra).
    rewrite <- Zlt_Qlt in Hlo, Hhi.
    split; [lia|]. split; lra.
  - symmetry in Hzero. rewrite (to_double_zero Hzero).
    change (to_double (0 * 100)) with 0. change (round_half_even 0) with 0%Z.
    split; [lia|]. change (inject_Z 0) with 0. split; lra.
Qed.

End PyFacts.

(* ================================================================== *)
(** * Census Normalizer *)
(* ================================================================== *)

Module CensusProps.
Import Census PyFacts.

Lemma percentage_column_formula (r : census_raw) num pct :
  In (num, pct) percentage_columns ->
  pct (process_census_row r) = fillna0 (fdiv (num r) (Total_Population r)).
Proof.
  unfold percentage_columns. simpl.
  intros H.
  repeat (destruct H as [H|H]; [inversion H; subst; reflexivity|]).
  contradiction.
Qed.

Lemma percentage_of_count (c t : pyfloat) :
  count_within c t ->
  let x := fillna0 (fdiv c t) in
  in_unit x
  /\ (eq0 t = true -> x = Fin 0)
  /\ (eq0 t = false -> quotient_of x c t).
Proof.
  destruct c as [a| | |], t as [b| | |]; simpl; try contradiction.
  intros [Ha Hab].
  destruct (fdiv_within Ha Hab) as [Hz Hnz].
  destruct (Qeq_bool b 0) eqn:E.
  - apply Qeq_bool_iff in E. specialize (Hz E). simpl in Hz.
    apply Qeq_bool_iff in E. rewrite E in Hz. rewrite Hz.
    split; [|split].
    + simpl. split; [apply Qle_refl | discriminate].
    + reflexivity.
    + discriminate.
  - destruct (Hnz (Qeq_bool_false E)) as (q & Hq & Hmul & H0 & H1).
    simpl in Hq. rewrite E in Hq. simpl in Hq. rewrite Hq.
    split; [|split].
    + simpl. now split.
    + discriminate.
    + intros _. exact Hmul.
Qed.

(** C3, for counts within the total population.
    Every output row comes from one input row, and each
    percentage field whose raw count lies between 0 and the total
    population is in [[0, 1]], is exactly 0 when the total population is 0
    (the NaN of 0/0, filled), and otherwise is the count divided by the
    total population. *)
Theorem census_percentages_within_unit :
  forall (census_df : list census_raw) (out : list census_pct),
    process_census_data (Some census_df) = Some out ->
    forall o, In o out ->
    exists r, In r census_df /\ o = process_census_row r /\
      forall num pct, In (num, pct) percentage_columns ->
        count_within (num r) (Total_Population r) ->
        in_unit (pct o)
        /\ (eq0 (Total_Population r) = true -> pct o = Fin 0)
        /\ (eq0 (Total_Population r) = false ->
            quotient_of (pct o) (num r) (Total_Population r)).
Proof.
  intros census_df out H o Ho. simpl in H. inversion H; subst out; clear H.
  apply in_map_iff in Ho as (r & Hr & Hin).
  exists r. split; [assumption|]. split; [now symmetry|].
  intros num pct Hcol Hwithin. subst o.
  rewrite (percentage_column_formula r Hcol).
  now apply percentage_of_count.
Qed.

Lemma census_percentages_within_unit_witness :
  let r := sample_row 16721 10199 in
  in_unit (Poverty_Rate (process_census_row r))
  /\ quotient_of (Poverty_Rate (process_census_row r)) (Fin 10199) (Fin 16721).
Proof.
  intros r.
  destruct (@census_percentages_within_unit [r] [process_census_row r]
              eq_refl (process_census_row r) (or_introl eq_refl))
    as (r' & Hin & Heq & Hcols).
  destruct Hin as [<-|[]].
  destruct (Hcols Poverty_Count Poverty_Rate (or_introl eq_refl)) as (Hu & _ & Hq).
  - simpl. split; discriminate.
  - split; [exact Hu | exact (Hq eq_refl)].
Defined.

(** C3, at a row whose poverty count exceeds its total population: the
    field is 5/3, outside [[0, 1]]. *)
Lemma census_percentage_above_one :
  let o := process_census_row (sample_row 3 5) in
  Poverty_Rate o = Fin (5 # 3) /\ ~ in_unit (Poverty_Rate o).
Proof.
  split; [reflexivity|].
  simpl. intros [_ H]. revert H. compute. intros H. now apply H.
Qed.

(** With a total population of 0 and a count that is not 0 the quotient is
    an infinity, which [fillna] leaves in place. *)
Lemma census_percentage_infinite :
  Poverty_Rate (process_census_row (sample_row 0 5)) = PInf.
Proof. reflexivity. Qed.

End CensusProps.

(* ================================================================== *)
(** * Product Cleaner *)
(* ================================================================== *)

Module ProductCleanerProps.
Import ProductCleaner PyFacts.

(** ** Location ID padding *)

Lemma zfill_length (w : nat) (s : str) :
  List.length (zfill w s) = Nat.max w (List.length s).
Proof.
  unfold zfill. destruct (w - List.length s)%nat as [|k] eqn:E.
  - lia.
  - destruct s as [|c rest].
    + rewrite repeat_length. simpl in *. lia.
    + destruct (is_sign c).
      * change (c :: repeat "0"%char (S k) ++ rest)
          with ([c] ++ repeat "0"%char (S k) ++ rest).
        rewrite length_app, repeat_length_zfill. simpl in *. lia.
      * rewrite repeat_length_zfill. simpl in *. lia.
Qed.

Lemma zfill_long (w : nat) (s : str) :
  (w <= List.length s)%nat -> zfill w s = s.
Proof.
  intros H. unfold zfill.
  replace (w - List.length s)%nat with 0%nat by lia. reflexivity.
Qed.

Lemma zfill_unsigned (w : nat) (s : str) :
  unsigned s -> zfill w s = repeat "0"%char (w - List.length s) ++ s.
Proof.
  intros H. unfold zfill.
  destruct (w - List.length s)%nat as [|k]; [reflexivity|].
  destruct s as [|c rest]; [now rewrite app_nil_r|].
  simpl in H. now rewrite H.
Qed.

(** C10, with the sign case set apart.
    Padding a location ID string gives a string of
    length max(8, length); an ID of 8 or more characters is returned
    unchanged; an ID that does not begin with a sign character gains only
    leading zeros, so the original ID is its suffix. *)
Theorem pad_location_id_zeros :
  forall s : str,
    exists padded,
      pad_location_id (Str s) = Ok padded
      /\ List.length padded = Nat.max 8 (List.length s)
      /\ ((8 <= List.length s)%nat -> padded = s)
      /\ (unsigned s -> padded = repeat "0"%char (8 - List.length s) ++ s).
Proof.
  intros s. exists (zfill 8 s). split; [reflexivity|].
  split; [apply zfill_length|].
  split; [apply zfill_long | apply zfill_unsigned].
Qed.

Lemma pad_location_id_zeros_witness :
  pad_location_id (Str (txt "9700336")) = Ok (txt "09700336").
Proof.
  destruct (pad_location_id_zeros (txt "9700336")) as (p & Hp & _ & _ & Hz).
  rewrite Hp. f_equal. apply Hz. reflexivity.
Defined.

(** C10, at the ID "-123": the zeros go after the sign, and the original
    ID is not a suffix of the result. *)
Lemma pad_location_id_signed :
  pad_location_id (Str (txt "-123")) = Ok (txt "-0000123")
  /\ ~ exists zeros, txt "-0000123" = zeros ++ txt "-123".
Proof.
  split; [reflexivity|].
  intros [zeros H].
  assert (L : List.length zeros = 4%nat).
  { apply (f_equal (@List.length ascii)) in H.
    rewrite length_app in H. simpl in H. lia. }
  destruct zeros as [|a [|b [|c [|d [|e z]]]]]; simpl in L; discriminate.
Qed.

(** ** Size parsing *)

Lemma search_numeric_none (s : str) :
  no_char numeric_char s -> search_numeric s = None.
Proof.
  unfold no_char. induction s as [|c t IH]; simpl; [reflexivity|].
  intros H. apply andb_prop in H as [Hc Ht].
  apply negb_true_iff in Hc. rewrite Hc. now apply IH.
Qed.

Lemma search_numeric_first (pre tok post : str) :
  no_char numeric_char pre -> tok <> [] -> all_chars numeric_char tok ->
  stops numeric_char post ->
  search_numeric (pre ++ tok ++ post) = Some tok.
Proof.
  unfold no_char, all_chars. intros Hpre Hne Htok Hpost.
  induction pre as [|c t IH]; simpl.
  - destruct tok as [|c tok']; [contradiction|]. simpl in *.
    apply andb_prop in Htok as [Hc Ht]. rewrite Hc.
    now rewrite take_while_stop.
  - simpl in Hpre. apply andb_prop in Hpre as [Hc Ht].
    apply negb_true_iff in Hc. rewrite Hc. now apply IH.
Qed.

Lemma digit_not_dot (c : ascii) : is_digit c = true -> is_dot c = false.
Proof. by_code c. Qed.

(** [float] of a run of digits, or of digits around one dot. *)
Lemma float_of_integer_token (ip : str) :
  ip <> [] -> all_chars is_digit ip ->
  float_of_token ip = Ok (Fin (inject_Z (digits_value ip))).
Proof.
  unfold all_chars, float_of_token. intros Hne H.
  rewrite drop_while_all, take_while_all by assumption.
  destruct ip; [contradiction | reflexivity].
Qed.

Lemma float_of_decimal_token (ip fp : str) :
  all_chars is_digit ip -> all_chars is_digit fp -> ip ++ fp <> [] ->
  exists q,
    float_of_token (ip ++ "."%char :: fp) = Ok (Fin q)
    /\ q == inject_Z (digits_value ip)
            + inject_Z (digits_value fp) / inject_Z (10 ^ Z.of_nat (List.length fp)).
Proof.
  unfold all_chars, float_of_token. intros Hip Hfp Hne.
  rewrite drop_while_stop, take_while_stop by (auto; reflexivity).
  rewrite Hfp.
  destruct (Nat.eqb (List.length ip + List.length fp) 0) eqn:E.
  - apply Nat.eqb_eq in E. exfalso. apply Hne.
    destruct ip, fp; simpl in E; try discriminate; reflexivity.
  - change (is_dot "."%char && true && negb false) with true. cbv iota.
    eexists. split; [reflexivity|]. apply Qred_correct.
Qed.

Lemma search_uom_none (s : str) :
  no_char is_alpha s -> search_uom s = None.
Proof.
  unfold no_char. induction s as [|c t IH]; [reflexivity|].
  intros H. simpl in H. apply andb_prop in H as [Hc Ht].
  apply negb_true_iff in Hc.
  change (search_uom (c :: t))
    with (if is_alpha c && at_end (drop_while not_newline (c :: t))
          then Some (take_while not_newline (c :: t)) else search_uom t).
  rewrite Hc. now apply IH.
Qed.

Lemma search_uom_first_letter (pre : str) (c : ascii) (rest : str) :
  no_char is_alpha pre -> is_alpha c = true -> no_char is_newline rest ->
  search_uom (pre ++ c :: rest) = Some (c :: rest).
Proof.
  unfold no_char. intros Hpre Hc Hrest.
  assert (Hline : forallb not_newline (c :: rest) = true).
  { simpl. unfold not_newline at 1. rewrite (alpha_not_newline _ Hc). exact Hrest. }
  induction pre as [|a t IH].
  - change (search_uom ([] ++ c :: rest))
      with (if is_alpha c && at_end (drop_while not_newline (c :: rest))
            then Some (take_while not_newline (c :: rest))
            else search_uom rest).
    rewrite Hc, drop_while_all, take_while_all by assumption. reflexivity.
  - simpl in Hpre. apply andb_prop in Hpre as [Ha Ht].
    apply negb_true_iff in Ha.
    change (search_uom ((a :: t) ++ c :: rest))
      with (if is_alpha a && at_end (drop_while not_newline (a :: t ++ c :: rest))
            then Some (take_while not_newline (a :: t ++ c :: rest))
            else search_uom (t ++ c :: rest)).
    rewrite Ha. now apply IH.
Qed.

(** C7, with the unit of measure read from the first letter.
    The quantity is the first maximal run of digits and
    dots read as a decimal number (a run of digits, or digits around one
    dot), and -1 when the size has no digit and no dot.  The unit of
    measure is the text from the first letter to the end of the size,
    stripped, when no line break follows that letter, and "unit" when the
    size has no letter.  "12 oz" gives 12 and "oz"; "Each" gives -1 and
    "Each". *)
Theorem size_parsing :
  (forall s, no_char numeric_char s ->
             extract_quantity (Str s) = Ok (Fin (-1)))
  /\ (forall pre ip post,
        no_char numeric_char pre -> ip <> [] -> all_chars is_digit ip ->
        stops numeric_char post ->
        extract_quantity (Str (pre ++ ip ++ post))
        = Ok (Fin (inject_Z (digits_value ip))))
  /\ (forall pre ip fp post,
        no_char numeric_char pre -> all_chars is_digit ip ->
        all_chars is_digit fp -> ip ++ fp <> [] -> stops numeric_char post ->
        exists q,
          extract_quantity (Str (pre ++ (ip ++ "."%char :: fp) ++ post)) = Ok (Fin q)
          /\ q == inject_Z (digits_value ip)
                  + inject_Z (digits_value fp)
                    / inject_Z (10 ^ Z.of_nat (List.length fp)))
  /\ (forall s, no_char is_alpha s -> extract_uom (Str s) = txt "unit")
  /\ (forall pre c rest,
        no_char is_alpha pre -> is_alpha c = true -> no_char is_newline rest ->
        extract_uom (Str (pre ++ c :: rest)) = strip (c :: rest))
  /\ (extract_quantity (Str (txt "12 oz")) = Ok (Fin 12)
      /\ extract_uom (Str (txt "12 oz")) = txt "oz")
  /\ (extract_quantity (Str (txt "Each")) = Ok (Fin (-1))
      /\ extract_uom (Str (txt "Each")) = txt "Each").
Proof.
  repeat apply conj; try reflexivity.
  - intros s H. unfold extract_quantity. simpl str_of_cell.
    now rewrite search_numeric_none.
  - intros pre ip post Hpre Hne Hip Hpost.
    unfold extract_quantity. simpl str_of_cell.
    rewrite search_numeric_first; auto.
    + now apply float_of_integer_token.
    + unfold all_chars in *. rewrite forallb_forall in *.
      intros c Hc. unfold numeric_char. now rewrite (Hip c Hc).
  - intros pre ip fp post Hpre Hip Hfp Hne Hpost.
    unfold extract_quantity. simpl str_of_cell.
    rewrite search_numeric_first; auto.
    + now apply float_of_decimal_token.
    + destruct ip; discriminate.
    + unfold all_chars in *. rewrite forallb_app. simpl.
      rewrite forallb_forall in *.
      apply andb_true_intro. split.
      * apply forallb_forall. intros c Hc. unfold numeric_char. now rewrite (Hip c Hc).
      * apply forallb_forall. intros c Hc. unfold numeric_char. now rewrite (Hfp c Hc).
  - intros s H. unfold extract_uom. simpl str_of_cell.
    now rewrite search_uom_none.
  - intros pre c rest Hpre Hc Hrest. unfold extract_uom. simpl str_of_cell.
    now rewrite search_uom_first_letter.
Qed.

Lemma size_parsing_witness :
  (exists q, extract_quantity (Str (txt "1.5 lb")) = Ok (Fin q) /\ q == 3 # 2)
  /\ extract_quantity (Str (txt "Pack of 6")) = Ok (Fin 6)
  /\ extract_uom (Str (txt "12 fl oz")) = txt "fl oz"
  /\ extract_uom (Str (txt "6")) = txt "unit".
Proof.
  destruct size_parsing as (_ & Hint & Hdec & Hnone & Huom & _).
  split; [|split; [|split]].
  - destruct (Hdec [] (txt "1") (txt "5") (txt " lb"))
      as (q & Hq & Hval); try reflexivity; try discriminate.
    exists q. split; [exact Hq|]. rewrite Hval. reflexivity.
  - apply (Hint (txt "Pack of ") (txt "6") []); try reflexivity. discriminate.
  - apply (Huom (txt "12 ") "f"%char (txt "l oz")); reflexivity.
  - apply (Hnone (txt "6")). reflexivity.
Defined.

(** C7, at the size "12 fl oz": the unit of measure is "fl oz", everything
    from the first letter on, where the trailing alphabetic run is
    "oz". *)
Lemma uom_is_not_trailing_run :
  extract_uom (Str (txt "12 fl oz")) = txt "fl oz"
  /\ uom_trailing_run (txt "12 fl oz") = txt "oz"
  /\ extract_uom (Str (txt "12 fl oz")) <> uom_trailing_run (txt "12 fl oz").
Proof.
  split; [reflexivity|]. split; [reflexivity|]. discriminate.
Qed.

(** ** Totality *)

(** Price normalization never raises and never leaves a null: a cell
    that is not a number becomes 0. *)
Lemma normalize_price_total (parse_number : str -> option pyfloat) (p : price_cell) :
  isnull (normalize_price parse_number p) = false.
Proof.
  unfold normalize_price.
  destruct p as [v|s]; [destruct v | destruct (parse_number s) as [[]|]]; reflexivity.
Qed.

Lemma normalize_price_coerces (parse_number : str -> option pyfloat) (s : str) :
  parse_number s = None -> normalize_price parse_number (PText s) = Fin 0.
Proof. unfold normalize_price. now intros ->. Qed.

(** Classification answers on every description that is a string. *)
Lemma classify_product_total_on_strings (d : str) :
  exists c, classify_product (Str d) = Ok c.
Proof.
  unfold classify_product.
  destruct (contains (txt "egg") (lower d)); [now exists Egg|].
  destruct (contains (txt "bread") (lower d)); [now exists Bread | now exists Other].
Qed.

(** C4, at two rows the cleaner can receive.  A size whose first run of
    digits and dots is a lone dot makes [float] raise ValueError, and a
    missing description makes [lower] raise AttributeError: the run fails
    in place of yielding the sentinels. *)
Theorem cleaner_raises :
  forall parse_number : str -> option pyfloat,
    extract_quantity (Str (txt "No. 2 can")) = Raise ValueError
    /\ clean_product_data parse_number
         (Some [sample_raw (Str (txt "Green Beans")) (Str (txt "No. 2 can"))])
       = Raise ValueError
    /\ classify_product Missing = Raise AttributeError
    /\ clean_product_data parse_number
         (Some [sample_raw Missing (Str (txt "12 oz"))])
       = Raise AttributeError.
Proof.
  intros parse_number. repeat split; reflexivity.
Qed.

(** ** The inactive-row filter *)

Lemma eq0_is_zero (x : pyfloat) : eq0 x = true <-> is_zero x.
Proof.
  unfold is_zero. destruct x as [q| | |]; simpl; split.
  - intros H. exists q. split; [reflexivity | now apply Qeq_bool_iff].
  - intros (q' & E & H). inversion E; subst. now apply Qeq_bool_iff.
  - discriminate.
  - intros (q' & E & _). discriminate.
  - discriminate.
  - intros (q' & E & _). discriminate.
  - discriminate.
  - intros (q' & E & _). discriminate.
Qed.

Lemma stock_unknown_ignoring_case (c : cell) :
  stock_unknown c = true <-> equals_ignoring_case c (txt "unknown").
Proof.
  unfold equals_ignoring_case. destruct c as [s|]; simpl; split.
  - intros H. apply str_eqb_eq in H. now exists s.
  - intros (s' & E & H). inversion E; subst. now apply str_eqb_eq.
  - discriminate.
  - intros (s' & E & _). discriminate.
Qed.

Lemma inactive_items_mask_rule (r : product) :
  inactive_items_mask r = true <-> inactive r.
Proof.
  unfold inactive_items_mask, inactive.
  rewrite !andb_true_iff, stock_unknown_ignoring_case, !eq0_is_zero. tauto.
Qed.

Lemma same_observation_refl (r : product) : same_observation r r = true.
Proof.
  unfold same_observation.
  assert (C : forall c, cell_eqb c c = true)
    by (intros [s|]; simpl; [apply str_eqb_refl | reflexivity]).
  now rewrite !C, str_eqb_refl.
Qed.

Lemma drop_duplicates_from_subset (seen rows : list product) (r : product) :
  In r (drop_duplicates_from seen rows) -> In r rows.
Proof.
  revert seen. induction rows as [|x t IH]; simpl; intros seen H; [assumption|].
  destruct (existsb (same_observation x) seen).
  - right. eapply IH; eauto.
  - destruct H as [H|H]; [now left | right; eapply IH; eauto].
Qed.

Lemma drop_duplicates_from_keeps_one (seen rows : list product) (r : product) :
  In r rows ->
  (exists s, In s seen /\ same_observation r s = true)
  \/ (exists r', In r' (drop_duplicates_from seen rows)
                 /\ same_observation r r' = true).
Proof.
  revert seen. induction rows as [|x t IH]; simpl; intros seen H; [contradiction|].
  destruct (existsb (same_observation x) seen) eqn:E.
  - destruct H as [<-|H].
    + left. apply existsb_exists in E as (s & Hs & Hsame). now exists s.
    + now apply IH.
  - destruct H as [<-|H].
    + right. exists x. split; [now left | apply same_observation_refl].
    + destruct (IH (x :: seen) H) as [(s & [<-|Hs] & Hsame) | (r' & Hr' & Hsame)].
      * right. exists x. split; [now left | assumption].
      * left. now exists s.
      * right. exists r'. split; [now right | assumption].
Qed.

Lemma drop_duplicates_from_keeps_first (seen pre post : list product)
      (r : product) :
  (forall s, In s seen -> same_observation r s = false) ->
  (forall x, In x pre -> same_observation r x = false) ->
  In r (drop_duplicates_from seen (pre ++ r :: post)).
Proof.
  revert seen. induction pre as [|x pre' IH]; intros seen Hseen Hpre.
  - cbn [app drop_duplicates_from].
    assert (E : existsb (same_observation r) seen = false).
    { destruct (existsb (same_observation r) seen) eqn:E; [|reflexivity].
      apply existsb_exists in E as (y & Hy & Hsame).
      rewrite (Hseen y Hy) in Hsame. discriminate. }
    rewrite E. now left.
  - cbn [app drop_duplicates_from].
    assert (Hpre' : forall y, In y pre' -> same_observation r y = false)
      by (intros y Hy; apply Hpre; now right).
    destruct (existsb (same_observation x) seen).
    + now apply IH.
    + right. apply IH; [|assumption].
      intros y [<-|Hy]; [apply Hpre; now left | now apply Hseen].
Qed.

Lemma assemble_rows (parse_number : str -> option pyfloat) (df : list raw_product) :
  forall ids cats qtys,
    mapM pad_location_id (map raw_Location_ID df) = Ok ids ->
    mapM classify_product (map raw_Description df) = Ok cats ->
    mapM extract_quantity (map raw_Size df) = Ok qtys ->
    Forall2 (cleaned_from parse_number) df (assemble parse_number df ids cats qtys).
Proof.
  induction df as [|raw df IH]; intros ids cats qtys Hi Hc Hq.
  - constructor.
  - cbn [map mapM] in Hi, Hc, Hq.
    destruct (pad_location_id (raw_Location_ID raw)) as [i|] eqn:Ei;
      [|discriminate].
    destruct (mapM pad_location_id (map raw_Location_ID df)) as [ids'|];
      [|discriminate].
    destruct (classify_product (raw_Description raw)) as [c|] eqn:Ec;
      [|discriminate].
    destruct (mapM classify_product (map raw_Description df)) as [cats'|];
      [|discriminate].
    destruct (extract_quantity (raw_Size raw)) as [q|] eqn:Eq;
      [|discriminate].
    destruct (mapM extract_quantity (map raw_Size df)) as [qtys'|];
      [|discriminate].
    cbn [bind] in Hi, Hc, Hq.
    assert (ids = i :: ids') by congruence.
    assert (cats = c :: cats') by congruence.
    assert (qtys = q :: qtys') by congruence.
    subst ids cats qtys. cbn [assemble]. constructor.
    + unfold cleaned_from.
      cbn [Product_ID Location_ID Description Brand Size Stock_Level
           Date_Retrieved Product_Category Quantity UOM Regular_Price
           Promo_Price Price_per_Unit Promo_Price_per_Unit].
      repeat split; try reflexivity; assumption.
    + now apply IH.
Qed.

Lemma computed_rows_from_input (parse_number : str -> option pyfloat)
      (df : list raw_product) (rows : list product) :
  computed_rows parse_number df = Ok rows ->
  Forall2 (cleaned_from parse_number) df rows.
Proof.
  unfold computed_rows. intros H.
  destruct (mapM pad_location_id (map raw_Location_ID df)) as [ids|] eqn:Ei;
    [|discriminate].
  destruct (mapM classify_product (map raw_Description df)) as [cats|] eqn:Ec;
    [|discriminate].
  destruct (mapM extract_quantity (map raw_Size df)) as [qtys|] eqn:Eq;
    [|discriminate].
  unfold bind in H.
  assert (rows = assemble parse_number df ids cats qtys) by congruence.
  subst rows. now apply assemble_rows.
Qed.

(** C5.  When the cleaner returns a table, there is one computed row per
    input row, in order, carrying that row's product ID, date, stock level
    and the other columns as cleaned, and the output consists of computed
    rows, none of them inactive.  The rule is the only exclusion besides
    deduplication: no inactive row is in the output, and a row that is not
    inactive is in the output itself unless an earlier row that is not
    inactive has the same (product, location, date), in which case a row
    of that key is.  So every row with stock level "unknown" in any casing
    and regular price 5 is represented in the output. *)
Theorem inactive_rows_dropped :
  forall (parse_number : str -> option pyfloat)
         (df : list raw_product) (out : list product),
    clean_product_data parse_number (Some df) = Ok (Some out) ->
    exists rows,
      computed_rows parse_number df = Ok rows
      /\ Forall2 (cleaned_from parse_number) df rows
      /\ (forall r, In r out -> In r rows /\ ~ inactive r)
      /\ (forall r, In r rows -> inactive r -> ~ In r out)
      /\ (forall pre r post,
            rows = pre ++ r :: post -> ~ inactive r ->
            (forall r', In r' pre -> ~ inactive r' ->
                        same_observation r r' = false) ->
            In r out)
      /\ (forall r, In r rows -> ~ inactive r ->
                    exists r', In r' out /\ same_observation r r' = true)
      /\ (forall r, In r rows ->
                    equals_ignoring_case (Stock_Level r) (txt "unknown") ->
                    Regular_Price r = Fin 5 ->
                    exists r', In r' out /\ same_observation r r' = true).
Proof.
  intros parse_number df out H.
  unfold clean_product_data in H.
  destruct df as [|raw df]; [discriminate|].
  destruct (computed_rows parse_number (raw :: df)) as [rows|] eqn:E;
    [|discriminate].
  simpl in H. inversion H; subst out; clear H.
  exists rows. split; [reflexivity|].
  split; [now apply computed_rows_from_input|].
  set (active := fun r => negb (inactive_items_mask r)).
  assert (Hactive : forall r, active r = true <-> ~ inactive r).
  { intros r. unfold active. rewrite negb_true_iff, <- inactive_items_mask_rule.
    destruct (inactive_items_mask r); split; congruence. }
  assert (Hout : forall r,
             In r (drop_duplicates (filter active rows)) ->
             In r rows /\ ~ inactive r).
  { intros r Hr. apply drop_duplicates_from_subset in Hr.
    apply filter_In in Hr as [Hin Hmask]. split; [assumption|].
    now apply Hactive. }
  assert (Hkept : forall r, In r rows -> ~ inactive r ->
             exists r',
               In r' (drop_duplicates (filter active rows))
               /\ same_observation r r' = true).
  { intros r Hin Hact.
    assert (Hf : In r (filter active rows))
      by (apply filter_In; split; [assumption | now apply Hactive]).
    destruct (drop_duplicates_from_keeps_one [] _ _ Hf)
      as [(s & [] & _) | Hr']. exact Hr'. }
  split; [exact Hout|]. split; [|split; [|split]].
  - intros r Hin Hina Hr. now apply (proj2 (Hout r Hr)).
  - intros pre r post -> Hact Hfirst.
    rewrite filter_app. cbn [filter].
    rewrite (proj2 (Hactive r) Hact).
    apply drop_duplicates_from_keeps_first; [intros s0 []|].
    intros x Hx. apply filter_In in Hx as [Hx Hax].
    apply Hfirst; [assumption | now apply Hactive].
  - exact Hkept.
  - intros r Hin Hstock Hprice. apply Hkept; [assumption|].
    intros (_ & (q & Eq & Hq) & _). rewrite Hprice in Eq. inversion Eq; subst q.
    discriminate.
Qed.

Lemma inactive_rows_dropped_witness :
  exists out,
    clean_product_data (fun _ => None) (Some one_day) = Ok (Some out)
    /\ map Product_ID out = [Str (txt "0001"); Str (txt "0003"); Str (txt "0004")]
    /\ map Stock_Level out
       = [Str (txt "HIGH"); Str (txt "Unknown"); Str (txt "LOW")]
    /\ forall r, In r out -> ~ inactive r.
Proof.
  eexists. split; [reflexivity|]. split; [reflexivity|]. split; [reflexivity|].
  intros r Hr.
  destruct (@inactive_rows_dropped (fun _ => None) one_day _ eq_refl)
    as (rows & _ & _ & Hout & _).
  exact (proj2 (Hout r Hr)).
Defined.

End ProductCleanerProps.

(* ================================================================== *)
(** * Facts about the pandas operations *)
(* ================================================================== *)

Module FrameFacts.
Import Frame PyFacts.

Section GroupByFacts.
Variables A K : Type.
Variable key : A -> option K.
Variable eqb leb : K -> K -> bool.

Lemma in_insert_sorted (k x : K) (ks : list K) :
  In x (insert_sorted leb k ks) <-> x = k \/ In x ks.
Proof.
  induction ks as [|k' t IH]; simpl.
  - intuition.
  - destruct (leb k k'); simpl; [intuition|]. rewrite IH. intuition.
Qed.

Lemma in_sort_keys (x : K) (ks : list K) :
  In x (sort_keys leb ks) <-> In x ks.
Proof.
  induction ks as [|k t IH]; simpl; [tauto|].
  rewrite in_insert_sorted, IH. intuition.
Qed.

Lemma in_dedup (x : K) (ks : list K) : In x (dedup eqb ks) -> In x ks.
Proof.
  induction ks as [|k t IH]; simpl; [tauto|].
  destruct (existsb (eqb k) (dedup eqb t)); simpl; intuition.
Qed.

Lemma dedup_represents (x : K) (ks : list K) :
  eqb x x = true -> In x ks ->
  exists x', In x' (dedup eqb ks) /\ eqb x x' = true.
Proof.
  intros Hrefl. induction ks as [|k t IH]; simpl; [tauto|].
  intros [<-|H].
  - destruct (existsb (eqb k) (dedup eqb t)) eqn:E.
    + apply existsb_exists in E as (x' & Hx' & Heq). now exists x'.
    + exists k. split; [now left | assumption].
  - destruct (IH H) as (x' & Hx' & Heq).
    exists x'. split; [|assumption].
    destruct (existsb (eqb k) (dedup eqb t)); [assumption | now right].
Qed.

Lemma in_keys_of (k : K) (rows : list A) :
  In k (keys_of key rows) <-> exists r, In r rows /\ key r = Some k.
Proof.
  unfold keys_of. rewrite in_flat_map. split.
  - intros (r & Hr & Hk). exists r. split; [assumption|].
    destruct (key r) as [k'|]; simpl in Hk; [|contradiction].
    destruct Hk as [<-|[]]. reflexivity.
  - intros (r & Hr & Hk). exists r. split; [assumption|].
    rewrite Hk. now left.
Qed.

(** A group holds the rows of its key, in the order of the frame, and
    its key is the key of one of the rows. *)
Lemma groupby_group (rows : list A) (k : K) (g : list A) :
  In (k, g) (groupby key eqb leb rows) ->
  g = filter (has_key key eqb k) rows
  /\ exists r, In r rows /\ key r = Some k.
Proof.
  unfold groupby. intros H. apply in_map_iff in H as (k' & E & Hk').
  inversion E; subst. split; [reflexivity|].
  apply in_keys_of. apply in_dedup.
  exact (proj1 (in_sort_keys _ _) Hk').
Qed.

Lemma groupby_nonempty (rows : list A) (k : K) (g : list A) :
  eqb k k = true -> In (k, g) (groupby key eqb leb rows) -> g <> [].
Proof.
  intros Hrefl H. apply groupby_group in H as (-> & r & Hr & Hk).
  intros E.
  assert (Hin : In r (filter (has_key key eqb k) rows)).
  { apply filter_In. split; [assumption|]. unfold has_key. now rewrite Hk. }
  now rewrite E in Hin.
Qed.

Lemma groupby_covers (rows : list A) (r : A) (k : K) :
  eqb k k = true -> In r rows -> key r = Some k ->
  exists k' g, In (k', g) (groupby key eqb leb rows) /\ eqb k k' = true.
Proof.
  intros Hrefl Hr Hk.
  assert (Hin : In k (keys_of key rows)) by (apply in_keys_of; eauto).
  destruct (@dedup_represents k (keys_of key rows) Hrefl Hin) as (k' & Hk' & Heq).
  exists k', (filter (has_key key eqb k') rows). split; [|assumption].
  unfold groupby. apply in_map_iff. exists k'. split; [reflexivity|].
  now apply in_sort_keys.
Qed.
End GroupByFacts.

Section MergeFacts.
Variables L R : Type.
Variable left_on : L -> str.
Variable right_on : R -> str.

(** The rows of a left merge: every left row, with each right row of
    its key, or with none when no right row has its key. *)
Lemma in_merge_left (left : list L) (right : list R) (l : L) (o : option R) :
  In (l, o) (merge_left left_on right_on left right) <->
  In l left
  /\ match o with
     | Some r => In r right /\ right_on r = left_on l
     | None => forall r, In r right -> right_on r <> left_on l
     end.
Proof.
  unfold merge_left. rewrite in_flat_map. split.
  - intros (l' & Hl' & H).
    destruct (filter (fun r => str_eqb (right_on r) (left_on l')) right)
      as [|m ms] eqn:E.
    + destruct H as [H|[]]. inversion H; subst. split; [assumption|].
      intros r Hr Heq.
      assert (Hin : In r (filter (fun r => str_eqb (right_on r) (left_on l)) right))
        by (apply filter_In; split; [assumption | now apply str_eqb_eq]).
      now rewrite E in Hin.
    + apply in_map_iff in H as (r & Hr & Hin). inversion Hr; subst.
      split; [assumption|]. rewrite <- E in Hin.
      apply filter_In in Hin as [Hin Heq]. split; [assumption|].
      now apply str_eqb_eq.
  - intros (Hl & Ho). exists l. split; [assumption|].
    destruct o as [r|].
    + destruct Ho as [Hr Heq].
      assert (Hin : In r (filter (fun r => str_eqb (right_on r) (left_on l)) right))
        by (apply filter_In; split; [assumption | now apply str_eqb_eq]).
      destruct (filter (fun r => str_eqb (right_on r) (left_on l)) right)
        as [|m ms]; [contradiction|].
      apply in_map_iff. now exists r.
    + destruct (filter (fun r => str_eqb (right_on r) (left_on l)) right)
        as [|m ms] eqn:E; [now left|].
      exfalso.
      assert (Hin : In m (filter (fun r => str_eqb (right_on r) (left_on l)) right))
        by (rewrite E; now left).
      apply filter_In in Hin as [Hin Heq]. apply str_eqb_eq in Heq.
      exact (Ho m Hin Heq).
Qed.

End MergeFacts.

Lemma get_counter_add (w x : str) (d : list (str * nat)) :
  get w (counter_add x d) = (get w d + if str_eqb x w then 1 else 0)%nat.
Proof.
  induction d as [|[k n] t IH]; simpl.
  - destruct (str_eqb x w); reflexivity.
  - destruct (str_eqb k x) eqn:Ekx; simpl.
    + apply str_eqb_eq in Ekx. subst k.
      destruct (str_eqb x w); lia.
    + destruct (str_eqb k w) eqn:Ekw; [|exact IH].
      apply str_eqb_eq in Ekw. subst k.
      destruct (str_eqb x w) eqn:Exw; [|lia].
      apply str_eqb_eq in Exw. subst x.
      rewrite str_eqb_refl in Ekx. discriminate.
Qed.

(** The count a [Counter] holds for a word is the number of its
    occurrences. *)
Lemma get_Counter (w : str) (words : list str) :
  get w (Counter words) = count_occ (list_eq_dec ascii_dec) words w.
Proof.
  unfold Counter.
  assert (G : forall d, get w (fold_left (fun d w => counter_add w d) words d)
                        = (get w d + count_occ (list_eq_dec ascii_dec) words w)%nat).
  { induction words as [|x t IH]; intros d; simpl; [lia|].
    rewrite IH, get_counter_add. unfold str_eqb.
    destruct (list_eq_dec ascii_dec x w); lia. }
  now rewrite G.
Qed.

Lemma fold_left_app_flat_map A B (f : A -> list B) (ls : list A) (init : list B) :
  fold_left (fun acc l => acc ++ f l) ls init = init ++ flat_map f ls.
Proof.
  revert init. induction ls as [|l t IH]; intros init; simpl.
  - now rewrite app_nil_r.
  - now rewrite IH, app_assoc.
Qed.

End FrameFacts.

(* ================================================================== *)
(** * Temporal Aggregator *)
(* ================================================================== *)

Module AggregatorProps.
Import Frame ZipMerge PyFacts FrameFacts Statements.

Lemma float_eqb_refl (x : pyfloat) : isnull x = false -> float_eqb x x = true.
Proof.
  destruct x as [q| | |]; simpl; try reflexivity; try discriminate.
  intros _. apply Qeq_bool_refl.
Qed.

Lemma product_key_eqb_refl (r : observation) (k : product_key) :
  product_key_of r = Some k -> product_key_eqb k k = true.
Proof.
  unfold product_key_of.
  destruct (Product_ID r), (Location_ID r), (UOM r), (Brand r),
    (Product_Category r), (Description r); try discriminate.
  destruct (isnull (Quantity r)) eqn:E; [discriminate|].
  intros H. inversion H; subst k. unfold product_key_eqb.
  now rewrite !str_eqb_refl, float_eqb_refl.
Qed.

(** Every aggregate row is computed from a group that is not empty and
    holds rows of the frame in the order of the frame. *)
Lemma product_grouped_df_groups (product_df : list observation)
      (a : product_aggregate) :
  In a (product_grouped_df product_df) ->
  exists k g,
    a = aggregate (k, g) /\ g <> []
    /\ g = filter (has_key product_key_of product_key_eqb k) product_df.
Proof.
  unfold product_grouped_df. intros H.
  apply in_map_iff in H as ([k g] & Ha & Hin).
  exists k, g. split; [now symmetry|].
  pose proof (groupby_group _ _ _ _ _ _ Hin) as (Hg & r & Hr & Hk).
  split; [|assumption].
  eapply groupby_nonempty; [|exact Hin].
  eapply product_key_eqb_refl; eauto.
Qed.

(** The most recent price of an aggregate row is the price of the last
    row of its group. *)
Lemma most_recent_price_last_row (k : product_key) (g : list observation) :
  Most_Recent_Price (aggregate (k, g)) = fillna0 (last (map Price_per_Unit g) NaN).
Proof. reflexivity. Qed.

(** When the last row of a group carries the latest date, as in a file
    kept in chronological order, its price is the price at the latest
    date. *)
Lemma last_price_when_chronological (g : list observation) (r : observation) :
  g <> [] -> Date_Retrieved (last g r) = max_date g ->
  price_at_latest_date g (last_price g).
Proof.
  intros Hne Hdate. exists (last g r). split; [|split].
  - destruct (exists_last Hne) as (g' & x & ->). rewrite last_last.
    apply in_or_app. right. now left.
  - exact Hdate.
  - unfold last_price. destruct (exists_last Hne) as (g' & x & ->).
    rewrite map_app. cbn [map]. now rewrite !last_last.
Qed.

(** C1, at a file that lists the observation of 2 March before that of
    1 March.  The aggregate row carries the date of 2 March and the price
    of the 1 March observation, 3.99: the price follows the order of the
    rows, and the price at the latest date is 4.99. *)
Theorem most_recent_price_follows_row_order :
  map (fun a => (Most_Recent_Date a, Most_Recent_Price a))
      (product_grouped_df out_of_order)
  = [(Some 20250302%Z, Fin (399 # 100))]
  /\ price_at_latest_date out_of_order (Fin (499 # 100))
  /\ ~ price_at_latest_date out_of_order (Fin (399 # 100)).
Proof.
  split; [reflexivity|]. split.
  - exists (observed 20250302 (499 # 100) 0). split; [now left|]. now split.
  - intros (r & Hr & Hd & Hp).
    destruct Hr as [<-|[<-|[]]]; [discriminate Hp | discriminate Hd].
Qed.

(** ** Promo frequency *)

Lemma hundredths_in_unit (m : Z) :
  (0 <= m <= 100)%Z -> in_unit (Fin (Qred (inject_Z m / 100))).
Proof.
  intros [H0 H1]. unfold in_unit. rewrite Qred_correct.
  unfold Qdiv, Qmult, Qinv, Qle. simpl. lia.
Qed.

Lemma count_ratio (p t : nat) :
  (p <= t)%nat -> (0 < t)%nat ->
  let q := inject_Z (Z.of_nat p) / inject_Z (Z.of_nat t) in
  0 <= q /\ q <= 1
  /\ fillna0 (fdiv (Fin (inject_Z (Z.of_nat p))) (Fin (inject_Z (Z.of_nat t))))
     = Fin (Qred q).
Proof.
  intros Hpt Ht q.
  assert (Hq : 0 < inject_Z (Z.of_nat t))
    by (change 0 with (inject_Z 0); rewrite <- Zlt_Qlt; lia).
  assert (Hp : 0 <= inject_Z (Z.of_nat p))
    by (change 0 with (inject_Z 0); rewrite <- Zle_Qle; lia).
  assert (Hle : inject_Z (Z.of_nat p) <= inject_Z (Z.of_nat t))
    by (rewrite <- Zle_Qle; lia).
  split; [|split].
  - apply Qle_shift_div_l; [assumption|]. now rewrite Qmult_0_l.
  - apply Qle_shift_div_r; [assumption|]. now rewrite Qmult_1_l.
  - unfold fdiv.
    destruct (Qeq_bool (inject_Z (Z.of_nat t)) 0) eqn:E; [|reflexivity].
    apply Qeq_bool_iff in E. rewrite E in Hq. now apply Qlt_irrefl in Hq.
Qed.

(** The promo frequency of [p] promo observations among [t > 0] dated
    ones, [p <= t]: [m] hundredths, [m] between 0 and 100 and within one
    half of [100 p / t] (up to the rounding of the doubles). *)
Lemma promo_frequency_hundredths (p t : nat) :
  (p <= t)%nat -> (0 < t)%nat ->
  exists m : Z,
    promo_frequency p t = Fin (Qred (inject_Z m / 100))
    /\ (0 <= m <= 100)%Z
    /\ near_hundredths m (inject_Z (Z.of_nat p) / inject_Z (Z.of_nat t)).
Proof.
  intros Hpt Ht. destruct (count_ratio Hpt Ht) as (H0 & H1 & E).
  unfold promo_frequency. rewrite E.
  set (q := inject_Z (Z.of_nat p) / inject_Z (Z.of_nat t)) in *.
  assert (H0' : 0 <= Qred q) by now rewrite Qred_correct.
  assert (H1' : Qred q <= 1) by now rewrite Qred_correct.
  destruct (round2_hundredths H0' H1') as (m & Hm & Hb & Hlo & Hhi).
  exists m. split; [exact Hm|]. split; [exact Hb|].
  unfold near_hundredths. rewrite Qred_correct in Hlo, Hhi. now split.
Qed.

Lemma length_dates (g : list observation) :
  List.length (dates g) = List.length (filter dated g).
Proof.
  unfold dates, dated. induction g as [|r t IH]; [reflexivity|].
  cbn [flat_map filter]. destruct (Date_Retrieved r); simpl; now rewrite IH.
Qed.

(** C6.  The two counts of an aggregate row are taken over the rows of
    its group: the promo count is the number of rows with a promo price
    above 0, the total count the number of rows that have a retrieval
    date, and the promo frequency is the column formula on the two.  When
    every row of the group has its date, the total count is the size of the
    group, which is positive; whenever the total count is positive and the
    promo count does not exceed it, the frequency is a number of hundredths
    in [[0, 1]] within half a hundredth of their quotient (23 among 40
    give 0.57, the double nearest to 0.575 lying below it); and it is 0
    when both counts are 0.  At a group of two rows on promotion of which
    one has no date, the counts are 2 and 1 and the frequency is 2; at a
    single undated row on promotion they are 1 and 0 and the frequency is
    infinite. *)
Theorem promo_frequency_counts_dated_rows :
  (forall (product_df : list observation) (a : product_aggregate),
      In a (product_grouped_df product_df) ->
      let g := group_of a product_df in
      let p := List.length (filter promo_observed g) in
      let t := List.length (filter dated g) in
      Promo_Observations a = p /\ Total_Observations a = t
      /\ Promo_Frequency a = promo_frequency p t
      /\ (0 < List.length g)%nat /\ (p <= List.length g)%nat
      /\ (forallb dated g = true -> t = List.length g)
      /\ ((0 < t)%nat -> (p <= t)%nat ->
          in_unit (Promo_Frequency a)
          /\ exists m : Z,
              Promo_Frequency a = Fin (Qred (inject_Z m / 100))
              /\ (0 <= m <= 100)%Z
              /\ near_hundredths m (inject_Z (Z.of_nat p) / inject_Z (Z.of_nat t)))
      /\ (p = 0%nat -> t = 0%nat -> Promo_Frequency a = Fin 0))
  /\ promo_frequency 23 40 = Fin (57 # 100)
  /\ map (fun a => (Promo_Observations a, Total_Observations a, Promo_Frequency a))
         (product_grouped_df undated_promo)
     = [(2%nat, 1%nat, Fin 2)]
  /\ map (fun a => (Promo_Observations a, Total_Observations a, Promo_Frequency a))
         (product_grouped_df [undated (499 # 100) (399 # 100)])
     = [(1%nat, 0%nat, PInf)].
Proof.
  split; [|split; [|split]; reflexivity].
  intros product_df a Ha.
  destruct (product_grouped_df_groups _ _ Ha) as (k & g & -> & Hne & Hg).
  unfold group_of. cbn [agg_key aggregate]. rewrite <- Hg.
  cbn [Promo_Observations Total_Observations Promo_Frequency].
  rewrite length_dates.
  change (fun r : observation => gt0 (Promo_Price r)) with promo_observed.
  set (p := List.length (filter promo_observed g)).
  set (t := List.length (filter dated g)).
  split; [reflexivity|]. split; [reflexivity|]. split; [reflexivity|].
  split; [destruct g; [contradiction | simpl; lia]|].
  split; [apply filter_length_le|].
  split; [|split].
  - intros Hall. unfold t. f_equal. clear -Hall.
    induction g as [|r g' IH]; [reflexivity|].
    simpl in Hall. apply andb_prop in Hall as [Hr Hg'].
    simpl. rewrite Hr. f_equal. now apply IH.
  - intros Ht Hpt.
    destruct (promo_frequency_hundredths Hpt Ht) as (m & Hm & Hb & Hnear).
    split.
    + rewrite Hm. now apply hundredths_in_unit.
    + now exists m.
  - intros -> ->. reflexivity.
Qed.

Lemma promo_frequency_counts_dated_rows_witness :
  exists a,
    In a (product_grouped_df
            [observed 1 (499 # 100) 0; observed 2 (399 # 100) 3;
             observed 3 (499 # 100) 0])
    /\ Promo_Frequency a = Fin (33 # 100)
    /\ in_unit (Promo_Frequency a).
Proof.
  eexists. split; [left; reflexivity|]. split; [reflexivity|].
  refine (proj1 (proj1 (proj2 (proj2 (proj2 (proj2 (proj2 (proj2
           (proj1 promo_frequency_counts_dated_rows
              [observed 1 (499 # 100) 0; observed 2 (399 # 100) 3;
               observed 3 (499 # 100) 0] _ _))))))) _ _)).
  - left. reflexivity.
  - simpl. lia.
  - simpl. lia.
Defined.

End AggregatorProps.

(* ================================================================== *)
(** * Keyword Extractor *)
(* ================================================================== *)

Module KeywordProps.
Import Frame ZipMerge PyFacts FrameFacts.

Lemma lower_is_lowercase (s : str) : lowercase (lower s).
Proof.
  intros c Hc. unfold lower in Hc. apply in_map_iff in Hc as (c' & <- & _).
  apply lower_char_not_upper.
Qed.

(** The tokens of [split] are made of characters of the string. *)
Lemma split_acc_chars (s cur tok : str) (c : ascii) :
  In tok (split_acc cur s) -> In c tok -> In c cur \/ In c s.
Proof.
  revert cur. induction s as [|x t IH]; intros cur Htok Hc; simpl in Htok.
  - destruct cur as [|y cur']; [contradiction|].
    destruct Htok as [<-|[]]. left. now apply in_rev.
  - destruct (is_space x).
    + destruct cur as [|y cur'].
      * destruct (IH [] Htok Hc) as [[]|H]. right. now right.
      * destruct Htok as [<-|Htok].
        -- left. now apply in_rev.
        -- destruct (IH [] Htok Hc) as [[]|H]. right. now right.
    + destruct (IH (x :: cur) Htok Hc) as [[<-|H]|H].
      * right. now left.
      * now left.
      * right. now right.
Qed.

Lemma split_lowercase (s tok : str) :
  lowercase s -> In tok (split s) -> lowercase tok.
Proof.
  intros Hs Htok c Hc.
  destruct (split_acc_chars s [] tok c Htok Hc) as [[]|H]. now apply Hs.
Qed.

(** On a token without capitals, lowering after the strip changes
    nothing. *)
Lemma lower_stripped (tok : str) :
  lowercase tok -> lower (filter is_alpha tok) = filter is_alpha tok.
Proof.
  unfold lower. induction tok as [|c t IH]; intros H; simpl; [reflexivity|].
  assert (Ht : lowercase t) by (intros x Hx; apply H; now right).
  destruct (is_alpha c) eqn:E; simpl.
  - rewrite (IH Ht), lower_char_fixes_lowercase; auto. apply H. now left.
  - now apply IH.
Qed.

Lemma clean_keyword_informative (w : str) :
  (if truthy (if existsb (str_eqb w) excluded then None else Some w)
   then match (if existsb (str_eqb w) excluded then None else Some w) with
        | Some w' => [w']
        | None => []
        end
   else [])
  = if informative w then [w] else [].
Proof.
  unfold informative.
  change (existsb (str_eqb w) ([] :: excluded))
    with (str_eqb w [] || existsb (str_eqb w) excluded).
  destruct (existsb (str_eqb w) excluded).
  - now rewrite orb_true_r.
  - rewrite orb_false_r. destruct w; reflexivity.
Qed.

Lemma cleaned_words_informative (word_list : list str) :
  (forall tok, In tok word_list -> lowercase tok) ->
  cleaned_words word_list
  = filter informative (map (fun tok => filter is_alpha tok) word_list).
Proof.
  unfold cleaned_words. induction word_list as [|tok t IH]; intros H; [reflexivity|].
  cbn [flat_map map filter].
  rewrite IH by (intros x Hx; apply H; now right).
  unfold clean_keyword. rewrite lower_stripped by (apply H; now left).
  rewrite clean_keyword_informative.
  now destruct (informative (filter is_alpha tok)).
Qed.

Lemma keyword_list_tokens (descriptions : list str) :
  fold_left (fun category_list word_list => category_list ++ cleaned_words word_list)
            (map (fun d => split (lower d)) descriptions) []
  = surviving_tokens descriptions.
Proof.
  rewrite fold_left_app_flat_map. simpl app.
  unfold surviving_tokens.
  induction descriptions as [|d t IH]; [reflexivity|].
  simpl. rewrite map_app, filter_app, IH. f_equal.
  apply cleaned_words_informative.
  intros tok Htok. eapply split_lowercase; [apply lower_is_lowercase | exact Htok].
Qed.

Lemma description_list_of_aggregate (product_df : list observation)
      (a : product_aggregate) :
  In a (product_grouped_df product_df) ->
  Description_List a = split (lower (agg_description a)).
Proof.
  intros Ha.
  destruct (AggregatorProps.product_grouped_df_groups _ _ Ha) as (k & g & -> & _).
  unfold aggregate, agg_description. simpl.
  now destruct k as [[[[[[p l] q] u] b] c] d].
Qed.

(** C8, with the token list in place of the mapping.
    A (location, category) group emits a list: the
    description tokens after lowercasing, whitespace splitting and
    stripping of non-letters, in order and with their repetitions, without
    the empty token and without "egg", "eggs" and "bread", and the list
    ["other"] when no token survives.  Each row of the keyword summary
    holds that list for the aggregate rows of its location and category.
    The mapping from token to count is built from such lists by [Counter],
    which gives every word the number of its occurrences. *)
Theorem keyword_list_emits_tokens :
  (forall descriptions : list str,
      emitted_keywords descriptions
      = PyList match surviving_tokens descriptions with
               | [] => [txt "other"]
               | toks => toks
               end)
  /\ (forall (product_df : list observation) (key : str * str) (kws : list str),
        In (key, kws) (keyword_summary (product_grouped_df product_df)) ->
        PyList kws
        = emitted_keywords
            (map agg_description
                 (filter (has_key location_category_key pair_eqb key)
                         (product_grouped_df product_df))))
  /\ (forall (matching_keyword_lists : list (list str)) (w : str),
        get w (keyword_frequency matching_keyword_lists)
        = count_occ (list_eq_dec ascii_dec) (List.concat matching_keyword_lists) w).
Proof.
  split; [|split].
  - intros descriptions.
    unfold emitted_keywords, keyword_list. now rewrite keyword_list_tokens.
  - intros product_df key kws H. unfold keyword_summary in H.
    apply in_map_iff in H as ([k g] & E & Hin). simpl in E.
    inversion E; subst key kws; clear E.
    apply groupby_group in Hin as (-> & _).
    unfold emitted_keywords. rewrite map_map. do 2 f_equal.
    apply map_ext_in. intros a Ha. apply filter_In in Ha as [Ha _].
    now apply description_list_of_aggregate with (product_df := product_df).
  - intros lists w. unfold keyword_frequency.
    rewrite get_Counter, (fold_left_app_flat_map (fun l => l)). simpl app.
    now rewrite flat_map_concat_map, map_id.
Qed.

Lemma keyword_list_emits_tokens_witness :
  let product_df := [described "0001" "Brown Eggs"; described "0002" "Brown Bread"] in
  exists kws,
    In (txt "09700336", txt "Bakery", kws)
       (keyword_summary (product_grouped_df product_df))
    /\ PyList kws = PyList [txt "brown"; txt "brown"].
Proof.
  intros product_df. eexists. split; [left; reflexivity|].
  rewrite (proj1 (proj2 keyword_list_emits_tokens) product_df
             (txt "09700336", txt "Bakery") _ (or_introl eq_refl)).
  reflexivity.
Defined.

(** C8, at the group of "Brown Eggs" and "Brown Bread": the emitted value
    is the list with "brown" twice, where the specification describes the
    mapping of "brown" to 2. *)
Lemma keyword_list_is_not_a_mapping :
  let group := [txt "Brown Eggs"; txt "Brown Bread"] in
  emitted_keywords group = PyList [txt "brown"; txt "brown"]
  /\ keywords_as_specified group = PyDict [(txt "brown", 2%nat)]
  /\ emitted_keywords group <> keywords_as_specified group.
Proof.
  split; [reflexivity|]. split; [reflexivity|]. discriminate.
Qed.

End KeywordProps.

(* ================================================================== *)
(** * Spatial/ZIP Joiner *)
(* ================================================================== *)

Module ZipJoinProps.
Import Frame ZipJoin PyFacts FrameFacts.

(** ** Order of the joins *)


Lemma location_group_zips (location_df : list location) (zip : str) :
  In zip (map zl_ZIP_Code (location_groups location_df))
  <-> exists l, In l location_df /\ ZIP_Code l = Str zip.
Proof.
  unfold location_groups. rewrite map_map. simpl. split.
  - intros H. apply in_map_iff in H as ([k g] & <- & Hin).
    apply groupby_group in Hin as (_ & l & Hl & Hk).
    exists l. split; [assumption|]. unfold location_zip in Hk.
    destruct (ZIP_Code l); inversion Hk. reflexivity.
  - intros (l & Hl & Hz).
    assert (Hk : location_zip l = Some zip) by (unfold location_zip; now rewrite Hz).
    destruct (groupby_covers location_zip str_eqb str_leb location_df l
                (str_eqb_refl zip) Hl Hk) as (k' & g & Hin & Heq).
    apply str_eqb_eq in Heq. subst k'.
    apply in_map_iff. now exists (zip, g).
Qed.




(** ** Completeness of the final table *)

Lemma existsb_none_false (flags : list bool) :
  existsb (fun b => b) flags = false -> Forall (fun null => null = false) flags.
Proof.
  induction flags as [|b t IH]; simpl; intros H; constructor.
  - now destruct b.
  - apply IH. now destruct b.
Qed.

Lemma existsb_repeat_true (before after : list bool) (n : nat) :
  existsb (fun b => b) (before ++ repeat true (S n) ++ after) = true.
Proof.
  rewrite existsb_app. simpl. now rewrite orb_true_r.
Qed.

Lemma no_null_has_census_and_product (shapefile : bool) (r : final_row) :
  existsb (fun b => b) (row_nulls shapefile r) = false ->
  exists c p, snd (fst r) = Some c /\ snd r = Some p.
Proof.
  destruct r as [[z [c|]] [p|]]; unfold row_nulls; simpl fst; simpl snd; intros H.
  - now exists c, p.
  - exfalso. unfold product_nulls, product_width in H.
    rewrite app_assoc, <- (app_nil_r (repeat true 9)), existsb_repeat_true in H.
    discriminate.
  - exfalso. unfold census_nulls, census_width in H.
    destruct shapefile; simpl Nat.add in H;
      rewrite existsb_repeat_true in H; discriminate.
  - exfalso. unfold census_nulls, census_width in H.
    destruct shapefile; simpl Nat.add in H;
      rewrite existsb_repeat_true in H; discriminate.
Qed.

(** C9.  Every row of the final table is a row of the last merge with no
    null in any column, so it carries census and product columns; and a
    row of the last merge with a null in some column is not in the final
    table. *)
Theorem final_rows_have_no_null :
  forall (census_df : list Census.census_pct)
         (shapefile : option (list boundary))
         (location_df : list location)
         (zip_product_complete : list zip_product),
    let complete :=
      zip_product_location_complete
        (zip_location_summary location_df
           (census_with_boundaries census_df shapefile))
        zip_product_complete in
    let final :=
      zip_product_location_filtered census_df shapefile location_df
        zip_product_complete in
    let nulls := row_nulls (negb (is_none shapefile)) in
    (forall r, In r final ->
       In r complete
       /\ Forall (fun null => null = false) (nulls r)
       /\ exists c p, snd (fst r) = Some c /\ snd r = Some p)
    /\ (forall r, In r complete -> In true (nulls r) -> ~ In r final).
Proof.
  intros census_df shapefile location_df zip_product_complete complete final nulls.
  assert (Hfinal : forall r, In r final ->
             In r complete /\ existsb (fun b => b) (nulls r) = false).
  { intros r Hr. unfold final, zip_product_location_filtered, dropna in Hr.
    apply filter_In in Hr as [Hin Hn]. apply negb_true_iff in Hn. now split. }
  split.
  - intros r Hr. destruct (Hfinal r Hr) as [Hin Hn].
    split; [assumption|]. split; [now apply existsb_none_false|].
    now apply no_null_has_census_and_product in Hn.
  - intros r Hin Hnull Hr. destruct (Hfinal r Hr) as [_ Hn].
    assert (Ht : existsb (fun b => b) (nulls r) = true)
      by (apply existsb_exists; now exists true).
    congruence.
Qed.

Lemma final_rows_have_no_null_witness :
  exists r,
    In r (zip_product_location_filtered sample_census None sample_locations
            [eggs_in "45202"; eggs_in "45203"])
    /\ summary_zip (fst r) = txt "45202"
    /\ Forall (fun null => null = false) (row_nulls false r).
Proof.
  eexists. split; [left; reflexivity|]. split; [reflexivity|].
  refine (proj1 (proj2 (proj1 (final_rows_have_no_null
                                 sample_census None sample_locations
                                 [eggs_in "45202"; eggs_in "45203"]) _ _))).
  left. reflexivity.
Defined.

End ZipJoinProps.

(* ================================================================== *)
(** * Further properties of the cleaning scripts *)
(* ================================================================== *)

Module CleaningProps.
Import Census ProductCleaner PyFacts Statements.

(** ** Census Normalizer *)

Lemma fillna0_not_null (x : pyfloat) : isnull (fillna0 x) = false.
Proof. now destruct x. Qed.

(** The normalizer returns one row per input row, in the order of the
    input, and none of its cells is null: the cells that the final
    [dropna] of the merge script inspects are all present. *)
Theorem census_output_has_no_null :
  forall (census_df : list census_raw) (out : list census_pct),
    process_census_data (Some census_df) = Some out ->
    List.length out = List.length census_df
    /\ forall o, In o out ->
         Forall (fun null => null = false) (ZipJoin.census_pct_nulls o).
Proof.
  intros census_df out H. simpl in H. inversion H; subst out; clear H.
  split; [apply length_map|].
  intros o Ho. apply in_map_iff in Ho as (r & <- & _).
  unfold ZipJoin.census_pct_nulls, process_census_row. simpl.
  repeat (constructor; [first [reflexivity | apply fillna0_not_null]|]).
  constructor.
Qed.

Lemma census_output_has_no_null_witness :
  Forall (fun null => null = false)
         (ZipJoin.census_pct_nulls (process_census_row (sample_row 0 0))).
Proof.
  apply (proj2 (@census_output_has_no_null
                  [sample_row 0 0] [process_census_row (sample_row 0 0)] eq_refl)).
  now left.
Defined.

(** ** Classification *)

Lemma starts_with_prefix (pat s : str) :
  starts_with pat s = true <-> exists post, s = pat ++ post.
Proof.
  revert s. induction pat as [|a pat IH]; intros s; simpl.
  - split; [intros _; now exists s | reflexivity].
  - destruct s as [|b s]; [split; [discriminate | intros (post & H); discriminate]|].
    destruct (ascii_dec a b) as [->|N].
    + rewrite IH. split; intros (post & H); exists post; [now rewrite H | now inversion H].
    + split; [discriminate | intros (post & H); inversion H; congruence].
Qed.

(** [pat in s] holds exactly when [pat] occurs somewhere in [s]. *)
Lemma contains_occurrence (pat s : str) :
  contains pat s = true <-> exists pre post, s = pre ++ pat ++ post.
Proof.
  induction s as [|c t IH].
  - simpl. rewrite orb_false_r, starts_with_prefix. split.
    + intros (post & H). now exists [], post.
    + intros (pre & post & H). destruct pre as [|x pre]; [now exists post|discriminate].
  - change (contains pat (c :: t))
      with (starts_with pat (c :: t) || contains pat t).
    rewrite orb_true_iff, starts_with_prefix, IH. split.
    + intros [(post & H)|(pre & post & H)].
      * now exists [], post.
      * exists (c :: pre), post. now rewrite H.
    + intros (pre & post & H). destruct pre as [|x pre].
      * left. now exists post.
      * right. inversion H. now exists pre, post.
Qed.

Lemma lower_app (a b : str) : lower (a ++ b) = lower a ++ lower b.
Proof. apply map_app. Qed.

Lemma contains_lower_mentions (word d : str) :
  contains word (lower d) = true <-> mentions word d.
Proof.
  rewrite contains_occurrence. unfold mentions, lower. split.
  - intros (pre & post & H).
    apply map_eq_app in H as (p & rest & -> & Hp & Hrest).
    apply map_eq_app in Hrest as (w & q & -> & Hw & Hq).
    now exists p, w, q.
  - intros (pre & w & post & -> & Hw).
    exists (map lower_char pre), (map lower_char post).
    now rewrite !map_app, <- Hw.
Qed.

(** The category is decided by substrings alone, "egg" before "bread": a
    description that mentions "egg" in any casing, anywhere (inside a
    longer word too), is an [Egg]; one that does not but mentions "bread"
    is a [Bread]; every other description is [Other]. *)
Theorem classify_product_by_substring :
  forall d : str,
    (mentions (txt "egg") d -> classify_product (Str d) = Ok Egg)
    /\ (~ mentions (txt "egg") d -> mentions (txt "bread") d ->
        classify_product (Str d) = Ok Bread)
    /\ (~ mentions (txt "egg") d -> ~ mentions (txt "bread") d ->
        classify_product (Str d) = Ok Other).
Proof.
  intros d. unfold classify_product.
  destruct (contains (txt "egg") (lower d)) eqn:Eegg;
    destruct (contains (txt "bread") (lower d)) eqn:Ebread;
    repeat split; intros; try reflexivity;
    try (exfalso; match goal with
                  | H : ~ mentions _ _ |- _ =>
                      apply H; now apply contains_lower_mentions
                  end);
    try (match goal with
         | H : mentions (txt "egg") _ |- _ =>
             apply contains_lower_mentions in H; congruence
         | H : mentions (txt "bread") _ |- _ =>
             apply contains_lower_mentions in H; congruence
         end).
Qed.

Lemma classify_product_by_substring_witness :
  classify_product (Str (txt "Whole Wheat Bread with EGGplant")) = Ok Egg.
Proof.
  apply (proj1 (classify_product_by_substring
                  (txt "Whole Wheat Bread with EGGplant"))).
  exists (txt "Whole Wheat Bread with "), (txt "EGG"), (txt "plant").
  split; reflexivity.
Defined.

(** ** Size parsing *)

Lemma take_while_holds A (p : A -> bool) (l : list A) :
  forallb p (take_while p l) = true.
Proof.
  induction l as [|a t IH]; simpl; [reflexivity|].
  destruct (p a) eqn:E; simpl; [now rewrite E | reflexivity].
Qed.

Lemma digit_value_range (c : ascii) :
  is_digit c = true -> (0 <= digit_value c <= 9)%Z.
Proof.
  unfold is_digit, between, digit_value. intros H.
  apply andb_prop in H as [H1 H2].
  apply Nat.leb_le in H1, H2. lia.
Qed.

Lemma digits_value_nonneg (ds : str) :
  forallb is_digit ds = true -> (0 <= digits_value ds)%Z.
Proof.
  unfold digits_value.
  assert (G : forall acc, (0 <= acc)%Z -> forallb is_digit ds = true ->
                          (0 <= fold_left (fun a c => 10 * a + digit_value c) ds acc)%Z).
  { induction ds as [|c t IH]; intros acc Hacc H; cbn [fold_left]; [assumption|].
    simpl in H. apply andb_prop in H as [Hc Ht].
    apply IH; [|assumption]. pose proof (digit_value_range c Hc). lia. }
  apply G. lia.
Qed.

Lemma float_of_token_nonneg (tok : str) (v : pyfloat) :
  float_of_token tok = Ok v -> exists q, v = Fin q /\ 0 <= q.
Proof.
  unfold float_of_token.
  pose proof (take_while_holds is_digit tok) as Hip.
  set (ip := take_while is_digit tok) in *.
  destruct (drop_while is_digit tok) as [|c fp].
  - destruct ip as [|x ip'] eqn:E; [discriminate|]. intros H. injection H as <-.
    eexists. split; [reflexivity|].
    rewrite <- E in *. change 0 with (inject_Z 0). rewrite <- Zle_Qle.
    now apply digits_value_nonneg.
  - destruct (is_dot c && forallb is_digit fp
              && negb (Nat.eqb (List.length ip + List.length fp) 0)) eqn:E;
      [|discriminate].
    apply andb_prop in E as [E _]. apply andb_prop in E as [_ Hfp].
    intros H.
    exists (Qred (inject_Z (digits_value ip)
                  + inject_Z (digits_value fp)
                    / inject_Z (10 ^ Z.of_nat (List.length fp)))).
    split; [congruence|].
    rewrite Qred_correct.
    pose proof (digits_value_nonneg ip Hip) as Hi.
    pose proof (digits_value_nonneg fp Hfp) as Hf.
    assert (Hpow : (0 < 10 ^ Z.of_nat (List.length fp))%Z)
      by (apply Z.pow_pos_nonneg; lia).
    rewrite <- (Qplus_0_l 0). apply Qplus_le_compat.
    + change 0 with (inject_Z 0). now rewrite <- Zle_Qle.
    + apply Qle_shift_div_l.
      * change 0 with (inject_Z 0). now rewrite <- Zlt_Qlt.
      * rewrite Qmult_0_l. change 0 with (inject_Z 0). now rewrite <- Zle_Qle.
Qed.

Lemma search_numeric_skips (pre s : str) :
  no_char numeric_char pre -> search_numeric (pre ++ s) = search_numeric s.
Proof.
  unfold no_char. induction pre as [|c t IH]; intros H; [reflexivity|].
  simpl in H. apply andb_prop in H as [Hc Ht]. apply negb_true_iff in Hc.
  cbn [app search_numeric]. rewrite Hc. now apply IH.
Qed.

(** What stands before the first digit or dot of a size is not read, a
    minus sign included: "-5 oz" gives the quantity of "5 oz".  So a
    quantity that is returned is the sentinel -1 or is not negative. *)
Theorem extract_quantity_sign :
  (forall pre s : str,
      no_char numeric_char pre ->
      extract_quantity (Str (pre ++ s)) = extract_quantity (Str s))
  /\ (forall (size : cell) (v : pyfloat),
        extract_quantity size = Ok v -> v = Fin (-1) \/ not_negative v).
Proof.
  split.
  - intros pre s H. unfold extract_quantity. cbn [str_of_cell].
    now rewrite search_numeric_skips.
  - intros size v. unfold extract_quantity.
    destruct (search_numeric (str_of_cell size)) as [tok|].
    + intros H. destruct (float_of_token_nonneg _ H) as (q & -> & Hq).
      right. exact Hq.
    + intros H. left. congruence.
Qed.

Lemma extract_quantity_sign_witness :
  extract_quantity (Str (txt "-5 oz")) = extract_quantity (Str (txt "5 oz"))
  /\ extract_quantity (Str (txt "-5 oz")) = Ok (Fin 5).
Proof.
  split; [|reflexivity].
  apply (proj1 extract_quantity_sign (txt "-") (txt "5 oz")). reflexivity.
Defined.

Lemma search_uom_starts_with_letter (s m : str) :
  search_uom s = Some m ->
  exists c rest, m = c :: rest /\ is_alpha c = true.
Proof.
  induction s as [|c t IH]; [discriminate|].
  change (search_uom (c :: t))
    with (if is_alpha c && at_end (drop_while not_newline (c :: t))
          then Some (take_while not_newline (c :: t)) else search_uom t).
  destruct (is_alpha c) eqn:Ec; [|exact IH].
  destruct (at_end (drop_while not_newline (c :: t))); [|exact IH].
  intros H. inversion H. simpl. unfold not_newline at 1.
  rewrite (alpha_not_newline _ Ec). simpl. now exists c, (take_while not_newline t).
Qed.

Lemma drop_while_app_last A (p : A -> bool) (l : list A) (c : A) :
  p c = false -> drop_while p (l ++ [c]) = drop_while p l ++ [c].
Proof.
  intros Hc. induction l as [|a t IH]; simpl; [now rewrite Hc|].
  destruct (p a); [exact IH | reflexivity].
Qed.

Lemma drop_while_head A (p : A -> bool) (l : list A) (d : A) :
  drop_while p l <> [] -> p (hd d (drop_while p l)) = false.
Proof.
  induction l as [|a t IH]; simpl; [contradiction|].
  destruct (p a) eqn:E; [exact IH | intros _; exact E].
Qed.

Lemma strip_from_letter (c : ascii) (rest : str) :
  is_alpha c = true -> unit_text (strip (c :: rest)).
Proof.
  intros Hc. pose proof (alpha_not_space _ Hc) as Hs.
  unfold strip. simpl drop_while. rewrite Hs.
  change (rev (c :: rest)) with (rev rest ++ [c]).
  rewrite drop_while_app_last by assumption.
  set (kept := drop_while is_space (rev rest)).
  rewrite rev_app_distr. simpl.
  exists c, (rev kept). split; [reflexivity|]. split; [assumption|].
  destruct kept as [|h k] eqn:E; [simpl; assumption|].
  change (c :: rev (h :: k)) with ((c :: rev k) ++ [h]).
  rewrite last_last.
  pose proof (@drop_while_head _ is_space (rev rest) c) as Hh.
  fold kept in Hh. rewrite E in Hh. apply Hh. discriminate.
Qed.

(** Whatever the size cell holds, the unit of measure begins with a letter
    and carries no trailing whitespace; in particular it is never empty. *)
Theorem extract_uom_is_text :
  forall size : cell, unit_text (extract_uom size).
Proof.
  intros size. unfold extract_uom.
  destruct (search_uom (str_of_cell size)) as [m|] eqn:E.
  - destruct (search_uom_starts_with_letter _ E) as (c & rest & -> & Hc).
    now apply strip_from_letter.
  - exists "u"%char, (txt "nit"). repeat split; reflexivity.
Qed.

(** ** Deduplication and the cleaned table *)

Lemma str_eqb_sym (a b : str) : str_eqb a b = str_eqb b a.
Proof.
  unfold str_eqb.
  destruct (list_eq_dec ascii_dec a b), (list_eq_dec ascii_dec b a); congruence.
Qed.

Lemma same_observation_sym (a b : product) :
  same_observation a b = same_observation b a.
Proof.
  unfold same_observation.
  assert (C : forall x y, cell_eqb x y = cell_eqb y x)
    by (intros [x|] [y|]; simpl; auto using str_eqb_sym).
  now rewrite (C (Product_ID a)), (C (Date_Retrieved a)),
    (str_eqb_sym (Location_ID a)).
Qed.

Lemma drop_duplicates_from_distinct (seen rows : list product) :
  distinct_observations (drop_duplicates_from seen rows)
  /\ forall r s, In r (drop_duplicates_from seen rows) -> In s seen ->
                 same_observation r s = false.
Proof.
  unfold distinct_observations.
  revert seen. induction rows as [|x t IH]; intros seen; simpl.
  - split; [constructor | contradiction].
  - destruct (existsb (same_observation x) seen) eqn:E; [apply IH|].
    destruct (IH (x :: seen)) as [Hd Hs]. split.
    + constructor; [|assumption].
      apply Forall_forall. intros r Hr.
      rewrite same_observation_sym. apply Hs; [assumption | now left].
    + intros r s [<-|Hr] Hin.
      * destruct (same_observation x s) eqn:F; [|reflexivity].
        assert (existsb (same_observation x) seen = true)
          by (apply existsb_exists; now exists s).
        congruence.
      * apply Hs; [assumption | now right].
Qed.

Lemma drop_duplicates_from_length (seen rows : list product) :
  (List.length (drop_duplicates_from seen rows) <= List.length rows)%nat.
Proof.
  revert seen. induction rows as [|x t IH]; intros seen; simpl; [lia|].
  destruct (existsb (same_observation x) seen); simpl.
  - specialize (IH seen). lia.
  - specialize (IH (x :: seen)). lia.
Qed.

Lemma computed_rows_length (parse_number : str -> option pyfloat)
      (df : list raw_product) (rows : list product) :
  computed_rows parse_number df = Ok rows -> List.length rows = List.length df.
Proof.
  intros H. apply ProductCleanerProps.computed_rows_from_input in H.
  symmetry. eapply Forall2_length; eauto.
Qed.

(** The cleaned table holds at most one row per (product, location, date):
    no two of its rows agree on the three, and it has no more rows than the
    raw table. *)
Theorem cleaned_table_has_distinct_observations :
  forall (parse_number : str -> option pyfloat)
         (df : list raw_product) (out : list product),
    clean_product_data parse_number (Some df) = Ok (Some out) ->
    distinct_observations out
    /\ (List.length out <= List.length df)%nat.
Proof.
  intros parse_number df out H. unfold clean_product_data in H.
  destruct df as [|raw df]; [discriminate|].
  destruct (computed_rows parse_number (raw :: df)) as [rows|] eqn:E;
    [|discriminate].
  simpl in H. inversion H; subst out; clear H. split.
  - apply drop_duplicates_from_distinct.
  - unfold drop_duplicates.
    pose proof (drop_duplicates_from_length []
                  (filter (fun r => negb (inactive_items_mask r)) rows)).
    pose proof (filter_length_le (fun r => negb (inactive_items_mask r)) rows).
    apply computed_rows_length in E. lia.
Qed.

Lemma cleaned_table_has_distinct_observations_witness :
  exists out,
    clean_product_data (fun _ => None) (Some repeated_reading) = Ok (Some out)
    /\ map Stock_Level out = [Str (txt "HIGH")]
    /\ distinct_observations out.
Proof.
  eexists. split; [reflexivity|]. split; [reflexivity|].
  refine (proj1 (@cleaned_table_has_distinct_observations
                   (fun _ => None) repeated_reading _ eq_refl)).
Defined.

Lemma mapM_In A B (f : A -> result B) (l : list A) (bs : list B) (b : B) :
  mapM f l = Ok bs -> In b bs -> exists a, In a l /\ f a = Ok b.
Proof.
  revert bs. induction l as [|a t IH]; simpl; intros bs H Hb.
  - inversion H; subst. contradiction.
  - destruct (f a) as [b'|e] eqn:Ea; simpl in H; [|discriminate].
    destruct (mapM f t) as [bs'|e]; simpl in H; [|discriminate].
    inversion H; subst. destruct Hb as [<-|Hb].
    + exists a. split; [now left | assumption].
    + destruct (IH bs' eq_refl Hb) as (a' & Ha' & Hf).
      exists a'. split; [now right | assumption].
Qed.

Lemma assemble_In (parse_number : str -> option pyfloat) (df : list raw_product)
      (ids : list str) (cats : list category) (qtys : list pyfloat) (r : product) :
  In r (assemble parse_number df ids cats qtys) ->
  exists raw,
    In raw df /\ In (Location_ID r) ids /\ In (Quantity r) qtys
    /\ UOM r = extract_uom (raw_Size raw)
    /\ Regular_Price r = normalize_price parse_number (raw_Regular_Price raw)
    /\ Promo_Price r = normalize_price parse_number (raw_Promo_Price raw).
Proof.
  revert ids cats qtys. induction df as [|raw df IH]; intros ids cats qtys H.
  - destruct H.
  - destruct ids as [|i ids]; [destruct H|].
    destruct cats as [|c cats]; [destruct H|].
    destruct qtys as [|q qtys]; [destruct H|].
    simpl in H. destruct H as [<-|H].
    + exists raw. simpl. now repeat split; try left.
    + destruct (IH _ _ _ H) as (raw' & H1 & H2 & H3 & H4).
      exists raw'. repeat split; try (now right); apply H4.
Qed.

(** Every row of the cleaned table has a location ID of at least 8
    characters, regular and promo prices that are not null, a quantity that
    is the sentinel -1 or not negative, and a unit of measure that is text;
    the per-unit prices carry no such guarantee. *)
Theorem cleaned_rows_are_well_formed :
  forall (parse_number : str -> option pyfloat)
         (df : list raw_product) (out : list product),
    clean_product_data parse_number (Some df) = Ok (Some out) ->
    forall r, In r out ->
      (8 <= List.length (Location_ID r))%nat
      /\ isnull (Regular_Price r) = false
      /\ isnull (Promo_Price r) = false
      /\ quantity_value (Quantity r)
      /\ unit_text (UOM r).
Proof.
  intros parse_number df out H r Hr. unfold clean_product_data in H.
  destruct df as [|raw0 df0]; [discriminate|].
  set (df := raw0 :: df0) in *.
  destruct (computed_rows parse_number df) as [rows|] eqn:E; [|discriminate].
  simpl in H. inversion H; subst out; clear H.
  apply ProductCleanerProps.drop_duplicates_from_subset in Hr.
  apply filter_In in Hr as [Hr _].
  unfold computed_rows in E.
  destruct (mapM pad_location_id (map raw_Location_ID df)) as [ids|] eqn:Ei;
    [|discriminate].
  destruct (mapM classify_product (map raw_Description df)) as [cats|] eqn:Ec;
    [|discriminate].
  destruct (mapM extract_quantity (map raw_Size df)) as [qtys|] eqn:Eq;
    [|discriminate].
  unfold bind in E.
  assert (Hrows : rows = assemble parse_number df ids cats qtys) by congruence.
  subst rows. clear E.
  destruct (assemble_In _ _ _ _ _ _ Hr) as (raw & _ & Hid & Hq & -> & -> & ->).
  destruct (mapM_In _ _ _ Ei Hid) as (loc & _ & Hpad).
  destruct (mapM_In _ _ _ Eq Hq) as (size & _ & Hsize).
  split; [|split; [|split; [|split]]].
  - destruct loc as [s|]; [|discriminate]. simpl in Hpad.
    inversion Hpad as [Hz]. rewrite ProductCleanerProps.zfill_length. lia.
  - apply ProductCleanerProps.normalize_price_total.
  - apply ProductCleanerProps.normalize_price_total.
  - unfold extract_quantity in Hsize. unfold quantity_value.
    destruct (search_numeric (str_of_cell size)) as [tok|].
    + destruct (float_of_token_nonneg _ Hsize) as (q & -> & Hq0).
      exists q. split; [reflexivity | now right].
    + inversion Hsize. exists (-1). split; [reflexivity | left; reflexivity].
  - unfold extract_uom.
    destruct (search_uom (str_of_cell (raw_Size raw))) as [m|] eqn:Eu.
    + destruct (search_uom_starts_with_letter _ Eu) as (c & rest & -> & Hc).
      now apply strip_from_letter.
    + exists "u"%char, (txt "nit"). repeat split; reflexivity.
Qed.

Lemma cleaned_rows_are_well_formed_witness :
  exists r,
    clean_product_data (fun _ => None) (Some repeated_reading) = Ok (Some [r])
    /\ Location_ID r = txt "09700336"
    /\ unit_text (UOM r).
Proof.
  eexists. split; [reflexivity|]. split; [reflexivity|].
  refine (proj2 (proj2 (proj2 (proj2
           (@cleaned_rows_are_well_formed (fun _ => None) repeated_reading _
              eq_refl _ (or_introl eq_refl)))))).
Defined.

End CleaningProps.

(* ================================================================== *)
(** * Further properties of grouping and aggregation *)
(* ================================================================== *)

Module GroupingProps.
Import Frame PyFacts FrameFacts Statements.

Lemma list_sum_zero A (l : list A) : list_sum (map (fun _ => 0%nat) l) = 0%nat.
Proof. induction l; simpl; auto. Qed.

Lemma list_sum_map_add A (f g : A -> nat) (l : list A) :
  list_sum (map (fun x => (f x + g x)%nat) l)
  = (list_sum (map f l) + list_sum (map g l))%nat.
Proof. induction l as [|a t IH]; simpl; [reflexivity | rewrite IH; lia]. Qed.

Lemma list_sum_indicator A (p : A -> bool) (l : list A) :
  list_sum (map (fun x => if p x then 1 else 0)%nat l) = List.length (filter p l).
Proof.
  induction l as [|a t IH]; simpl; [reflexivity|].
  destruct (p a); simpl; now rewrite IH.
Qed.

Section Partition.
Variables A K : Type.
Variable key : A -> option K.
Variable eqb leb : K -> K -> bool.
Hypothesis eqb_sym : forall a b, eqb a b = eqb b a.
Hypothesis eqb_trans : forall a b c, eqb a b = true -> eqb b c = true -> eqb a c = true.

Lemma filter_insert_sorted (p : K -> bool) (k : K) (ks : list K) :
  List.length (filter p (insert_sorted leb k ks))
  = ((if p k then 1 else 0) + List.length (filter p ks))%nat.
Proof.
  induction ks as [|k' t IH]; simpl.
  - destruct (p k); reflexivity.
  - destruct (leb k k'); simpl.
    + destruct (p k), (p k'); simpl; lia.
    + destruct (p k'); simpl; rewrite IH; lia.
Qed.

Lemma filter_sort_keys (p : K -> bool) (ks : list K) :
  List.length (filter p (sort_keys leb ks)) = List.length (filter p ks).
Proof.
  induction ks as [|k t IH]; simpl; [reflexivity|].
  rewrite filter_insert_sorted, IH. destruct (p k); reflexivity.
Qed.

(** After [dedup], every key of the list has exactly one representative. *)
Lemma one_representative (x : K) (ks : list K) :
  (forall z, In z ks -> eqb z z = true) ->
  List.length (filter (eqb x) (dedup eqb ks))
  = if existsb (eqb x) ks then 1%nat else 0%nat.
Proof.
  induction ks as [|k t IH]; intros Hrefl; [reflexivity|].
  assert (Ht : forall z, In z t -> eqb z z = true)
    by (intros z Hz; apply Hrefl; now right).
  specialize (IH Ht).
  change (dedup eqb (k :: t))
    with (if existsb (eqb k) (dedup eqb t) then dedup eqb t else k :: dedup eqb t).
  simpl existsb.
  destruct (existsb (eqb k) (dedup eqb t)) eqn:Ek.
  - rewrite IH. destruct (eqb x k) eqn:Exk; [|reflexivity].
    apply existsb_exists in Ek as (y & Hy & Hky).
    assert (Hx : existsb (eqb x) t = true).
    { apply existsb_exists. exists y. split; [now apply (in_dedup eqb leb)|].
      eapply eqb_trans; eauto. }
    now rewrite Hx.
  - simpl filter. destruct (eqb x k) eqn:Exk; simpl; [|exact IH].
    rewrite IH. destruct (existsb (eqb x) t) eqn:Ext; [|reflexivity].
    exfalso. apply existsb_exists in Ext as (z & Hz & Hxz).
    destruct (dedup_represents eqb leb z t (Ht z Hz) Hz) as (y & Hy & Hzy).
    assert (Hky : eqb k y = true).
    { apply eqb_trans with (b := x); [now rewrite eqb_sym|].
      eapply eqb_trans; eauto. }
    assert (existsb (eqb k) (dedup eqb t) = true)
      by (apply existsb_exists; now exists y).
    congruence.
Qed.

Lemma group_sizes_by_row (ks : list K) (rows : list A) :
  list_sum (map (fun k => List.length (filter (has_key key eqb k) rows)) ks)
  = list_sum (map (fun r => List.length (filter (fun k => has_key key eqb k r) ks))
                  rows).
Proof.
  induction rows as [|r t IH]; simpl.
  - apply list_sum_zero.
  - rewrite <- IH, <- list_sum_indicator, <- list_sum_map_add.
    f_equal. apply map_ext. intros k.
    destruct (has_key key eqb k r); reflexivity.
Qed.

(** The groups partition the keyed rows: a frame whose rows are rows of the
    grouped frame has, over all groups, as many rows as it has keyed
    rows. *)
Lemma groups_partition (rows part : list A) :
  (forall r k, In r rows -> key r = Some k -> eqb k k = true) ->
  (forall r, In r part -> In r rows) ->
  list_sum (map (fun kg => List.length (filter (has_key key eqb (fst kg)) part))
                (groupby key eqb leb rows))
  = List.length (filter (keyed key) part).
Proof.
  intros Hrefl Hsub. unfold groupby. rewrite map_map. simpl fst.
  rewrite group_sizes_by_row, <- list_sum_indicator.
  f_equal. apply map_ext_in. intros r Hr. unfold keyed, has_key.
  destruct (key r) as [k|] eqn:Ek.
  - rewrite filter_sort_keys, one_representative.
    + assert (E : existsb (eqb k) (keys_of key rows) = true).
      { apply existsb_exists. exists k. split.
        - apply in_keys_of. exists r. auto.
        - eapply Hrefl; eauto. }
      now rewrite E.
    + intros z Hz. apply in_keys_of in Hz as (r' & Hr' & Hk'). eapply Hrefl; eauto.
  - clear. induction (sort_keys leb (dedup eqb (keys_of key rows))); auto.
Qed.

End Partition.

End GroupingProps.

Module AggregationProps.
Import Frame ZipMerge PyFacts FrameFacts Statements GroupingProps.

Lemma float_eqb_sym (x y : pyfloat) : float_eqb x y = float_eqb y x.
Proof.
  destruct x as [a| | |], y as [b| | |]; simpl; try reflexivity.
  destruct (Qeq_bool a b) eqn:E, (Qeq_bool b a) eqn:F; try reflexivity.
  - apply Qeq_bool_iff in E. symmetry in E. apply Qeq_bool_iff in E. congruence.
  - apply Qeq_bool_iff in F. symmetry in F. apply Qeq_bool_iff in F. congruence.
Qed.

Lemma float_eqb_trans (x y z : pyfloat) :
  float_eqb x y = true -> float_eqb y z = true -> float_eqb x z = true.
Proof.
  destruct x as [a| | |], y as [b| | |], z as [c| | |]; simpl;
    try discriminate; try reflexivity.
  intros H1 H2. apply Qeq_bool_iff in H1, H2. apply Qeq_bool_iff.
  now rewrite H1.
Qed.

Lemma product_key_eqb_sym (a b : product_key) :
  product_key_eqb a b = product_key_eqb b a.
Proof.
  destruct a as [[[[[[p l] q] u] br] c] d], b as [[[[[[p2 l2] q2] u2] br2] c2] d2].
  unfold product_key_eqb.
  now rewrite (CleaningProps.str_eqb_sym p), (CleaningProps.str_eqb_sym l),
    (float_eqb_sym q), (CleaningProps.str_eqb_sym u),
    (CleaningProps.str_eqb_sym br), (CleaningProps.str_eqb_sym c),
    (CleaningProps.str_eqb_sym d).
Qed.

Lemma product_key_eqb_trans (a b c : product_key) :
  product_key_eqb a b = true -> product_key_eqb b c = true ->
  product_key_eqb a c = true.
Proof.
  destruct a as [[[[[[p l] q] u] br] ca] d], b as [[[[[[p2 l2] q2] u2] br2] ca2] d2],
    c as [[[[[[p3 l3] q3] u3] br3] ca3] d3].
  unfold product_key_eqb. rewrite !andb_true_iff, !str_eqb_eq.
  intros [[[[[[-> ->] Hq] ->] ->] ->] ->] [[[[[[-> ->] Hq'] ->] ->] ->] ->].
  repeat split; try reflexivity. eapply float_eqb_trans; eauto.
Qed.

Lemma filter_comm A (p q : A -> bool) (l : list A) :
  filter p (filter q l) = filter q (filter p l).
Proof.
  induction l as [|a t IH]; simpl; [reflexivity|].
  destruct (p a) eqn:P, (q a) eqn:Q; simpl; rewrite ?P, ?Q, IH; reflexivity.
Qed.

(** The rows that [groupby] keeps are those without a null in a key
    column. *)
Lemma keyed_has_all_keys (r : observation) :
  keyed product_key_of r = has_all_keys r.
Proof.
  unfold keyed, has_all_keys, product_key_of, notna.
  destruct (Product_ID r), (Location_ID r), (UOM r), (Brand r),
    (Product_Category r), (Description r), (isnull (Quantity r)); reflexivity.
Qed.

(** Aggregation counts every observation that has a group once.  Over all
    rows of the aggregate table the total counts add up to the number of
    observations that have no null in a key column and have a date, and
    the promo counts to the number of those without a null key whose promo
    price is above zero.  An observation with a null in one of the seven
    key columns is in no group. *)
Theorem aggregation_counts_every_observation :
  forall product_df : list observation,
    list_sum (map Total_Observations (product_grouped_df product_df))
    = List.length (filter dated (filter has_all_keys product_df))
    /\ list_sum (map Promo_Observations (product_grouped_df product_df))
       = List.length (filter promo_observed (filter has_all_keys product_df))
    /\ (forall a r, In a (product_grouped_df product_df) ->
                    In r (group_of a product_df) -> has_all_keys r = true).
Proof.
  intros product_df.
  assert (Hrefl : forall r k, In r product_df -> product_key_of r = Some k ->
                              product_key_eqb k k = true)
    by (intros r k _; apply AggregatorProps.product_key_eqb_refl).
  assert (Hkeyed : forall (p : observation -> bool) (l : list observation),
             filter (keyed product_key_of) (filter p l)
             = filter p (filter has_all_keys l)).
  { intros p l. rewrite filter_comm. f_equal. apply filter_ext.
    apply keyed_has_all_keys. }
  unfold product_grouped_df. rewrite !map_map. split; [|split].
  - rewrite <- Hkeyed.
    rewrite <- (groups_partition product_key_of product_key_eqb product_key_leb
                  product_key_eqb_sym product_key_eqb_trans
                  product_df (filter dated product_df) Hrefl).
    + f_equal. apply map_ext_in. intros [k g] Hin.
      apply groupby_group in Hin as (-> & _). simpl.
      now rewrite AggregatorProps.length_dates, filter_comm.
    + intros r Hr. now apply filter_In in Hr.
  - rewrite <- Hkeyed.
    rewrite <- (groups_partition product_key_of product_key_eqb product_key_leb
                  product_key_eqb_sym product_key_eqb_trans
                  product_df (filter promo_observed product_df) Hrefl).
    + f_equal. apply map_ext_in. intros [k g] Hin.
      apply groupby_group in Hin as (-> & _). simpl.
      now rewrite filter_comm.
    + intros r Hr. now apply filter_In in Hr.
  - intros a r _ Hr. unfold group_of in Hr. apply filter_In in Hr as [_ Hk].
    rewrite <- keyed_has_all_keys. unfold keyed. unfold has_key in Hk.
    now destruct (product_key_of r).
Qed.

Lemma fold_max_bounds (ds : list Z) (d : Z) :
  (d <= fold_left Z.max ds d)%Z
  /\ (forall x, In x ds -> (x <= fold_left Z.max ds d)%Z)
  /\ In (fold_left Z.max ds d) (d :: ds).
Proof.
  revert d. induction ds as [|y t IH]; intros d; simpl.
  - split; [lia|]. split; [contradiction | now left].
  - destruct (IH (Z.max d y)) as (H1 & H2 & H3). split; [lia|]. split.
    + intros x [<-|Hx]; [lia | now apply H2].
    + destruct H3 as [H3|H3]; [|now right; right].
      rewrite <- H3. destruct (Z.max_spec d y) as [[_ ->]|[_ ->]]; auto.
Qed.

Lemma in_dates (g : list observation) (x : Z) :
  In x (dates g) <-> exists r, In r g /\ Date_Retrieved r = Some x.
Proof.
  unfold dates. rewrite in_flat_map. split.
  - intros (r & Hr & Hx). exists r. split; [assumption|].
    destruct (Date_Retrieved r) as [d|]; [|contradiction].
    destruct Hx as [->|[]]. reflexivity.
  - intros (r & Hr & E). exists r. split; [assumption|]. rewrite E. now left.
Qed.

(** The most recent date of an aggregate row is the latest retrieval date
    of its group: some observation of the group carries it, and none
    carries a later one.  Rows without a date are skipped, and the date is
    NaT only when no row of the group has one. *)
Theorem most_recent_date_is_latest :
  forall (product_df : list observation) (a : product_aggregate),
    In a (product_grouped_df product_df) ->
    (exists r, In r (group_of a product_df)
               /\ Date_Retrieved r = Most_Recent_Date a)
    /\ (forall r, In r (group_of a product_df) ->
                  not_later (Date_Retrieved r) (Most_Recent_Date a)).
Proof.
  intros product_df a Ha.
  destruct (AggregatorProps.product_grouped_df_groups _ _ Ha)
    as (k & g & -> & Hne & Hg).
  unfold group_of. simpl agg_key. rewrite <- Hg. simpl Most_Recent_Date.
  unfold max_date. pose proof (in_dates g) as Hd.
  destruct (dates g) as [|d ds].
  - assert (Hnone : forall r, In r g -> Date_Retrieved r = None).
    { intros r Hr. destruct (Date_Retrieved r) as [x|] eqn:E; [|reflexivity].
      destruct (proj2 (Hd x)). now exists r. }
    split.
    + destruct g as [|r0 g']; [contradiction|].
      exists r0. split; [now left | apply Hnone; now left].
    + intros r Hr. now rewrite (Hnone r Hr).
  - destruct (fold_max_bounds ds d) as (H1 & H2 & H3).
    split.
    + apply Hd in H3 as (r & Hr & E). now exists r.
    + intros r Hr. destruct (Date_Retrieved r) as [x|] eqn:E; [|exact I].
      assert (Hx : In x (d :: ds)) by (apply Hd; now exists r).
      destruct Hx as [<-|Hx]; [exact H1 | now apply H2].
Qed.

Lemma most_recent_date_is_latest_witness :
  exists a,
    In a (product_grouped_df out_of_order)
    /\ forall r, In r (group_of a out_of_order) ->
                 not_later (Date_Retrieved r) (Most_Recent_Date a).
Proof.
  eexists. split; [left; reflexivity|].
  refine (proj2 (@most_recent_date_is_latest out_of_order _ _)).
  left. reflexivity.
Defined.

Lemma gt0_Fin (q : Q) : gt0 (Fin q) = true <-> 0 < q.
Proof.
  simpl. rewrite negb_true_iff. split.
  - intros H. apply Qnot_le_lt. intros L. apply Qle_bool_iff in L. congruence.
  - intros H. destruct (Qle_bool q 0) eqn:E; [|reflexivity].
    apply Qle_bool_iff in E. exfalso. now apply (Qlt_not_le 0 q).
Qed.

Lemma gt0_not_negative (x : pyfloat) : gt0 x = true -> not_negative x.
Proof.
  destruct x as [q| | |]; try discriminate; [|intros _; exact I].
  intros H. apply gt0_Fin in H. now apply Qlt_le_weak.
Qed.

Lemma fadd_positive (acc y : pyfloat) :
  not_negative acc -> gt0 y = true -> gt0 (fadd acc y) = true.
Proof.
  destruct acc as [a| | |], y as [b| | |]; simpl not_negative;
    try contradiction; try discriminate; try reflexivity.
  intros Ha Hb. apply gt0_Fin in Hb. unfold fadd. apply gt0_Fin.
  rewrite Qred_correct, (Qplus_comm a b). rewrite <- (Qplus_0_l 0).
  now apply Qplus_lt_le_compat.
Qed.

Lemma sum_positive (ys : list pyfloat) (acc : pyfloat) :
  gt0 acc = true -> forallb gt0 ys = true ->
  gt0 (fold_left fadd ys acc) = true.
Proof.
  revert acc. induction ys as [|y t IH]; intros acc Hacc H; simpl; [assumption|].
  simpl in H. apply andb_prop in H as [Hy Ht].
  apply IH; [|assumption]. apply fadd_positive; [|assumption].
  now apply gt0_not_negative.
Qed.

Lemma mean_positive (ys : list pyfloat) :
  ys <> [] -> forallb gt0 ys = true -> gt0 (fillna0 (fmean ys)) = true.
Proof.
  intros Hne H. unfold fmean.
  assert (Hkeep : filter (fun x => negb (isnull x)) ys = ys).
  { clear Hne. induction ys as [|y t IH]; [reflexivity|].
    simpl in H. apply andb_prop in H as [Hy Ht]. simpl.
    destruct y; try discriminate; simpl; now rewrite IH. }
  rewrite Hkeep. destruct ys as [|y t]; [contradiction|].
  simpl in H. apply andb_prop in H as [Hy Ht].
  assert (Hsum : gt0 (fold_left fadd (y :: t) (Fin 0)) = true).
  { cbn [fold_left]. apply sum_positive; [|assumption].
    apply fadd_positive; [simpl; apply Qle_refl | assumption]. }
  set (n := List.length (y :: t)).
  assert (Hn : (0 < Z.of_nat n)%Z) by (unfold n; simpl; lia).
  assert (Hq : 0 < inject_Z (Z.of_nat n))
    by (change 0 with (inject_Z 0); now rewrite <- Zlt_Qlt).
  destruct (fold_left fadd (y :: t) (Fin 0)) as [s| | |];
    try discriminate.
  - apply gt0_Fin in Hsum. unfold fdiv.
    destruct (Qeq_bool (inject_Z (Z.of_nat n)) 0) eqn:E.
    + apply Qeq_bool_iff in E. rewrite E in Hq. now apply Qlt_irrefl in Hq.
    + unfold fillna0. apply gt0_Fin. rewrite Qred_correct.
      apply Qlt_shift_div_l; [assumption|]. now rewrite Qmult_0_l.
  - unfold fdiv, Qneg_bool.
    assert (E : Qle_bool 0 (inject_Z (Z.of_nat n)) = true)
      by (apply Qle_bool_iff; now apply Qlt_le_weak).
    now rewrite E.
Qed.

Lemma filter_none A (p : A -> bool) (l : list A) :
  (forall x, In x l -> p x = false) -> filter p l = [].
Proof.
  induction l as [|a t IH]; intros H; simpl; [reflexivity|].
  rewrite (H a (or_introl eq_refl)). apply IH. intros x Hx. apply H. now right.
Qed.

(** The average promo price of an aggregate row is exactly 0 when no
    observation of its group has a promo price per unit above zero, and is
    above zero as soon as one has. *)
Theorem promo_price_avg_zero_without_promo :
  forall (product_df : list observation) (a : product_aggregate),
    In a (product_grouped_df product_df) ->
    ((forall r, In r (group_of a product_df) ->
                gt0 (Promo_Price_per_Unit r) = false) ->
     Promo_Price_Avg a = Fin 0)
    /\ ((exists r, In r (group_of a product_df)
                   /\ gt0 (Promo_Price_per_Unit r) = true) ->
        positive_price (Promo_Price_Avg a)).
Proof.
  intros product_df a Ha.
  destruct (AggregatorProps.product_grouped_df_groups _ _ Ha)
    as (k & g & -> & Hne & Hg).
  unfold group_of. simpl agg_key. rewrite <- Hg. simpl Promo_Price_Avg. split.
  - intros Hnone. rewrite filter_none; [reflexivity|].
    intros x Hx. apply in_map_iff in Hx as (r & <- & Hr). now apply Hnone.
  - intros (r & Hr & Hpos). apply mean_positive.
    + intros E.
      assert (Hin : In (Promo_Price_per_Unit r)
                       (filter gt0 (map Promo_Price_per_Unit g)))
        by (apply filter_In; split; [now apply in_map | assumption]).
      now rewrite E in Hin.
    + apply forallb_forall. intros x Hx. now apply filter_In in Hx.
Qed.

Lemma promo_price_avg_zero_without_promo_witness :
  exists a,
    In a (product_grouped_df out_of_order) /\ Promo_Price_Avg a = Fin 0.
Proof.
  eexists. split; [left; reflexivity|].
  refine (proj1 (@promo_price_avg_zero_without_promo out_of_order _ _) _).
  - left. reflexivity.
  - intros r [<-|[<-|[]]]; reflexivity.
Defined.

End AggregationProps.

(* ================================================================== *)
(** * Further properties of the keyword lists and the joins *)
(* ================================================================== *)

Module KeywordListProps.
Import Frame ZipMerge PyFacts FrameFacts Statements.

Lemma lower_char_of_letter (c : ascii) :
  is_alpha c = true -> is_lower (lower_char c) = true.
Proof. by_code c. Qed.

Lemma clean_keyword_is_keyword (word w : str) :
  clean_keyword word = Some w -> w <> [] -> keyword w.
Proof.
  unfold clean_keyword.
  destruct (existsb (str_eqb (lower (filter is_alpha word))) excluded) eqn:E;
    [discriminate|].
  intros H Hne. injection H as <-. split; [assumption|]. split.
  - unfold lower. apply forallb_forall. intros c Hc.
    apply in_map_iff in Hc as (c' & <- & Hc').
    apply filter_In in Hc' as [_ Hc']. now apply lower_char_of_letter.
  - intros Hin.
    assert (existsb (str_eqb (lower (filter is_alpha word))) excluded = true)
      by (apply existsb_exists; eexists; split; [exact Hin | apply str_eqb_refl]).
    congruence.
Qed.

Lemma cleaned_words_are_keywords (word_list : list str) (w : str) :
  In w (cleaned_words word_list) -> keyword w.
Proof.
  unfold cleaned_words. intros H. apply in_flat_map in H as (word & _ & H).
  destruct (clean_keyword word) as [[|c w']|] eqn:E; simpl in H;
    try contradiction.
  destruct H as [<-|[]]. apply (clean_keyword_is_keyword word E). discriminate.
Qed.

(** Whatever the descriptions are, the keyword list of a group is not
    empty, and each of its entries is a non-empty word of lower-case letters
    a to z other than "egg", "eggs" and "bread"; the sentinel "other" is
    such a word. *)
Theorem keyword_list_holds_keywords :
  forall description_lists : list (list str),
    keyword_list description_lists <> []
    /\ (forall w, In w (keyword_list description_lists) -> keyword w).
Proof.
  intros description_lists. unfold keyword_list.
  rewrite fold_left_app_flat_map. simpl app.
  destruct (flat_map cleaned_words description_lists) as [|x l] eqn:E.
  - split; [discriminate|].
    intros w [<-|[]]. repeat split; try discriminate.
    intros [H|[H|[H|[]]]]; discriminate.
  - split; [discriminate|].
    intros w Hw. rewrite <- E in Hw.
    apply in_flat_map in Hw as (wl & _ & Hw).
    now apply cleaned_words_are_keywords with (word_list := wl).
Qed.

Lemma keyword_list_holds_keywords_witness :
  keyword (txt "large")
  /\ keyword_list [[txt "Large"; txt "EGGS,"; txt "12ct"]] = [txt "large"; txt "ct"].
Proof.
  split; [|reflexivity].
  apply (proj2 (keyword_list_holds_keywords
                  [[txt "Large"; txt "EGGS,"; txt "12ct"]])).
  left. reflexivity.
Defined.

(** ** Counter *)

Lemma counter_add_keys (w : str) (d : list (str * nat)) (k : str) :
  In k (map fst (counter_add w d)) <-> k = w \/ In k (map fst d).
Proof.
  induction d as [|[k' n] t IH]; simpl.
  - intuition.
  - destruct (str_eqb k' w) eqn:E; simpl.
    + apply str_eqb_eq in E. subst. intuition.
    + rewrite IH. intuition.
Qed.

Lemma counter_add_NoDup (w : str) (d : list (str * nat)) :
  NoDup (map fst d) -> NoDup (map fst (counter_add w d)).
Proof.
  induction d as [|[k n] t IH]; simpl; intros H.
  - constructor; [intros [] | constructor].
  - inversion H as [|? ? Hk Ht]; subst.
    destruct (str_eqb k w) eqn:E; simpl.
    + now constructor.
    + constructor; [|now apply IH].
      rewrite counter_add_keys. intros [->|Hin]; [|contradiction].
      rewrite str_eqb_refl in E. discriminate.
Qed.

Lemma counter_add_total (w : str) (d : list (str * nat)) :
  list_sum (map snd (counter_add w d)) = S (list_sum (map snd d)).
Proof.
  induction d as [|[k n] t IH]; simpl; [reflexivity|].
  destruct (str_eqb k w); simpl; [reflexivity | rewrite IH; lia].
Qed.

Lemma Counter_invariant (words : list str) (d : list (str * nat)) :
  NoDup (map fst d) ->
  let c := fold_left (fun d w => counter_add w d) words d in
  NoDup (map fst c)
  /\ list_sum (map snd c) = (list_sum (map snd d) + List.length words)%nat
  /\ forall k, In k (map fst c) <-> In k (map fst d) \/ In k words.
Proof.
  revert d. induction words as [|w t IH]; intros d Hd; simpl.
  - split; [assumption|]. split; [lia | intuition].
  - destruct (IH (counter_add w d) (counter_add_NoDup w d Hd)) as (H1 & H2 & H3).
    split; [assumption|]. split.
    + rewrite H2, counter_add_total. lia.
    + intros k. rewrite H3, counter_add_keys. intuition.
Qed.

Lemma Counter_entry (words : list str) (k : str) (n : nat) :
  In (k, n) (Counter words) ->
  n = count_occ (list_eq_dec ascii_dec) words k /\ (1 <= n)%nat.
Proof.
  unfold Counter.
  destruct (Counter_invariant words [] (NoDup_nil _)) as (H1 & _ & H3).
  fold (Counter words) in *. intros Hin.
  assert (Hget : get k (Counter words) = n).
  { clear H3. induction (Counter words) as [|[k' n'] t IH]; [destruct Hin|].
    simpl in *. inversion H1 as [|? ? Hk Ht]; subst.
    destruct Hin as [E|Hin].
    - inversion E; subst. now rewrite str_eqb_refl.
    - destruct (str_eqb k' k) eqn:E; [|now apply IH].
      apply str_eqb_eq in E. subst k'. exfalso. apply Hk.
      apply in_map_iff. now exists (k, n). }
  rewrite get_Counter in Hget. split; [now symmetry|].
  assert (Hk : In k words).
  { destruct (proj1 (H3 k)) as [[]|Hk]; [|exact Hk].
    apply in_map_iff. now exists (k, n). }
  subst n. now apply count_occ_In.
Qed.

Lemma flatten_concat (lists : list (list str)) (acc : list str) :
  fold_left (fun all_keywords l => all_keywords ++ l) lists acc
  = acc ++ List.concat lists.
Proof.
  revert acc. induction lists as [|l t IH]; intros acc; simpl.
  - now rewrite app_nil_r.
  - now rewrite IH, app_assoc.
Qed.

Lemma count_occ_concat (lists : list (list str)) (k : str) :
  count_occ (list_eq_dec ascii_dec) (List.concat lists) k
  = list_sum (map (fun l => count_occ (list_eq_dec ascii_dec) l k) lists).
Proof.
  induction lists as [|l t IH]; [reflexivity|].
  cbn [List.concat map]. rewrite count_occ_app.
  exact (f_equal (Nat.add _) IH).
Qed.

(** A [Counter] made from a list has one entry per distinct word of the
    list, each with the number of occurrences of its word, which is at
    least 1, and the counts add up to the length of the list. *)
Theorem Counter_counts_every_word :
  forall words : list str,
    NoDup (map fst (Counter words))
    /\ (forall k, In k (map fst (Counter words)) <-> In k words)
    /\ (forall k n, In (k, n) (Counter words) ->
          n = count_occ (list_eq_dec ascii_dec) words k /\ (1 <= n)%nat)
    /\ list_sum (map snd (Counter words)) = List.length words.
Proof.
  intros words.
  destruct (Counter_invariant words [] (NoDup_nil _)) as (H1 & H2 & H3).
  fold (Counter words) in *.
  split; [assumption|]. split; [intros k; rewrite H3; simpl; tauto|].
  split; [|exact H2].
  intros k n. apply Counter_entry.
Qed.

Lemma Counter_counts_every_word_witness :
  In (txt "ct") (map fst (Counter [txt "ct"; txt "large"; txt "ct"])).
Proof.
  apply (proj2 (proj1 (proj2 (Counter_counts_every_word
                                [txt "ct"; txt "large"; txt "ct"]))
                      (txt "ct"))).
  left. reflexivity.
Defined.

(** The keyword frequency of a ZIP code and category counts every keyword
    of every matching keyword list: it has one entry per distinct keyword of
    the lists, the count of a keyword is the sum of its occurrences over the
    lists, and the counts add up to the total length of the lists.  It is
    empty only when every matching list is. *)
Theorem keyword_frequency_counts_matching_lists :
  forall matching : list (list str),
    let d := keyword_frequency matching in
    NoDup (map fst d)
    /\ (forall k, In k (map fst d) <-> exists l, In l matching /\ In k l)
    /\ (forall k n, In (k, n) d ->
          n = list_sum (map (fun l => count_occ (list_eq_dec ascii_dec) l k)
                            matching)
          /\ (1 <= n)%nat)
    /\ list_sum (map snd d) = list_sum (map (@List.length str) matching).
Proof.
  intros matching d. unfold d, keyword_frequency.
  rewrite flatten_concat, app_nil_l.
  set (words := List.concat matching).
  destruct (Counter_invariant words [] (NoDup_nil _)) as (H1 & H2 & H3).
  fold (Counter words) in *.
  split; [assumption|]. split; [|split].
  - intros k. rewrite H3. simpl. unfold words. rewrite in_concat.
    split.
    + intros [[]|(l & Hl & Hk)]. now exists l.
    + intros (l & Hl & Hk). right. now exists l.
  - intros k n Hin. apply Counter_entry in Hin as [-> Hn]. split; [|exact Hn].
    apply count_occ_concat.
  - rewrite H2. simpl. unfold words. rewrite length_concat. reflexivity.
Qed.

Lemma keyword_frequency_counts_matching_lists_witness :
  In (txt "large")
     (map fst (keyword_frequency [[txt "large"; txt "ct"]; [txt "large"]])).
Proof.
  apply (proj2 (proj1 (proj2 (keyword_frequency_counts_matching_lists
                                [[txt "large"; txt "ct"]; [txt "large"]]))
                      (txt "large"))).
  exists [txt "large"]. split; [right; left; reflexivity | left; reflexivity].
Defined.

End KeywordListProps.

Module JoinProps.
Import Frame ZipJoin PyFacts FrameFacts Statements GroupingProps.

Lemma NoDup_dedup (ks : list str) : NoDup (dedup str_eqb ks).
Proof.
  induction ks as [|k t IH]; simpl; [constructor|].
  destruct (existsb (str_eqb k) (dedup str_eqb t)) eqn:E; [assumption|].
  constructor; [|assumption]. intros Hin.
  assert (existsb (str_eqb k) (dedup str_eqb t) = true)
    by (apply existsb_exists; exists k; split; [assumption | apply str_eqb_refl]).
  congruence.
Qed.

Lemma NoDup_insert_sorted (k : str) (ks : list str) :
  ~ In k ks -> NoDup ks -> NoDup (insert_sorted str_leb k ks).
Proof.
  induction ks as [|k' t IH]; simpl; intros Hk Hnd.
  - constructor; [intros [] | constructor].
  - destruct (str_leb k k'); [now constructor|].
    inversion Hnd as [|? ? Hk' Ht]; subst. constructor.
    + rewrite (in_insert_sorted str_eqb str_leb). intros [->|Hin]; [|contradiction].
      apply Hk. now left.
    + apply IH; [|assumption]. intros Hin. apply Hk. now right.
Qed.

Lemma NoDup_sort_keys (ks : list str) :
  NoDup ks -> NoDup (sort_keys str_leb ks).
Proof.
  induction ks as [|k t IH]; simpl; intros H; [constructor|].
  inversion H as [|? ? Hk Ht]; subst.
  apply NoDup_insert_sorted; [|now apply IH].
  now rewrite (in_sort_keys str_eqb str_leb).
Qed.

Lemma has_key_in_zip (zip : str) (l : location) :
  has_key location_zip str_eqb zip l = in_zip zip l.
Proof. unfold has_key, location_zip, in_zip. now destruct (ZIP_Code l). Qed.

Lemma location_groups_NoDup (location_df : list location) :
  NoDup (map zl_ZIP_Code (location_groups location_df)).
Proof.
  unfold location_groups. rewrite map_map. unfold groupby. rewrite map_map.
  simpl. rewrite map_id. apply NoDup_sort_keys, NoDup_dedup.
Qed.

(** The location summary has one row per ZIP code of a geocoded store.
    Its store count is the number of stores of that ZIP code and is at
    least 1, the counts of its chain distribution add up to it, and over
    all rows the store counts add up to the number of stores that have a
    ZIP code: stores whose geocoding failed are in no row. *)
Theorem location_summary_counts_stores :
  forall location_df : list location,
    NoDup (map zl_ZIP_Code (location_groups location_df))
    /\ (forall z, In z (location_groups location_df) ->
          Store_Count z = List.length (filter (in_zip (zl_ZIP_Code z)) location_df)
          /\ (1 <= Store_Count z)%nat
          /\ list_sum (map snd (Store_Chain_Distribution z)) = Store_Count z)
    /\ list_sum (map Store_Count (location_groups location_df))
       = List.length (filter zip_present location_df).
Proof.
  intros location_df. split; [apply location_groups_NoDup|].
  unfold location_groups. split.
  - intros z Hz. apply in_map_iff in Hz as ([k g] & <- & Hin).
    pose proof (groupby_nonempty _ _ _ _ _ (str_eqb_refl k) Hin) as Hne.
    apply groupby_group in Hin as (-> & _).
    unfold summarize_zip. simpl.
    rewrite (filter_ext _ _ (has_key_in_zip k)) in *.
    split; [reflexivity|]. split.
    + destruct (filter (in_zip k) location_df); [contradiction | simpl; lia].
    + unfold count_store_chains, Counter.
      destruct (KeywordListProps.Counter_invariant
                  (map Chain_Name (filter (in_zip k) location_df)) []
                  (NoDup_nil _)) as (_ & H & _).
      rewrite H. simpl. apply length_map.
  - rewrite map_map.
    assert (E : filter zip_present location_df
                = filter (keyed location_zip) location_df).
    { apply filter_ext. intros l. unfold zip_present, keyed, location_zip.
      now destruct (ZIP_Code l). }
    rewrite E.
    rewrite <- (groups_partition location_zip str_eqb str_leb
                  CleaningProps.str_eqb_sym
                  (fun a b c H1 H2 =>
                     proj2 (str_eqb_eq a c)
                           (eq_trans (proj1 (str_eqb_eq a b) H1)
                                     (proj1 (str_eqb_eq b c) H2)))
                  location_df location_df
                  (fun r k _ _ => str_eqb_refl k) (fun r H => H)).
    f_equal. apply map_ext_in. intros [k g] Hin.
    apply groupby_group in Hin as (-> & _). reflexivity.
Qed.

Lemma location_summary_counts_stores_witness :
  exists z,
    In z (location_groups sample_locations) /\ (1 <= Store_Count z)%nat.
Proof.
  eexists. split; [left; reflexivity|].
  refine (proj1 (proj2 (proj1 (proj2 (location_summary_counts_stores
                                        sample_locations)) _ _))).
  left. reflexivity.
Defined.

Lemma matches_at_most_one R (right_on : R -> str) (right : list R) (k : str) :
  NoDup (map right_on right) ->
  (List.length (filter (fun r => str_eqb (right_on r) k) right) <= 1)%nat.
Proof.
  induction right as [|r t IH]; simpl; intros H; [lia|].
  inversion H as [|? ? Hr Ht]; subst.
  destruct (str_eqb (right_on r) k) eqn:E; [|now apply IH].
  apply str_eqb_eq in E. simpl.
  rewrite (AggregationProps.filter_none); [simpl; lia|].
  intros x Hx. apply str_eqb_neq. intros Hk. apply Hr.
  rewrite E, <- Hk. now apply in_map.
Qed.

(** A left merge onto a table whose keys are distinct returns the left rows
    once each, in order. *)
Lemma merge_left_unique L R (left_on : L -> str) (right_on : R -> str)
      (left : list L) (right : list R) :
  NoDup (map right_on right) ->
  map fst (merge_left left_on right_on left right) = left.
Proof.
  intros H. unfold merge_left. induction left as [|l t IH]; [reflexivity|].
  cbn [flat_map]. rewrite map_app, IH.
  change (l :: t) with ([l] ++ t). f_equal.
  pose proof (matches_at_most_one right_on right (left_on l) H) as Hm.
  destruct (filter (fun r => str_eqb (right_on r) (left_on l)) right)
    as [|m [|m' ms]]; simpl in *; [reflexivity | reflexivity | lia].
Qed.

Lemma merge_left_length L R (left_on : L -> str) (right_on : R -> str)
      (left : list L) (right : list R) :
  (List.length left <= List.length (merge_left left_on right_on left right))%nat.
Proof.
  unfold merge_left. induction left as [|l t IH]; [simpl; lia|].
  cbn [flat_map]. rewrite length_app.
  set (rest := flat_map _ t) in *.
  destruct (filter (fun r => str_eqb (right_on r) (left_on l)) right);
    [simpl; lia|]. rewrite length_map. simpl. lia.
Qed.

(** Steps (a) and (b) never lose a row of their left table, and when no ZIP
    code occurs twice in the census table nor in the shapefile they
    return exactly one row per ZIP group of the locations. *)
Theorem one_row_per_location_zip :
  forall (census_df : list Census.census_pct)
         (shapefile : option (list boundary))
         (location_df : list location),
    let census_acc := census_with_boundaries census_df shapefile in
    let summary := zip_location_summary location_df census_acc in
    (List.length census_df <= List.length census_acc)%nat
    /\ (List.length (location_groups location_df) <= List.length summary)%nat
    /\ (NoDup (map Census.pct_ZIP_Code census_df) ->
        match shapefile with
        | Some zip_boundaries => NoDup (map ZCTA5CE20 zip_boundaries)
        | None => True
        end ->
        map census census_acc = census_df
        /\ map fst summary = location_groups location_df
        /\ NoDup (map summary_zip summary)).
Proof.
  intros census_df shapefile location_df census_acc summary.
  split; [|split].
  - unfold census_acc, census_with_boundaries.
    destruct shapefile; rewrite length_map; [apply merge_left_length | lia].
  - apply merge_left_length.
  - intros Hc Hs.
    assert (Hacc : map census census_acc = census_df).
    { unfold census_acc, census_with_boundaries. destruct shapefile.
      - rewrite map_map. simpl. now apply merge_left_unique.
      - rewrite map_map. simpl. apply map_id. }
    assert (Hrows : map fst summary = location_groups location_df).
    { apply merge_left_unique.
      replace (map census_zip census_acc)
        with (map Census.pct_ZIP_Code (map census census_acc))
        by (now rewrite map_map).
      now rewrite Hacc. }
    split; [assumption|]. split; [assumption|].
    replace (map summary_zip summary) with (map zl_ZIP_Code (map fst summary))
      by (now rewrite map_map).
    rewrite Hrows. apply location_groups_NoDup.
Qed.

Lemma one_row_per_location_zip_witness :
  NoDup (map summary_zip
             (zip_location_summary sample_locations
                (census_with_boundaries sample_census None))).
Proof.
  apply (proj2 (proj2 (one_row_per_location_zip
                         sample_census None sample_locations))).
  - repeat constructor; simpl; intuition discriminate.
  - exact I.
Defined.

Lemma census_acc_from_census (census_df : list Census.census_pct)
      (shapefile : option (list boundary)) (c : census_row) :
  In c (census_with_boundaries census_df shapefile) -> In (census c) census_df.
Proof.
  unfold census_with_boundaries. destruct shapefile as [zip_boundaries|]; intros H.
  - apply in_map_iff in H as ([x o] & <- & Hin).
    now apply in_merge_left in Hin as [Hx _].
  - apply in_map_iff in H as (x & <- & Hin). exact Hin.
Qed.

(** Every row of the final table joins three sources on one ZIP code: a
    store geocoded to it, a census row of it, and a product summary row of
    it.  A ZIP code that lacks any of the three has no row in the final
    table. *)
Theorem final_rows_join_three_sources :
  forall (census_df : list Census.census_pct)
         (shapefile : option (list boundary))
         (location_df : list location)
         (zip_product_complete : list zip_product)
         (r : final_row),
    In r (zip_product_location_filtered census_df shapefile location_df
            zip_product_complete) ->
    let zip := summary_zip (fst r) in
    (exists l, In l location_df /\ ZIP_Code l = Str zip)
    /\ (exists c, In c census_df /\ Census.pct_ZIP_Code c = zip)
    /\ (exists p, In p zip_product_complete /\ zp_ZIP_Code p = zip).
Proof.
  intros census_df shapefile location_df zip_product_complete r Hr zip.
  unfold zip_product_location_filtered, dropna in Hr.
  apply filter_In in Hr as [Hin Hn]. apply negb_true_iff in Hn.
  destruct (ZipJoinProps.no_null_has_census_and_product _ _ Hn)
    as (c & p & Hc & Hp).
  destruct r as [[z oc] op]. simpl in Hc, Hp. subst oc op.
  unfold zip_product_location_complete in Hin.
  apply in_merge_left in Hin as [Hs [Hpin Hpz]].
  unfold zip_location_summary in Hs.
  apply in_merge_left in Hs as [Hz [Hcin Hcz]].
  unfold zip, summary_zip. simpl in *. split; [|split].
  - apply ZipJoinProps.location_group_zips. now apply in_map.
  - exists (census c). split; [|exact Hcz].
    eapply census_acc_from_census; eauto.
  - now exists p.
Qed.

Lemma final_rows_join_three_sources_witness :
  exists r,
    In r (zip_product_location_filtered sample_census None sample_locations
            [eggs_in "45202"; eggs_in "45203"])
    /\ exists l, In l sample_locations
                 /\ ZIP_Code l = Str (summary_zip (fst r)).
Proof.
  eexists. split; [left; reflexivity|].
  refine (proj1 (@final_rows_join_three_sources
                   sample_census None sample_locations
                   [eggs_in "45202"; eggs_in "45203"] _ _)).
  left. reflexivity.
Defined.

End JoinProps.

(* ================================================================== *)
(** * Location Resolver *)
(* ================================================================== *)

Module LocationResolverProps.
Import LocationResolver PyFacts.

Lemma raised_calls_step (gmaps : service) (address : str) (start n : nat) :
  raised_calls gmaps address start (S n)
  = ((if raised (gmaps start address) then 1 else 0)
     + raised_calls gmaps address (S start) n)%nat.
Proof.
  unfold raised_calls. simpl seq. simpl filter.
  destruct (raised (gmaps start address)); reflexivity.
Qed.

Lemma attempt_trace (gmaps : service) (address : str) (n : nat) :
  forall (e e' : effects) (r : option (pyfloat * pyfloat * option str)),
    attempt gmaps address n e = (r, e') ->
    (calls e <= calls e' <= calls e + n)%nat
    /\ slept e' = (slept e
                   + raised_calls gmaps address (calls e) (calls e' - calls e))%nat
    /\ match r with
       | None =>
           calls e' = (calls e + n)%nat
           /\ forall i, (calls e <= i < calls e + n)%nat ->
                        unanswered (gmaps i address) = true
       | Some (la, lo, z) =>
           exists g rest,
             (calls e < calls e')%nat
             /\ gmaps (calls e' - 1)%nat address = Returns (g :: rest)
             /\ la = lat g /\ lo = lng g
             /\ z = postal_code (address_components g)
             /\ forall i, (calls e <= i < calls e' - 1)%nat ->
                          unanswered (gmaps i address) = true
       end.
Proof.
  induction n as [|n IH]; intros e e' r H; simpl in H.
  - inversion H; subst. split; [lia|]. split.
    + rewrite Nat.sub_diag. unfold raised_calls. simpl. lia.
    + split; [lia | intros i Hi; lia].
  - destruct (gmaps (calls e) address) as [|[|g rest]] eqn:E.
    + (* the call raised *)
      destruct (IH _ _ _ H) as (Hc & Hs & Hr). simpl in Hc, Hs, Hr.
      split; [lia|]. split.
      * replace (calls e' - calls e)%nat with (S (calls e' - S (calls e))) by lia.
        rewrite raised_calls_step, E, Hs. simpl. lia.
      * destruct r as [[[la lo] z]|].
        -- destruct Hr as (g & rest & H1 & H2 & H3 & H4 & H5 & H6).
           exists g, rest. repeat split; try assumption; try lia.
           intros i Hi. destruct (Nat.eq_dec i (calls e)) as [->|N].
           ++ now rewrite E.
           ++ apply H6. lia.
        -- destruct Hr as [H1 H2]. split; [lia|].
           intros i Hi. destruct (Nat.eq_dec i (calls e)) as [->|N].
           ++ now rewrite E.
           ++ apply H2. lia.
    + (* the call returned no result *)
      destruct (IH _ _ _ H) as (Hc & Hs & Hr). simpl in Hc, Hs, Hr.
      split; [lia|]. split.
      * replace (calls e' - calls e)%nat with (S (calls e' - S (calls e))) by lia.
        rewrite raised_calls_step, E, Hs. simpl. lia.
      * destruct r as [[[la lo] z]|].
        -- destruct Hr as (g & rest & H1 & H2 & H3 & H4 & H5 & H6).
           exists g, rest. repeat split; try assumption; try lia.
           intros i Hi. destruct (Nat.eq_dec i (calls e)) as [->|N].
           ++ now rewrite E.
           ++ apply H6. lia.
        -- destruct Hr as [H1 H2]. split; [lia|].
           intros i Hi. destruct (Nat.eq_dec i (calls e)) as [->|N].
           ++ now rewrite E.
           ++ apply H2. lia.
    + (* the call returned a result *)
      inversion H; subst. cbn [calls slept]. split; [lia|]. split.
      * replace (S (calls e) - calls e)%nat with 1%nat by lia.
        rewrite raised_calls_step, E. unfold raised_calls. simpl. lia.
      * exists g, rest.
        replace (S (calls e) - 1)%nat with (calls e) by lia.
        repeat split; try assumption; try lia.
Qed.

(** [fetch_geocode] calls the service at least once and at most three
    times and sleeps one second for each call that raised.  It returns no
    coordinates exactly when each of the three calls raised or returned no
    result; otherwise its answer is read off the first result of the last
    call made, all earlier calls having given nothing. *)
Theorem fetch_geocode_retries :
  forall (gmaps : service) (address : str) (e e' : effects)
         (r : option (pyfloat * pyfloat * option str)),
    fetch_geocode gmaps address e = (r, e') ->
    (calls e < calls e' <= calls e + 3)%nat
    /\ slept e' = (slept e
                   + raised_calls gmaps address (calls e) (calls e' - calls e))%nat
    /\ (r = None <->
        forall i, (calls e <= i < calls e + 3)%nat ->
                  unanswered (gmaps i address) = true)
    /\ (forall la lo z, r = Some (la, lo, z) ->
          exists g rest,
            gmaps (calls e' - 1)%nat address = Returns (g :: rest)
            /\ la = lat g /\ lo = lng g
            /\ z = postal_code (address_components g)
            /\ forall i, (calls e <= i < calls e' - 1)%nat ->
                         unanswered (gmaps i address) = true).
Proof.
  intros gmaps address e e' r H. unfold fetch_geocode in H.
  destruct (attempt_trace _ _ _ _ H) as (Hc & Hs & Hr).
  destruct r as [[[la lo] z]|].
  - destruct Hr as (g & rest & H1 & H2 & H3 & H4 & H5 & H6).
    split; [lia|]. split; [assumption|]. split.
    + split; [discriminate|]. intros Hall.
      specialize (Hall (calls e' - 1)%nat ltac:(lia)).
      rewrite H2 in Hall. discriminate.
    + intros la' lo' z' E. inversion E; subst.
      exists g, rest. now repeat split.
  - destruct Hr as [H1 H2]. split; [lia|]. split; [assumption|]. split.
    + split; [intros _; exact H2 | reflexivity].
    + intros la lo z E. discriminate.
Qed.

Lemma fetch_geocode_retries_witness :
  exists e',
    fetch_geocode flaky (txt "100 E Court St, Cincinnati, OH, USA")
                  {| calls := 0; slept := 0 |}
    = (Some (Fin (391 # 10), Fin (-845 # 10), Some (txt "45202")), e')
    /\ (calls e' <= 3)%nat /\ slept e' = 2%nat.
Proof.
  eexists. split; [reflexivity|].
  destruct (@fetch_geocode_retries flaky (txt "100 E Court St, Cincinnati, OH, USA")
              {| calls := 0; slept := 0 |} _ _ eq_refl) as ((_ & Hc) & Hs & _).
  split; [exact Hc | reflexivity].
Defined.

(** The ZIP code of a geocoding result is the name of its first component
    of type 'postal_code'; a result without such a component gives
    coordinates and no ZIP code. *)
Theorem postal_code_is_first_component :
  forall cs : list component,
    match postal_code cs with
    | Some zip =>
        exists before c after,
          cs = before ++ c :: after
          /\ (forall x, In x before -> ~ postal x)
          /\ postal c /\ long_name c = zip
    | None => forall c, In c cs -> ~ postal c
    end.
Proof.
  induction cs as [|c t IH]; cbn [postal_code]; [intros c []|].
  destruct (existsb (str_eqb (txt "postal_code")) (types c)) eqn:E.
  - exists [], c, t. split; [reflexivity|]. split; [intros x []|].
    split; [|reflexivity].
    apply existsb_exists in E as (ty & Hty & Heq).
    apply str_eqb_eq in Heq. unfold postal. now rewrite Heq.
  - assert (Hc : ~ postal c).
    { intros Hp.
      assert (existsb (str_eqb (txt "postal_code")) (types c) = true)
        by (apply existsb_exists; eexists; split; [exact Hp | apply str_eqb_refl]).
      congruence. }
    destruct (postal_code t) as [zip|].
    + destruct IH as (before & c' & after & -> & Hb & Hp & Hn).
      exists (c :: before), c', after. split; [reflexivity|]. split; [|now split].
      intros x [<-|Hx]; [assumption | now apply Hb].
    + intros x [<-|Hx]; [assumption | now apply IH].
Qed.

Lemma postal_code_is_first_component_witness :
  exists before c after,
    [ {| long_name := txt "Cincinnati"; types := [txt "locality"] |};
      {| long_name := txt "45202"; types := [txt "postal_code"] |};
      {| long_name := txt "45203"; types := [txt "postal_code"] |} ]
    = before ++ c :: after
    /\ (forall x, In x before -> ~ postal x)
    /\ postal c /\ long_name c = txt "45202".
Proof.
  exact (postal_code_is_first_component
           [ {| long_name := txt "Cincinnati"; types := [txt "locality"] |};
             {| long_name := txt "45202"; types := [txt "postal_code"] |};
             {| long_name := txt "45203"; types := [txt "postal_code"] |} ]).
Defined.

Lemma raised_calls_bound (gmaps : service) (address : str) (start n : nat) :
  (raised_calls gmaps address start n <= n)%nat.
Proof.
  unfold raised_calls.
  pose proof (filter_length_le (fun i => raised (gmaps i address)) (seq start n)).
  now rewrite length_seq in H.
Qed.

(** The answer of the retry loop and the calls it makes depend on the run
    so far through the number of calls only. *)
Lemma attempt_from_calls (gmaps : service) (address : str) (n : nat) :
  forall e1 e2 : effects,
    calls e1 = calls e2 ->
    fst (attempt gmaps address n e1) = fst (attempt gmaps address n e2)
    /\ calls (snd (attempt gmaps address n e1))
       = calls (snd (attempt gmaps address n e2)).
Proof.
  induction n as [|n IH]; intros e1 e2 E; cbn [attempt].
  - now split.
  - rewrite <- E. destruct (gmaps (calls e1) address) as [|[|g rest]].
    + apply IH. cbn [calls]. now rewrite E.
    + apply IH. cbn [calls]. now rewrite E.
    + cbn [fst snd calls]. now rewrite E.
Qed.

Lemma fetch_geocode_answer (gmaps : service) (address : str) (e e1 : effects)
      (g : option (pyfloat * pyfloat * option str)) :
  fetch_geocode gmaps address e = (g, e1) ->
  g = answer gmaps address (calls e)
  /\ calls e1 = (calls e + calls_made gmaps address (calls e))%nat.
Proof.
  intros H. unfold answer, calls_made, fetch_geocode in *.
  destruct (@attempt_from_calls gmaps address 3 e {| calls := calls e; slept := 0 |}
              eq_refl) as [Hf Hc].
  rewrite H in Hf, Hc. cbn [fst snd] in Hf, Hc.
  destruct (attempt_trace _ _ _ _ H) as (Hle & _).
  split; [exact Hf|]. rewrite <- Hc. lia.
Qed.

Lemma geocode_rows_trace (gmaps : service) (new_locations : list store) :
  forall (e e' : effects) (out : list store),
    geocode_rows gmaps new_locations e = (out, e') ->
    Forall2 geocoded_from new_locations out
    /\ (calls e + List.length new_locations <= calls e'
        <= calls e + 3 * List.length new_locations)%nat
    /\ (slept e + List.length new_locations <= slept e'
        <= slept e + 4 * List.length new_locations)%nat.
Proof.
  induction new_locations as [|row t IH]; intros e e' out H.
  - simpl in H. inversion H; subst. split; [constructor|]. simpl. lia.
  - cbn [geocode_rows] in H.
    destruct (fetch_geocode gmaps (Full_Address row) e) as [g e1] eqn:E1.
    destruct (geocode_rows gmaps t {| calls := calls e1; slept := S (slept e1) |})
      as [t' e3] eqn:E3.
    inversion H; subst out e'; clear H.
    destruct (attempt_trace _ _ _ _ E1) as (Hc & Hs & Hr).
    assert (Hc1 : (calls e < calls e1)%nat).
    { destruct g as [[[la lo] z]|].
      - destruct Hr as (? & ? & ? & _). assumption.
      - destruct Hr as [-> _]. lia. }
    pose proof (raised_calls_bound gmaps (Full_Address row) (calls e)
                  (calls e1 - calls e)) as Hb.
    destruct (IH _ _ _ E3) as (Hf & Hc3 & Hs3). cbn [calls slept] in Hc3, Hs3.
    split; [constructor; [now exists g | assumption]|].
    cbn [List.length]. lia.
Qed.

Lemma geocode_rows_answers (gmaps : service) (new_locations : list store) :
  forall (e e' : effects) (out : list store),
    geocode_rows gmaps new_locations e = (out, e') ->
    geocoded_at gmaps (calls e) new_locations out.
Proof.
  induction new_locations as [|row t IH]; intros e e' out H.
  - simpl in H. inversion H; subst. exact I.
  - cbn [geocode_rows] in H.
    destruct (fetch_geocode gmaps (Full_Address row) e) as [g e1] eqn:E1.
    destruct (geocode_rows gmaps t {| calls := calls e1; slept := S (slept e1) |})
      as [t' e3] eqn:E3.
    inversion H; subst out e'; clear H.
    destruct (fetch_geocode_answer _ _ _ E1) as [-> Hc].
    cbn [geocoded_at]. split; [reflexivity|].
    rewrite <- Hc. exact (IH _ _ _ E3).
Qed.

Lemma geocoded_at_length (gmaps : service) (rows : list store) :
  forall (start : nat) (outs : list store),
    geocoded_at gmaps start rows outs -> List.length outs = List.length rows.
Proof.
  induction rows as [|row t IH]; intros start [|o outs] H;
    try contradiction; [reflexivity|].
  destruct H as [_ H]. simpl. f_equal. eapply IH; eauto.
Qed.

Lemma located_id (row : store) (g : option (pyfloat * pyfloat * option str)) :
  id_text (located row g) = id_text row.
Proof. unfold located. now destruct g as [[[la lo] [z|]]|]. Qed.

Lemma geocoded_ids (new_locations out : list store) :
  Forall2 geocoded_from new_locations out ->
  map id_text out = map id_text new_locations.
Proof.
  induction 1 as [|row o t t' [g ->] _ IH]; simpl; [reflexivity|].
  now rewrite located_id, IH.
Qed.

Lemma geocode_store_locations_run (gmaps : service) (rows : list raw_store)
      (cleaned_df : list store) (e : effects) :
  let r := geocode_store_locations gmaps (Some rows) (Some cleaned_df) e in
  let n := List.length (new_rows rows cleaned_df) in
  exists geocoded,
    result r = Returned (Some (cleaned_df ++ geocoded))
    /\ cleaned_file_after r = Some (cleaned_df ++ geocoded)
    /\ Forall2 geocoded_from (new_rows rows cleaned_df) geocoded
    /\ (calls e + n <= calls (done r) <= calls e + 3 * n)%nat
    /\ (slept e + n <= slept (done r) <= slept e + 4 * n)%nat.
Proof.
  intros r n. unfold r, geocode_store_locations. fold (new_rows rows cleaned_df).
  unfold n. destruct (new_rows rows cleaned_df) as [|row t] eqn:En.
  - exists []. rewrite app_nil_r. simpl.
    repeat split; try constructor; lia.
  - destruct (geocode_rows gmaps (row :: t) e) as [geocoded e'] eqn:Eg.
    destruct (geocode_rows_trace _ _ _ Eg) as (Hf & Hc & Hs).
    exists geocoded. cbn [result cleaned_file_after done]. now repeat split.
Qed.

(** With a cleaned file in place, a run returns and writes that file's rows
    unchanged, followed by one row per raw row whose location ID the file
    did not hold, in order.  Each of them is its raw row with the answer of
    [fetch_geocode] for its full address as latitude, longitude and ZIP code
    (nulls when geocoding failed), the rows being geocoded one after the
    other from the state of the service the run starts in.  The run calls
    the geocoder between one and three times per new row and sleeps between
    one and four seconds per new row: nothing when there is no new row. *)
Theorem geocode_store_locations_appends_new_rows :
  forall (gmaps : service) (rows : list raw_store)
         (cleaned_df : list store) (e : effects),
    let r := geocode_store_locations gmaps (Some rows) (Some cleaned_df) e in
    let n := List.length (new_rows rows cleaned_df) in
    exists geocoded,
      result r = Returned (Some (cleaned_df ++ geocoded))
      /\ cleaned_file_after r = Some (cleaned_df ++ geocoded)
      /\ geocoded_at gmaps (calls e) (new_rows rows cleaned_df) geocoded
      /\ (forall s, In s geocoded -> ~ In (id_text s) (map id_text cleaned_df))
      /\ (calls e + n <= calls (done r) <= calls e + 3 * n)%nat
      /\ (slept e + n <= slept (done r) <= slept e + 4 * n)%nat.
Proof.
  intros gmaps rows cleaned_df e r n.
  destruct (geocode_store_locations_run gmaps rows cleaned_df e)
    as (geocoded & H1 & H2 & H3 & H4 & H5).
  exists geocoded.
  split; [exact H1|]. split; [exact H2|]. split; [|split; [|split]].
  - clear H3 H4 H5. revert H1. unfold r, geocode_store_locations.
    fold (new_rows rows cleaned_df).
    destruct (new_rows rows cleaned_df) as [|row t] eqn:En.
    + cbn [result]. intros H1.
      assert (E : cleaned_df ++ [] = cleaned_df ++ geocoded)
        by (rewrite app_nil_r; congruence).
      apply app_inv_head in E. subst geocoded. exact I.
    + destruct (geocode_rows gmaps (row :: t) e) as [out e'] eqn:Eg.
      cbn [result]. intros H1.
      assert (E : cleaned_df ++ out = cleaned_df ++ geocoded) by congruence.
      apply app_inv_head in E. subst geocoded.
      exact (geocode_rows_answers _ _ _ Eg).
  - intros s Hs Hin.
    assert (Hid : In (id_text s) (map id_text (new_rows rows cleaned_df))).
    { rewrite <- (geocoded_ids H3). now apply in_map. }
    apply in_map_iff in Hid as (s' & Heq & Hs').
    unfold new_rows in Hs'. apply filter_In in Hs' as [_ Hp].
    apply negb_true_iff in Hp. unfold processed in Hp.
    assert (existsb (str_eqb (id_text s')) (map id_text cleaned_df) = true).
    { apply existsb_exists. exists (id_text s). split; [assumption|].
      rewrite Heq. apply str_eqb_refl. }
    congruence.
  - exact H4.
  - exact H5.
Qed.

Lemma geocode_store_locations_appends_new_rows_witness :
  exists geocoded,
    result (geocode_store_locations flaky (Some [kroger "01400376"]) (Some [])
              {| calls := 0; slept := 0 |})
    = Returned (Some geocoded)
    /\ map (fun s => (Latitude s, Longitude s, ZIP_Code s)) geocoded
       = [(Fin (391 # 10), Fin (-845 # 10), Str (txt "45202"))].
Proof.
  destruct (geocode_store_locations_appends_new_rows
              flaky [kroger "01400376"] [] {| calls := 0; slept := 0 |})
    as (geocoded & H1 & _ & H3 & _).
  exists geocoded. split; [exact H1|].
  destruct geocoded as [|o [|o' rest]]; try contradiction.
  - destruct H3 as [-> _]. reflexivity.
  - destruct H3 as [_ []].
Defined.

(** A second run over the same raw file geocodes nothing, whatever the
    service would answer: it returns the table that the first run wrote and
    leaves the file as it is.  A store whose geocoding failed keeps its
    null coordinates and ZIP code and is not tried again. *)
Theorem second_run_geocodes_nothing :
  forall (gmaps gmaps' : service) (rows : list raw_store)
         (cleaned_df : list store) (e e2 : effects),
    let first := geocode_store_locations gmaps (Some rows) (Some cleaned_df) e in
    geocode_store_locations gmaps' (Some rows) (cleaned_file_after first) e2
    = {| result := result first;
         cleaned_file_after := cleaned_file_after first;
         done := e2 |}.
Proof.
  intros gmaps gmaps' rows cleaned_df e e2 first.
  destruct (geocode_store_locations_run gmaps rows cleaned_df e)
    as (geocoded & H1 & H2 & H3 & _).
  fold first in H1, H2. rewrite H1, H2.
  unfold geocode_store_locations.
  fold (new_rows rows (cleaned_df ++ geocoded)).
  assert (Hnone : new_rows rows (cleaned_df ++ geocoded) = []).
  { unfold new_rows. apply AggregationProps.filter_none.
    intros s Hs. apply negb_false_iff. unfold processed.
    rewrite map_app, existsb_app.
    destruct (existsb (str_eqb (id_text s)) (map id_text cleaned_df)) eqn:E;
      [reflexivity|].
    simpl. apply existsb_exists. exists (id_text s).
    split; [|apply str_eqb_refl].
    rewrite (geocoded_ids H3). apply in_map. unfold new_rows.
    apply filter_In. split; [assumption|]. unfold processed. now rewrite E. }
  now rewrite Hnone.
Qed.

(** The function returns [None] exactly when the raw file is missing, and
    raises exactly when the raw file exists and the cleaned file does not:
    on a first run, with no cleaned file yet, it geocodes nothing and
    writes no file. *)
Theorem first_run_raises :
  forall (gmaps : service) (locations_file : option (list raw_store))
         (cleaned_file : option (list store)) (e : effects),
    let r := geocode_store_locations gmaps locations_file cleaned_file e in
    (result r = Returned None <-> locations_file = None)
    /\ (result r = UnboundLocalError <->
        locations_file <> None /\ cleaned_file = None)
    /\ (cleaned_file = None -> cleaned_file_after r = None /\ done r = e).
Proof.
  intros gmaps locations_file cleaned_file e r. unfold r.
  destruct locations_file as [rows|], cleaned_file as [cleaned_df|].
  - destruct (geocode_store_locations_run gmaps rows cleaned_df e)
      as (geocoded & -> & _).
    split; [split; discriminate|]. split; [|discriminate].
    split; [discriminate | intros [_ H]; discriminate].
  - simpl. split; [split; discriminate|]. split; [|now split].
    split; [intros _; split; [discriminate | reflexivity] | reflexivity].
  - simpl. split; [now split|]. split; [|discriminate].
    split; [discriminate | intros [H _]; now contradiction H].
  - simpl. split; [now split|]. split; [|now split].
    split; [discriminate | intros [H _]; now contradiction H].
Qed.

Lemma first_run_raises_witness :
  result (geocode_store_locations flaky (Some [kroger "01400376"]) None
            {| calls := 0; slept := 0 |})
  = UnboundLocalError.
Proof.
  apply (proj1 (proj2 (first_run_raises flaky (Some [kroger "01400376"]) None
                         {| calls := 0; slept := 0 |}))).
  split; [discriminate | reflexivity].
Defined.

End LocationResolverProps.

(* ================================================================== *)
(** * Acquisition of the census tables and of the stores *)
(* ================================================================== *)

Module AcquisitionProps.
Import Acquisition PyFacts.

(** ** Search radius *)

Lemma exceeds_monotone (a b c : Q) :
  a <= b -> exceeds (Fin a) c = true -> exceeds (Fin b) c = true.
Proof.
  simpl. rewrite !negb_true_iff. intros Hab Ha.
  destruct (Qle_bool b c) eqn:E; [|reflexivity].
  apply Qle_bool_iff in E.
  assert (L : Qle_bool a c = true)
    by (apply Qle_bool_iff; eapply Qle_trans; eauto).
  congruence.
Qed.

(** The search radius is one of 15, 25, 50 and 100 miles, it never grows
    with the population, and a population that is NaN gets the widest
    one. *)
Theorem search_radius_shrinks_with_population :
  (forall population, In (get_dynamic_radius population) [15; 25; 50; 100]%nat)
  /\ (forall a b : Q,
        a <= b -> (get_dynamic_radius (Fin b) <= get_dynamic_radius (Fin a))%nat)
  /\ get_dynamic_radius NaN = 100%nat.
Proof.
  split; [|split; [|reflexivity]].
  - intros population. unfold get_dynamic_radius.
    destruct (exceeds population 100000); [simpl; auto|].
    destruct (exceeds population 50000); [simpl; auto|].
    destruct (exceeds population 20000); simpl; auto.
  - intros a b Hab. unfold get_dynamic_radius.
    pose proof (exceeds_monotone 100000 Hab) as H1.
    pose proof (exceeds_monotone 50000 Hab) as H2.
    pose proof (exceeds_monotone 20000 Hab) as H3.
    destruct (exceeds (Fin a) 100000);
      [rewrite (H1 eq_refl); lia|].
    destruct (exceeds (Fin a) 50000);
      [rewrite (H2 eq_refl); destruct (exceeds (Fin b) 100000); lia|].
    destruct (exceeds (Fin a) 20000);
      [rewrite (H3 eq_refl);
       destruct (exceeds (Fin b) 100000), (exceeds (Fin b) 50000); lia|].
    destruct (exceeds (Fin b) 100000), (exceeds (Fin b) 50000),
      (exceeds (Fin b) 20000); lia.
Qed.

Lemma search_radius_shrinks_with_population_witness :
  (get_dynamic_radius (Fin 120000) <= get_dynamic_radius (Fin 16721))%nat.
Proof.
  apply (proj1 (proj2 search_radius_shrinks_with_population)). discriminate.
Defined.

(** ** ZIP code of a census row *)

Lemma five_digits_prefix (s z : str) :
  five_digits s = Some z <-> zip_text z /\ exists post, s = z ++ post.
Proof.
  unfold five_digits, zip_text. split.
  - destruct s as [|a [|b [|c [|d [|e t]]]]]; try discriminate.
    destruct (forallb is_digit [a; b; c; d; e]) eqn:E; [|discriminate].
    intros H. inversion H; subst. split; [now split | now exists t].
  - intros [[Hl Hd] (post & ->)].
    destruct z as [|a [|b [|c [|d [|e [|f z']]]]]]; try discriminate.
    simpl in *. now rewrite Hd.
Qed.

(** The ZIP code read from a name is five digits in a row that occur in the
    name, and no five digits in a row begin earlier in it; a name without
    five digits in a row has none. *)
Theorem search_zip_first_five_digits :
  forall s : str,
    match search_zip s with
    | Some z =>
        zip_text z
        /\ exists pre post,
            s = pre ++ z ++ post
            /\ forall pre' z' post',
                s = pre' ++ z' ++ post' -> zip_text z' ->
                (List.length pre <= List.length pre')%nat
    | None =>
        forall pre z post, s = pre ++ z ++ post -> ~ zip_text z
    end.
Proof.
  induction s as [|c t IH].
  - simpl. intros pre z post H [Hl _].
    destruct pre; [|discriminate]. destruct z; discriminate.
  - change (search_zip (c :: t))
      with (match five_digits (c :: t) with
            | Some z => Some z
            | None => search_zip t
            end).
    destruct (five_digits (c :: t)) as [z|] eqn:E.
    + apply five_digits_prefix in E as [Hz (post & Hs)].
      split; [assumption|]. exists [], post. split; [assumption|].
      intros; simpl; lia.
    + destruct (search_zip t) as [z|].
      * destruct IH as (Hz & pre & post & -> & Hmin).
        split; [assumption|]. exists (c :: pre), post. split; [reflexivity|].
        intros pre' z' post' Hs Hz'. destruct pre' as [|x pre'].
        -- exfalso. assert (F : five_digits (c :: pre ++ z ++ post) = Some z')
             by (apply five_digits_prefix; split; [assumption | now exists post']).
           congruence.
        -- simpl in Hs. inversion Hs as [[Hx Ht]].
           specialize (Hmin _ _ _ Ht Hz'). simpl. lia.
      * intros pre z post Hs Hz. destruct pre as [|x pre].
        -- assert (F : five_digits (c :: t) = Some z)
             by (apply five_digits_prefix; split; [assumption | now exists post]).
           congruence.
        -- simpl in Hs. inversion Hs as [[Hx Ht]]. exact (IH _ _ _ Ht Hz).
Qed.

Lemma search_zip_first_five_digits_witness :
  search_zip (txt "ZCTA5 00601") = Some (txt "00601") /\ zip_text (txt "00601").
Proof.
  split; [reflexivity|].
  pose proof (search_zip_first_five_digits (txt "ZCTA5 00601")) as H.
  change (search_zip (txt "ZCTA5 00601")) with (Some (txt "00601")) in H.
  exact (proj1 H).
Defined.

Lemma search_zip_is_zip_text (s z : str) : search_zip s = Some z -> zip_text z.
Proof.
  induction s as [|c t IH].
  - simpl. discriminate.
  - change (search_zip (c :: t))
      with (match five_digits (c :: t) with
            | Some z => Some z
            | None => search_zip t
            end).
    destruct (five_digits (c :: t)) as [z'|] eqn:E; [|exact IH].
    intros H. inversion H; subst. now apply five_digits_prefix in E as [Hz _].
Qed.

(** [clean_census_data] drops the first row of the export whatever it
    holds and returns one row per remaining row, in order; each ZIP code it
    returns is a text of five digits (leading zeros kept), and a row whose
    name is missing or has no five digits in a row gets a null ZIP code and
    is still returned. *)
Theorem clean_census_data_drops_first_row :
  forall (parse_number : str -> option pyfloat) (df : list census_export_row),
    let out := clean_census_data parse_number df in
    List.length out = Nat.pred (List.length df)
    /\ map fst out = map (fun r => extract_zip (NAME r)) (tl df)
    /\ (forall z v, In (Some z, v) out -> zip_text z)
    /\ extract_zip Missing = None.
Proof.
  intros parse_number df out. unfold out, clean_census_data.
  split; [|split; [|split]].
  - rewrite length_map. now destruct df.
  - now rewrite map_map.
  - intros z v H. apply in_map_iff in H as (r & E & _). inversion E as [[Hz Hv]].
    destruct (NAME r) as [s|]; [|discriminate].
    now apply search_zip_is_zip_text with (s := s).
  - reflexivity.
Qed.

Lemma clean_census_data_drops_first_row_witness :
  zip_text (txt "00601").
Proof.
  apply (proj1 (proj2 (proj2
           (clean_census_data_drops_first_row (fun _ => None)
              [ {| NAME := Str (txt "Geographic Area Name");
                   value := ProductCleaner.PText (txt "Estimate!!Total") |};
                {| NAME := Str (txt "ZCTA5 00601");
                   value := ProductCleaner.PText (txt "16721") |} ])))
         (txt "00601") NaN).
  left. reflexivity.
Defined.

(** ** The batch of ZIP codes *)

Lemma every_third_positions A (l : list A) (z : A) :
  In z (every_third l) -> exists i, nth_error l (3 * i) = Some z.
Proof.
  assert (G : forall n (l : list A), (List.length l <= n)%nat ->
                In z (every_third l) -> exists i, nth_error l (3 * i) = Some z).
  { induction n as [|n IH]; intros l0 Hl Hin.
    - destruct l0; [destruct Hin | simpl in Hl; lia].
    - destruct l0 as [|a t]; [destruct Hin|].
      simpl in Hin. destruct Hin as [<-|Hin]; [now exists 0%nat|].
      destruct t as [|b [|c t']]; try (destruct Hin).
      destruct (IH t') as (i & Hi).
      + simpl in Hl. lia.
      + simpl. auto.
      + exists (S i). replace (3 * S i)%nat with (S (S (S (3 * i)))) by lia.
        exact Hi. }
  apply (G (List.length l)). lia.
Qed.

(** A run searches at most 2000 ZIP codes, none of them processed before,
    and each one standing at a position that is a multiple of three in the
    list of census ZIP codes: the ZIP codes at the other positions are never
    searched. *)
Theorem batch_is_every_third_unprocessed :
  forall (zip_codes processed : list str),
    let batch := condensed_zip_list zip_codes processed in
    (List.length batch <= 2000)%nat
    /\ forall z, In z batch ->
         ~ In z processed
         /\ exists i, nth_error zip_codes (3 * i) = Some z.
Proof.
  intros zip_codes processed batch. unfold batch, condensed_zip_list. split.
  - rewrite length_firstn. lia.
  - intros z Hz.
    assert (Hf : In z (filter (fun z => negb (mem z processed))
                              (every_third zip_codes))).
    { rewrite <- (firstn_skipn 2000). apply in_or_app. now left. }
    apply filter_In in Hf as [Hin Hm]. split.
    + intros Hp. apply negb_true_iff in Hm.
      assert (mem z processed = true)
        by (apply existsb_exists; exists z; split; [assumption | apply str_eqb_refl]).
      congruence.
    + now apply every_third_positions.
Qed.

Lemma batch_is_every_third_unprocessed_witness :
  condensed_zip_list [txt "00601"; txt "00602"; txt "00603"; txt "00606"]
                     [txt "00601"]
  = [txt "00606"]
  /\ exists i, nth_error [txt "00601"; txt "00602"; txt "00603"; txt "00606"]
                         (3 * i) = Some (txt "00606").
Proof.
  split; [reflexivity|].
  apply (proj2 (batch_is_every_third_unprocessed
                  [txt "00601"; txt "00602"; txt "00603"; txt "00606"]
                  [txt "00601"]) (txt "00606")).
  left. reflexivity.
Defined.

(** ** The search loop *)

Lemma mem_In (x : str) (l : list str) : mem x l = true <-> In x l.
Proof.
  unfold mem. rewrite existsb_exists. split.
  - intros (y & Hy & E). apply str_eqb_eq in E. now subst.
  - intros H. exists x. split; [assumption | apply str_eqb_refl].
Qed.

Lemma mem_not_In (x : str) (l : list str) : mem x l = false <-> ~ In x l.
Proof.
  rewrite <- mem_In. destruct (mem x l); split; congruence.
Qed.

Lemma add_stores_new (zip_code : str) (data : list api_store) :
  forall (stores : list store_row) (ids : list str),
  exists new,
    add_stores zip_code data stores ids
    = (stores ++ new, rev (map loc_id_text new) ++ ids)
    /\ NoDup (map loc_id_text new)
    /\ (forall n, In n new ->
         ~ In (loc_id_text n) ids
         /\ exists a, In a data /\ n = row_of zip_code a)
    /\ (forall a, In a data ->
         In (locationId a) ids
         \/ exists n, In n new /\ Location_ID n = IdText (locationId a)).
Proof.
  induction data as [|a t IH]; intros stores ids; simpl.
  - exists []. rewrite app_nil_r. split; [reflexivity|].
    split; [constructor|]. split; [intros n [] | intros a []].
  - destruct (mem (locationId a) ids) eqn:E.
    + destruct (IH stores ids) as (new & H1 & H2 & H3 & H4).
      exists new. split; [assumption|]. split; [assumption|]. split.
      * intros n Hn. destruct (H3 n Hn) as (Hid & a' & Ha' & Hrow).
        split; [assumption|]. exists a'. split; [now right | assumption].
      * intros a' [<-|Ha']; [left; now apply mem_In | now apply H4].
    + destruct (IH (stores ++ [row_of zip_code a]) (locationId a :: ids))
        as (new & H1 & H2 & H3 & H4).
      exists (row_of zip_code a :: new). split; [|split; [|split]].
      * rewrite H1. simpl. now rewrite <- !app_assoc.
      * simpl. constructor; [|assumption].
        intros Hin. apply in_map_iff in Hin as (n & Hid & Hn).
        destruct (H3 n Hn) as (Hnot & _). apply Hnot. left. now symmetry.
      * intros n [<-|Hn].
        -- split; [now apply mem_not_In | exists a; split; [now left | reflexivity]].
        -- destruct (H3 n Hn) as (Hid & a' & Ha' & Hrow).
           split; [intros Hin; apply Hid; now right|].
           exists a'. split; [now right | assumption].
      * intros a' [<-|Ha'];
          [right; exists (row_of zip_code a); split; [now left | reflexivity]|].
        destruct (H4 a' Ha') as [[Eid|Hin]|(n & Hn & Hid)].
        -- right. exists (row_of zip_code a). split; [now left|].
           cbn [row_of Location_ID]. now rewrite Eid.
        -- now left.
        -- right. exists n. split; [now right | assumption].
Qed.

Section LoopFacts.
Variable kroger : api.
Variable population : str -> pyfloat.
Variable zip_count : nat.

Lemma search_one_step (zip_code : str) (s : progress) :
  let s' := search_one kroger population zip_code s in
  exists new,
    stores s' = stores s ++ new
    /\ existing_loc_ids s' = rev (map loc_id_text new) ++ existing_loc_ids s
    /\ NoDup (map loc_id_text new)
    /\ (forall n, In n new ->
          Location_ID n = IdText (loc_id_text n)
          /\ ~ In (loc_id_text n) (existing_loc_ids s)
          /\ ZIP_Code n = Str zip_code)
    /\ searches s' = S (searches s)
    /\ (request_count s <= request_count s' <= S (request_count s))%nat
    /\ slept s' = slept s
    /\ (forall z, In z (processed_zip_codes s') <->
                  In z (processed_zip_codes s)
                  \/ (z = zip_code /\ request_count s' = S (request_count s)))
    /\ (forall data a,
          kroger (searches s) zip_code (get_dynamic_radius (population zip_code))
          = Body (Some data) ->
          In a data ->
          In (locationId a) (existing_loc_ids s)
          \/ exists n, In n new /\ Location_ID n = IdText (locationId a)).
Proof.
  unfold search_one.
  set (answer := kroger (searches s) zip_code
                        (get_dynamic_radius (population zip_code))).
  assert (Hset : forall z, In z (set_add zip_code (processed_zip_codes s)) <->
                           In z (processed_zip_codes s) \/ z = zip_code).
  { intros z. unfold set_add.
    destruct (mem zip_code (processed_zip_codes s)) eqn:E.
    - apply mem_In in E. split; [now left | intros [H| ->]; assumption].
    - rewrite in_app_iff. simpl. intuition. }
  assert (Hgood : forall data,
    let s' :=
      let '(stores', ids') :=
        add_stores zip_code data (stores s) (existing_loc_ids s) in
      {| stores := stores';
         existing_loc_ids := ids';
         processed_zip_codes := set_add zip_code (processed_zip_codes s);
         processed_file_lines := processed_file_lines s ++ [zip_code];
         request_count := S (request_count s);
         searches := S (searches s);
         slept := slept s |} in
    exists new,
      stores s' = stores s ++ new
      /\ existing_loc_ids s' = rev (map loc_id_text new) ++ existing_loc_ids s
      /\ NoDup (map loc_id_text new)
      /\ (forall n, In n new ->
            Location_ID n = IdText (loc_id_text n)
            /\ ~ In (loc_id_text n) (existing_loc_ids s)
            /\ ZIP_Code n = Str zip_code)
      /\ searches s' = S (searches s)
      /\ (request_count s <= request_count s' <= S (request_count s))%nat
      /\ slept s' = slept s
      /\ (forall z, In z (processed_zip_codes s') <->
                    In z (processed_zip_codes s)
                    \/ (z = zip_code /\ request_count s' = S (request_count s)))
      /\ (forall a, In a data ->
            In (locationId a) (existing_loc_ids s)
            \/ exists n, In n new /\ Location_ID n = IdText (locationId a))).
  { intros data.
    destruct (add_stores_new zip_code data (stores s) (existing_loc_ids s))
      as (new & H1 & H2 & H3 & H4).
    cbv zeta. rewrite H1. exists new. cbn.
    split; [reflexivity|]. split; [reflexivity|]. split; [assumption|]. split.
    { intros n Hn. destruct (H3 n Hn) as (Hid & a & _ & ->).
      split; [reflexivity|]. split; [assumption | reflexivity]. }
    split; [reflexivity|]. split; [lia|]. split; [reflexivity|]. split.
    - intros z. rewrite Hset. split.
      + intros [H|H]; [now left | right; now split].
      + intros [H|[H _]]; [now left | now right].
    - exact H4. }
  destruct answer as [|[data|]|].
  - destruct (Hgood []) as (new & G1 & G2 & G3 & G4 & G5 & G6 & G7 & G8 & _).
    exists new. do 8 (split; [assumption|]). intros data a H. discriminate.
  - destruct (Hgood data) as (new & G1 & G2 & G3 & G4 & G5 & G6 & G7 & G8 & G9).
    exists new. do 8 (split; [assumption|]). intros data' a H.
    assert (data' = data) by congruence. subst data'. apply G9.
  - destruct (Hgood []) as (new & G1 & G2 & G3 & G4 & G5 & G6 & G7 & G8 & _).
    exists new. do 8 (split; [assumption|]). intros data a H. discriminate.
  - exists []. cbn. rewrite app_nil_r.
    split; [reflexivity|]. split; [reflexivity|]. split; [constructor|].
    split; [intros n []|].
    split; [reflexivity|]. split; [lia|]. split; [reflexivity|]. split.
    + intros z. split; [now left | intros [H|[_ H]]; [assumption | lia]].
    + intros data a H. discriminate.
Qed.

Lemma trace_stop (zips : list str) (s : progress) : Statements.trace zips s s.
Proof.
  exists []. simpl. rewrite app_nil_r.
  split; [reflexivity|]. split; [reflexivity|]. split; [constructor|].
  split; [intros n []|]. split; [lia|]. split; [lia|]. split; [lia|].
  split; [lia|]. split; [intros z H; now left | intros z H; exact H].
Qed.

Lemma search_loop_trace (zips : list str) :
  forall s : progress,
    Statements.trace zips s (search_loop kroger population zip_count zips s).
Proof.
  induction zips as [|zip_code rest IH]; intros s.
  - apply trace_stop.
  - cbn [search_loop].
    destruct (mem zip_code (processed_zip_codes s)).
    { destruct (IH s) as (new & H1 & H2 & H3 & H4 & H5 & H6 & H7 & H8 & H9 & H10).
      exists new.
      split; [assumption|]. split; [assumption|]. split; [assumption|]. split.
      { intros n Hn. destruct (H4 n Hn) as (Hty & Hid & z & Hz & Hzip).
        split; [assumption|]. split; [assumption|].
        exists z. split; [now right | assumption]. }
      split; [cbn [List.length]; lia|]. split; [lia|]. split; [lia|].
      split; [lia|]. split; [|assumption].
      intros z Hz. destruct (H9 z Hz); [now left | right; now right]. }
    destruct (zip_count <=? List.length (processed_zip_codes s))%nat.
    { apply trace_stop. }
    destruct (search_one_step zip_code s)
      as (new1 & A1 & A2 & A3 & A4 & A5 & A6 & A7 & A8 & _).
    set (s1 := search_one kroger population zip_code s) in *.
    destruct (IH (sleep s1))
      as (new2 & B1 & B2 & B3 & B4 & B5 & B6 & B7 & B8 & B9 & B10).
    set (f := search_loop kroger population zip_count rest (sleep s1)) in *.
    cbn [sleep stores existing_loc_ids processed_zip_codes request_count
         searches slept] in B1, B2, B4, B5, B6, B7, B8, B9, B10.
    exists (new1 ++ new2). split; [|split; [|split; [|split]]].
    + now rewrite B1, A1, app_assoc.
    + now rewrite B2, A2, map_app, rev_app_distr, app_assoc.
    + rewrite map_app. apply NoDup_app; [assumption | assumption|].
      intros x Hx1 Hx2. apply in_map_iff in Hx2 as (n & <- & Hn).
      destruct (B4 n Hn) as (_ & Hnot & _). apply Hnot. rewrite A2.
      apply in_or_app. left. now apply in_rev in Hx1.
    + intros n Hn. apply in_app_or in Hn as [Hn|Hn].
      * destruct (A4 n Hn) as (Hty & Hid & Hzip).
        split; [assumption|]. split; [assumption|].
        exists zip_code. split; [now left | assumption].
      * destruct (B4 n Hn) as (Hty & Hid & z & Hz & Hzip).
        split; [assumption|]. split.
        -- intros Hin. apply Hid. rewrite A2. apply in_or_app. now right.
        -- exists z. split; [now right | assumption].
    + split; [cbn [List.length]; lia|]. split; [lia|]. split; [lia|].
      split; [lia|]. split.
      * intros z Hz. destruct (B9 z Hz) as [H|H]; [|right; now right].
        apply A8 in H as [H|[ -> _]]; [now left | right; now left].
      * intros z Hz. apply B10. apply A8. now left.
Qed.

(** The stores that the first search of the loop returns are in the list
    when the loop ends, each as a row of its own unless its ID was among
    the IDs known before. *)
Lemma first_search_adds (zip_code : str) (rest : list str) (s : progress)
      (data : list api_store) (a : api_store) :
  mem zip_code (processed_zip_codes s) = false ->
  (List.length (processed_zip_codes s) < zip_count)%nat ->
  kroger (searches s) zip_code (get_dynamic_radius (population zip_code))
  = Body (Some data) ->
  In a data ->
  In (locationId a) (existing_loc_ids s)
  \/ exists pre n post,
       stores (search_loop kroger population zip_count (zip_code :: rest) s)
       = stores s ++ pre ++ n :: post
       /\ Location_ID n = IdText (locationId a)
       /\ ZIP_Code n = Str zip_code.
Proof.
  intros Hm Hc Hk Ha. cbn [search_loop]. rewrite Hm.
  destruct (zip_count <=? List.length (processed_zip_codes s))%nat eqn:E;
    [apply Nat.leb_le in E; lia|].
  destruct (search_one_step zip_code s)
    as (new1 & A1 & _ & _ & A4 & _ & _ & _ & _ & A9).
  destruct (A9 data a Hk Ha) as [Hin|(n & Hin & Hid)]; [now left|]. right.
  destruct (search_loop_trace rest (sleep (search_one kroger population zip_code s)))
    as (new2 & B1 & _).
  cbn [sleep stores] in B1. rewrite B1, A1.
  destruct (A4 n Hin) as (_ & _ & Hzip).
  apply in_split in Hin as (pre & post' & ->).
  exists pre, n, (post' ++ new2).
  split; [now rewrite <- !app_assoc | now split].
Qed.

End LoopFacts.

Lemma collect_stores_final (kroger : api) (zip_pop_map : list (str * pyfloat))
      (processed_file : list str) (file : stores_file) :
  exists population start,
    final (collect_stores kroger zip_pop_map processed_file file)
    = search_loop kroger population (List.length (map fst zip_pop_map))
        (condensed_zip_list (map fst zip_pop_map)
                            (Frame.dedup str_eqb processed_file))
        start
    /\ stores start = rows_read file
    /\ existing_loc_ids start = map loc_id_text (rows_read file)
    /\ request_count start = 0%nat /\ searches start = 0%nat
    /\ slept start = 0%nat
    /\ processed_zip_codes start = Frame.dedup str_eqb processed_file.
Proof.
  unfold collect_stores.
  match goal with
  | |- context [search_loop kroger ?p ?n ?b ?s] =>
      exists p, s; set (f := search_loop kroger p n b s)
  end.
  split; [now destruct (stores f) | now repeat split].
Qed.



(** When the run ends, the whole list of stores, the rows read from the
    file included, is appended to the file: afterwards the file holds each
    row it held before twice, followed by the new rows.  The header is
    written only when the file did not exist, and the last statement raises
    a NameError exactly when the list of stores is empty. *)
Theorem collect_stores_appends_whole_list :
  forall (kroger : api) (zip_pop_map : list (str * pyfloat))
         (processed_file : list str) (file : stores_file),
    let c := collect_stores kroger zip_pop_map processed_file file in
    (exists new,
        stores (final c) = rows_read file ++ new
        /\ rows_after file c = rows_read file ++ rows_read file ++ new)
    /\ (header_written c = true -> file = Absent)
    /\ (raises_NameError c = true <-> stores (final c) = []).
Proof.
  intros kroger zip_pop_map processed_file file c.
  destruct (collect_stores_final kroger zip_pop_map processed_file file)
    as (population & start & Hf & S1 & _).
  fold c in Hf.
  destruct (search_loop_trace kroger population
              (List.length (map fst zip_pop_map))
              (condensed_zip_list (map fst zip_pop_map)
                                  (Frame.dedup str_eqb processed_file)) start)
    as (new & H1 & _).
  rewrite <- Hf, S1 in H1.
  assert (Hc : match stores (final c) with
               | [] => appended c = None /\ raises_NameError c = true
                       /\ header_written c = false
               | rows => appended c = Some rows /\ raises_NameError c = false
                         /\ header_written c
                            = match file with Absent => true | _ => false end
               end).
  { unfold c, collect_stores.
    match goal with
    | |- context [search_loop kroger ?p ?n ?b ?s] =>
        set (f := search_loop kroger p n b s)
    end.
    destruct (stores f) eqn:E; cbn [final appended raises_NameError header_written];
      rewrite E; now repeat split. }
  split; [|split].
  - exists new. split; [assumption|]. unfold rows_after.
    destruct (stores (final c)) as [|x l] eqn:E.
    + destruct Hc as (-> & _). symmetry in H1.
      apply app_eq_nil in H1 as [-> ->]. reflexivity.
    + destruct Hc as (-> & _). now rewrite H1.
  - destruct (stores (final c)); destruct Hc as (_ & _ & ->);
      [discriminate | now destruct file].
  - destruct (stores (final c)); destruct Hc as (_ & -> & _);
      split; try reflexivity; discriminate.
Qed.

Lemma collect_stores_appends_whole_list_witness :
  let file := Table [row_read 1400943 "45201"] in
  let c := collect_stores two_stores [(txt "45202", Fin 300000)] [] file in
  map Location_ID (rows_after file c)
  = [IdInt 1400943; IdInt 1400943; IdText (txt "01400376");
     IdText (txt "01400943")]
  /\ exists new, rows_after file c = rows_read file ++ rows_read file ++ new.
Proof.
  intros file c. split; [reflexivity|].
  destruct (collect_stores_appends_whole_list
              two_stores [(txt "45202", Fin 300000)] [] file)
    as ((new & _ & H) & _).
  exists new. exact H.
Defined.

(** ** Location IDs read back from the file *)

Lemma to_int_normal (n : Z) : Decimal.norm (Z.to_int n) = Z.to_int n.
Proof.
  rewrite <- (DecimalZ.to_of (Z.to_int n)). now rewrite DecimalZ.of_to.
Qed.

Lemma unorm_fixed_zero (u : Decimal.uint) :
  Decimal.unorm (Decimal.D0 u) = Decimal.D0 u -> u = Decimal.Nil.
Proof.
  rewrite DecimalFacts.unorm_D0. intros H.
  destruct u as [|u|u|u|u|u|u|u|u|u|u]; try reflexivity;
    (match goal with
     | H : Decimal.unorm ?d = _ |- _ =>
         assert (Hn : d <> Decimal.Nil) by discriminate;
         pose proof (DecimalFacts.nb_digits_unorm d Hn) as Hle;
         rewrite H in Hle; simpl in Hle; lia
     end).
Qed.

(** [str(n)] never begins with a zero that another character follows. *)
Lemma str_of_int_no_leading_zero (n : Z) : ~ leading_zero (str_of_int n).
Proof.
  intros (c & rest & H). unfold str_of_int in H.
  pose proof (to_int_normal n) as Hn.
  destruct (Z.to_int n) as [u|u].
  - simpl in Hn. assert (Hu : Decimal.unorm u = u) by congruence.
    destruct u as [|u|u|u|u|u|u|u|u|u|u]; try discriminate.
    apply unorm_fixed_zero in Hu. subst u. discriminate.
  - simpl in H. discriminate.
Qed.

(** When the location IDs of the file came back as integers, a store whose
    ID begins with a zero is never recognised as known: if the first
    search of the run returns it, it is added to the list, whatever the
    file holds, the store itself included, and it reaches the file once
    more. *)
Theorem stores_with_leading_zero_are_added_again :
  forall (kroger : api) (zip_pop_map : list (str * pyfloat))
         (processed_file : list str) (rows : list store_row)
         (zip_code : str) (rest : list str)
         (data : list api_store) (a : api_store),
    (forall r, In r rows -> exists n, Location_ID r = IdInt n) ->
    condensed_zip_list (map fst zip_pop_map)
                       (Frame.dedup str_eqb processed_file)
    = zip_code :: rest ->
    (List.length (Frame.dedup str_eqb processed_file)
     < List.length zip_pop_map)%nat ->
    (forall radius, kroger 0%nat zip_code radius = Body (Some data)) ->
    In a data ->
    leading_zero (locationId a) ->
    let c := collect_stores kroger zip_pop_map processed_file (Table rows) in
    exists pre n post,
      stores (final c) = rows ++ pre ++ n :: post
      /\ Location_ID n = IdText (locationId a)
      /\ ZIP_Code n = Str zip_code
      /\ In n (rows_after (Table rows) c).
Proof.
  intros kroger zip_pop_map processed_file rows zip_code rest data a
         Hint Hbatch Hcount Hk Ha Hzero c.
  destruct (collect_stores_final kroger zip_pop_map processed_file (Table rows))
    as (population & start & Hf & S1 & S2 & S3 & S4 & S5 & S6).
  fold c in Hf. rewrite Hbatch in Hf. cbn [rows_read] in S1, S2.
  assert (Hm : mem zip_code (processed_zip_codes start) = false).
  { rewrite S6.
    assert (Hin : In zip_code
                     (condensed_zip_list (map fst zip_pop_map)
                                         (Frame.dedup str_eqb processed_file)))
      by (rewrite Hbatch; now left).
    unfold condensed_zip_list in Hin.
    set (l := filter (fun z => negb (mem z (Frame.dedup str_eqb processed_file)))
                     (every_third (map fst zip_pop_map))) in Hin.
    assert (Hl : In zip_code l)
      by (rewrite <- (firstn_skipn 2000 l); apply in_or_app; now left).
    apply filter_In in Hl as [_ Hl]. now apply negb_true_iff in Hl. }
  assert (Hc : (List.length (processed_zip_codes start)
                < List.length (map fst zip_pop_map))%nat)
    by (rewrite S6, length_map; exact Hcount).
  assert (Hkr : kroger (searches start) zip_code
                       (get_dynamic_radius (population zip_code))
                = Body (Some data))
    by (rewrite S4; apply Hk).
  destruct (@first_search_adds kroger population _ zip_code rest start data a
              Hm Hc Hkr Ha)
    as [Hknown | (pre & n & post & Hst & Hid & Hzip)].
  - exfalso. rewrite S2 in Hknown. apply in_map_iff in Hknown as (r & Er & Hr).
    destruct (Hint r Hr) as (m & Em). unfold loc_id_text in Er.
    rewrite Em in Er. cbn [id_text] in Er.
    apply (str_of_int_no_leading_zero m). now rewrite Er.
  - rewrite <- Hf, S1 in Hst.
    exists pre, n, post. split; [exact Hst|]. split; [exact Hid|].
    split; [exact Hzip|].
    unfold rows_after. apply in_or_app. right.
    assert (Happ : appended c = Some (stores (final c))).
    { unfold c, collect_stores in *.
      match goal with
      | |- context [search_loop kroger ?p ?k ?b ?s] =>
          set (f := search_loop kroger p k b s) in *
      end.
      destruct (stores f) as [|x l] eqn:E; cbn [final appended] in *.
      - rewrite E in Hst. destruct rows; destruct pre; discriminate.
      - now rewrite E. }
    rewrite Happ, Hst. apply in_or_app. right. apply in_or_app. right. now left.
Qed.

Lemma stores_with_leading_zero_are_added_again_witness :
  let file := Table [row_read 1400376 "45201"] in
  let c := collect_stores two_stores [(txt "45202", Fin 300000)] [] file in
  map Location_ID (stores (final c))
  = [IdInt 1400376; IdText (txt "01400376"); IdText (txt "01400943")]
  /\ exists pre n post,
       stores (final c) = [row_read 1400376 "45201"] ++ pre ++ n :: post
       /\ Location_ID n = IdText (txt "01400376").
Proof.
  intros file c. split; [reflexivity|].
  destruct (@stores_with_leading_zero_are_added_again
              two_stores [(txt "45202", Fin 300000)] []
              [row_read 1400376 "45201"] (txt "45202") []
              [ {| locationId := txt "01400376"; name := Some (txt "Kroger");
                   storeNumber := None; chain := Some (txt "KROGER");
                   divisionNumber := None; address := None |};
                {| locationId := txt "01400943"; name := None;
                   storeNumber := None; chain := None;
                   divisionNumber := None; address := None |} ]
              {| locationId := txt "01400376"; name := Some (txt "Kroger");
                 storeNumber := None; chain := Some (txt "KROGER");
                 divisionNumber := None; address := None |})
    as (pre & n & post & H1 & H2 & _).
  - intros r [<-|[]]. now exists 1400376%Z.
  - reflexivity.
  - simpl. lia.
  - reflexivity.
  - now left.
  - exists "1"%char, (txt "400376"). reflexivity.
  - exists pre, n, post. split; [exact H1 | exact H2].
Defined.

End AcquisitionProps.
